(** * The K8ssandraCluster reconciler (controllers/k8ssandracluster_controller.go)

    A shallow embedding of the reconciliation pass of the K8ssandraCluster
    controller, together with the properties of the pass that the design
    document states.

    The controller talks to several Kubernetes API servers.  Everything behind
    those calls (the API servers, the client cache, concurrent writers) is
    kept abstract: the calls are the operations of a type class over an
    arbitrary world state, and every call a pass makes is recorded, with its
    arguments and its answer, in a trace. *)

From Stdlib Require Import ZArith Lia List String Ascii.
From Stdlib Require Import Init.Byte.
From stdpp Require Import base option list strings gmap pretty.

Local Open Scope Z_scope.

(** ** crypto/sha256 and encoding/base64

    [deepHashString] hashes with SHA-256 and prints the digest with the
    standard base64 alphabet.  Both are embedded here as the Go standard
    library computes them (FIPS 180-4 and RFC 4648). *)

Module bytes.

Definition toZ (b : byte) : Z := Z.of_N (Byte.to_N b).

Definition ofZ (z : Z) : byte :=
  match Byte.of_N (Z.to_N (z mod 256)) with
  | Some b => b
  | None => x00
  end.

(** The bytes of a Go string. *)
Fixpoint ofString (s : string) : list byte :=
  match s with
  | EmptyString => []
  | String a s' => byte_of_ascii a :: ofString s'
  end.

End bytes.

Module sha256.

(** 32-bit words are integers in [0, 2^32); additions wrap around. *)
Definition wrap (x : Z) : Z := x mod 2 ^ 32.
Definition add (x y : Z) : Z := wrap (x + y).
Definition not32 (x : Z) : Z := Z.lxor x 4294967295.
Definition rotr (n x : Z) : Z :=
  Z.lor (Z.shiftr x n) (wrap (Z.shiftl x (32 - n))).

Definition Ch (x y z : Z) : Z := Z.lxor (Z.land x y) (Z.land (not32 x) z).
Definition Maj (x y z : Z) : Z :=
  Z.lxor (Z.lxor (Z.land x y) (Z.land x z)) (Z.land y z).
Definition Sigma0 (x : Z) : Z := Z.lxor (Z.lxor (rotr 2 x) (rotr 13 x)) (rotr 22 x).
Definition Sigma1 (x : Z) : Z := Z.lxor (Z.lxor (rotr 6 x) (rotr 11 x)) (rotr 25 x).
Definition sigma0 (x : Z) : Z := Z.lxor (Z.lxor (rotr 7 x) (rotr 18 x)) (Z.shiftr x 3).
Definition sigma1 (x : Z) : Z := Z.lxor (Z.lxor (rotr 17 x) (rotr 19 x)) (Z.shiftr x 10).

(** The constants of FIPS 180-4 come from the first primes: the round
    constants are the first 32 bits of the fractional parts of their cube
    roots, the initial hash value those of their square roots. *)
Fixpoint primes_from (fuel : nat) (n : Z) (count : nat) (found : list Z) : list Z :=
  match fuel, count with
  | O, _ | _, O => rev found
  | S fuel', S count' =>
      if forallb (fun p => negb (n mod p =? 0)) found
      then primes_from fuel' (n + 1) count' (n :: found)
      else primes_from fuel' (n + 1) count found
  end.

Definition primes (count : nat) : list Z := primes_from 400 2 count [].

(** The integer cube root of [n], between [lo] and [hi], by bisection. *)
Fixpoint cbrt_between (fuel : nat) (lo hi n : Z) : Z :=
  match fuel with
  | O => lo
  | S fuel' =>
      if hi - lo <=? 1 then lo
      else
        let mid := (lo + hi) / 2 in
        if mid * mid * mid <=? n then cbrt_between fuel' mid hi n
        else cbrt_between fuel' lo mid n
  end.

Definition K : list Z :=
  Eval vm_compute in
    map (fun p => wrap (cbrt_between 40 0 (2 ^ 35) (p * 2 ^ 96))) (primes 64).

(** The eight working variables, also the chaining value. *)
Record digest := Digest {
  ha : Z; hb : Z; hc : Z; hd : Z; he : Z; hf : Z; hg : Z; hh : Z
}.

Definition init : digest :=
  Eval vm_compute in
    match map (fun p => wrap (Z.sqrt (p * 2 ^ 64))) (primes 8) with
    | [a; b; c; d; e; f; g; h] => Digest a b c d e f g h
    | _ => Digest 0 0 0 0 0 0 0 0
    end.

(** Padding: a 1 bit, zeros up to 56 mod 64, then the bit length on 8 bytes. *)
Definition be_bytes (n : nat) (x : Z) : list byte :=
  map (fun i => bytes.ofZ (Z.shiftr x (8 * Z.of_nat i))) (rev (seq 0 n)).

Definition pad (msg : list byte) : list byte :=
  let len := Z.of_nat (length msg) in
  msg ++ [x80] ++ repeat x00 (Z.to_nat ((55 - len) mod 64))
      ++ be_bytes 8 (8 * len).

Definition be_word (b0 b1 b2 b3 : byte) : Z :=
  Z.lor (Z.lor (Z.shiftl (bytes.toZ b0) 24) (Z.shiftl (bytes.toZ b1) 16))
        (Z.lor (Z.shiftl (bytes.toZ b2) 8) (bytes.toZ b3)).

Fixpoint words (l : list byte) : list Z :=
  match l with
  | b0 :: b1 :: b2 :: b3 :: l' => be_word b0 b1 b2 b3 :: words l'
  | _ => []
  end.

(** The message schedule: [win] holds W(t-16) .. W(t-1). *)
Fixpoint schedule (n : nat) (win : list Z) : list Z :=
  match n with
  | O => []
  | S n' =>
      let wt := add (add (sigma1 (nth 14 win 0)) (nth 9 win 0))
                    (add (sigma0 (nth 1 win 0)) (nth 0 win 0)) in
      wt :: schedule n' (tl win ++ [wt])
  end.

Definition round (s : digest) (kw : Z * Z) : digest :=
  let t1 := add (add (add (hh s) (Sigma1 (he s))) (Ch (he s) (hf s) (hg s)))
                (add (fst kw) (snd kw)) in
  let t2 := add (Sigma0 (ha s)) (Maj (ha s) (hb s) (hc s)) in
  Digest (add t1 t2) (ha s) (hb s) (hc s) (add (hd s) t1) (he s) (hf s) (hg s).

Definition block (h : digest) (blk : list byte) : digest :=
  let w16 := words blk in
  let w := w16 ++ schedule 48 w16 in
  let s := fold_left round (combine K w) h in
  Digest (add (ha h) (ha s)) (add (hb h) (hb s)) (add (hc h) (hc s))
         (add (hd h) (hd s)) (add (he h) (he s)) (add (hf h) (hf s))
         (add (hg h) (hg s)) (add (hh h) (hh s)).

Fixpoint blocks (n : nat) (h : digest) (l : list byte) : digest :=
  match n with
  | O => h
  | S n' => blocks n' (block h (firstn 64 l)) (skipn 64 l)
  end.

(** [Sum256 data] is what [h.Sum([]byte{})] returns after [data] was written
    to a fresh hasher: the 32 bytes of the digest. *)
Definition Sum256 (data : list byte) : list byte :=
  let p := pad data in
  let h := blocks (Nat.div (length p) 64) init p in
  be_bytes 4 (ha h) ++ be_bytes 4 (hb h) ++ be_bytes 4 (hc h) ++ be_bytes 4 (hd h)
    ++ be_bytes 4 (he h) ++ be_bytes 4 (hf h) ++ be_bytes 4 (hg h) ++ be_bytes 4 (hh h).

End sha256.

Module base64.

Definition alphabet : string :=
  "ABCDEFGHIJKLMNOPQRSTUVWXYZabcdefghijklmnopqrstuvwxyz0123456789+/".

Definition char (i : Z) : ascii :=
  match String.get (Z.to_nat i) alphabet with
  | Some a => a
  | None => "="%char
  end.

(** [StdEncoding.EncodeToString]: three bytes give four characters, and the
    last group is padded with "=". *)
Fixpoint EncodeToString (src : list byte) : string :=
  match src with
  | [] => EmptyString
  | [b0] =>
      let x0 := bytes.toZ b0 in
      String (char (Z.shiftr x0 2))
        (String (char (Z.shiftl (Z.land x0 3) 4)) "==")
  | [b0; b1] =>
      let x0 := bytes.toZ b0 in
      let x1 := bytes.toZ b1 in
      String (char (Z.shiftr x0 2))
        (String (char (Z.lor (Z.shiftl (Z.land x0 3) 4) (Z.shiftr x1 4)))
           (String (char (Z.shiftl (Z.land x1 15) 2)) "="))
  | b0 :: b1 :: b2 :: src' =>
      let x0 := bytes.toZ b0 in
      let x1 := bytes.toZ b1 in
      let x2 := bytes.toZ b2 in
      String (char (Z.shiftr x0 2))
        (String (char (Z.lor (Z.shiftl (Z.land x0 3) 4) (Z.shiftr x1 4)))
           (String (char (Z.lor (Z.shiftl (Z.land x1 15) 2) (Z.shiftr x2 6)))
              (String (char (Z.land x2 63)) (EncodeToString src'))))
  end.

End base64.

(** ** Go values used by the controller *)

(** A [[]string]: nil, or a slice with its elements.  [append] with nothing
    to add gives back its first argument, so a nil slice stays nil. *)
Module slice.

Definition t : Type := option (list string).

Definition elems (s : t) : list string :=
  match s with
  | Some l => l
  | None => []
  end.

Definition len (s : t) : nat := length (elems s).

Definition isNil (s : t) : bool :=
  match s with
  | Some _ => false
  | None => true
  end.

(** [make([]string, 0, n)] *)
Definition make0 : t := Some [].

(** [append(s, xs...)] *)
Definition append (s xs : t) : t :=
  match elems xs with
  | [] => s
  | _ :: _ => Some (elems s ++ elems xs)
  end.

End slice.

(** Go's [error] values.  An error coming from an API server carries a status
    reason; [fmt.Errorf] builds a plain one. *)
Module errors.

Inductive StatusReason : Type :=
| StatusReasonNotFound
| StatusReasonAlreadyExists
| StatusReasonConflict
| StatusReasonInvalid
| StatusReasonUnknown.

Inductive error : Type :=
| StatusError (reason : StatusReason) (message : string)
| Errorf (message : string).

Definition IsNotFound (err : error) : bool :=
  match err with
  | StatusError StatusReasonNotFound _ => true
  | _ => false
  end.

Definition IsConflict (err : error) : bool :=
  match err with
  | StatusError StatusReasonConflict _ => true
  | _ => false
  end.

End errors.

(** The answer of a call that returns [(T, error)]. *)
Inductive result (A : Type) : Type :=
| Ok (a : A)
| Err (err : errors.error).
Arguments Ok {A} a.
Arguments Err {A} err.

(** [time.Duration] counts nanoseconds. *)
Module time.
Definition Duration : Type := Z.
Definition Second : Duration := 1000000000.
End time.

Module types.
Record NamespacedName : Type := {
  Namespace : string;
  Name : string
}.
End types.

Module ctrl.
Record Request : Type := { NamespacedName : types.NamespacedName }.
Record Result : Type := {
  Requeue : bool;
  RequeueAfter : time.Duration
}.
(** [ctrl.Result{}] *)
Definition zero : Result := {| Requeue := false; RequeueAfter := 0 |}.
End ctrl.

Module metav1.
(** The fields of [ObjectMeta] that matter to a pass: the identity the
    controller chooses, and the fields the API server manages. *)
Record ObjectMeta : Type := {
  Name : string;
  Namespace : string;
  UID : string;
  ResourceVersion : string;
  Generation : Z;
  Labels : gmap string string;
  Annotations : gmap string string
}.
End metav1.

Module corev1.
Record PodStatus : Type := { PodIP : string }.
Record Pod : Type := {
  ObjectMeta : metav1.ObjectMeta;
  Status : PodStatus
}.
End corev1.

(** Types that are declared in other packages and that a pass only carries
    from the template to the datacenter: resource requirements, the
    configuration blob, the racks, the storage configuration, and the status
    that cass-operator writes. *)
Class Payloads : Type := {
  ResourceRequirements : Type;
  RawConfig : Type;
  RackList : Type;
  StorageConfigT : Type;
  DatacenterStatus : Type;
  (** the zero value of the status, which a freshly built object carries *)
  zeroStatus : DatacenterStatus
}.

(** github.com/k8ssandra/cass-operator/.../cassandra/v1beta1 *)
Module cassdcapi.
Section types.
Context {P : Payloads}.

Record NetworkingConfig : Type := { HostNetwork : bool }.

Record CassandraDatacenterSpec : Type := {
  ClusterName : string;
  Size : Z;
  ServerType : string;
  ServerVersion : string;
  Resources : ResourceRequirements;
  Config : RawConfig;
  Racks : RackList;
  StorageConfig : StorageConfigT;
  AdditionalSeeds : slice.t;
  Networking : option NetworkingConfig
}.

Record CassandraDatacenter : Type := {
  ObjectMeta : metav1.ObjectMeta;
  Spec : CassandraDatacenterSpec;
  Status : DatacenterStatus
}.

(** [dc.Annotations[key] = value] *)
Definition setAnnotation (dc : CassandraDatacenter) (key value : string)
  : CassandraDatacenter :=
  let m := ObjectMeta dc in
  {| ObjectMeta :=
       {| metav1.Name := metav1.Name m;
          metav1.Namespace := metav1.Namespace m;
          metav1.UID := metav1.UID m;
          metav1.ResourceVersion := metav1.ResourceVersion m;
          metav1.Generation := metav1.Generation m;
          metav1.Labels := metav1.Labels m;
          metav1.Annotations := <[key := value]> (metav1.Annotations m) |};
     Spec := Spec dc;
     Status := Status dc |}.

(** [dc.Spec.AdditionalSeeds = seeds] *)
Definition setAdditionalSeeds (dc : CassandraDatacenter) (seeds : slice.t)
  : CassandraDatacenter :=
  let s := Spec dc in
  {| ObjectMeta := ObjectMeta dc;
     Spec :=
       {| ClusterName := ClusterName s;
          Size := Size s;
          ServerType := ServerType s;
          ServerVersion := ServerVersion s;
          Resources := Resources s;
          Config := Config s;
          Racks := Racks s;
          StorageConfig := StorageConfig s;
          AdditionalSeeds := seeds;
          Networking := Networking s |};
     Status := Status dc |}.

(** The generated deep copies: [in.DeepCopy()] is a copy of [in], and
    [in.DeepCopyInto(out)] starts with [*out = *in] and then copies every
    reference field of [in], so that afterwards [out] is a copy of [in], its
    metadata and status included. *)
Definition DeepCopy (dc : CassandraDatacenter) : CassandraDatacenter := dc.

Definition DeepCopyInto (src out : CassandraDatacenter) : CassandraDatacenter :=
  DeepCopy src.

End types.
End cassdcapi.

(** github.com/k8ssandra/k8ssandra-operator/api/v1alpha1: the fields of the
    cluster resource and of its datacenter templates that the controller
    reads. *)
Module api.
Section types.
Context {P : Payloads}.

Record EmbeddedObjectMeta : Type := {
  Namespace : string;
  Name : string
}.

Record CassandraDatacenterTemplateSpec : Type := {
  Meta : EmbeddedObjectMeta;
  K8sContext : string;
  Size : Z;
  ServerVersion : string;
  Resources : ResourceRequirements;
  Config : RawConfig;
  Racks : RackList;
  StorageConfig : StorageConfigT
}.

Record CassandraClusterTemplateSpec : Type := {
  Cluster : string;
  Datacenters : list CassandraDatacenterTemplateSpec
}.

Record K8ssandraClusterSpec : Type := {
  K8sContextsSecret : string;
  Cassandra : option CassandraClusterTemplateSpec
}.

Record K8ssandraCluster : Type := {
  ObjectMeta : metav1.ObjectMeta;
  Spec : K8ssandraClusterSpec
}.

End types.
End api.

(** sigs.k8s.io/controller-runtime/pkg/client *)
Module client.
Section types.
Context {P : Payloads}.

(** [MergeFromWithOptions(from, opts...)]: a merge patch computed against
    [from].  With [MergeFromWithOptimisticLock] the patch carries the resource
    version of [from], and the API server applies it only to that version. *)
Record Patch : Type := {
  from : cassdcapi.CassandraDatacenter;
  OptimisticLock : bool
}.

Definition MergeFromWithOptions (obj : cassdcapi.CassandraDatacenter)
  (optimisticLock : bool) : Patch :=
  {| from := obj; OptimisticLock := optimisticLock |}.

End types.
End client.

(** ** What lies outside the controller *)

(** Names the controller imports from packages that are not part of this
    file: the label cass-operator puts on the pods of a datacenter, the
    readiness predicate of pkg/cassandra, and the bytes that
    [hash.DeepHashObject] writes to the hasher for an object. *)
Class External {P : Payloads} : Type := {
  DatacenterLabel : string;
  DatacenterReady : cassdcapi.CassandraDatacenter -> bool;
  DeepHashObject : cassdcapi.CassandraDatacenter -> list byte
}.

(** The calls a pass makes: [r.Get] on the reconciler's own client,
    [r.ClientCache.GetClient], and [Get], [Create], [Update], [List] and
    [Patch] on a remote client.  Each one reads and changes a world [W]
    that the pass does not see otherwise; since the answers are arbitrary
    functions of the world, other writers may act between any two calls. *)
Class Remote {P : Payloads} (W Client : Type) : Type := {
  reconciler_Get :
    types.NamespacedName -> W -> result api.K8ssandraCluster * W;
  ClientCache_GetClient :
    types.NamespacedName -> string -> string -> W -> result (option Client) * W;
  client_Get :
    Client -> types.NamespacedName -> W -> result cassdcapi.CassandraDatacenter * W;
  client_Create :
    Client -> cassdcapi.CassandraDatacenter -> W -> option errors.error * W;
  client_Update :
    Client -> cassdcapi.CassandraDatacenter -> W
    -> result cassdcapi.CassandraDatacenter * W;
  client_List :
    Client -> gmap string string -> W -> result (list corev1.Pod) * W;
  client_Patch :
    Client -> cassdcapi.CassandraDatacenter -> client.Patch -> W
    -> option errors.error * W
}.

(** One entry of the trace: a call, its arguments and its answer. *)
Inductive Event {P : Payloads} (Client : Type) : Type :=
| EvReconcilerGet (key : types.NamespacedName)
    (r : result api.K8ssandraCluster)
| EvGetClient (key : types.NamespacedName) (secret k8sContext : string)
    (r : result (option Client))
| EvGet (c : Client) (key : types.NamespacedName)
    (r : result cassdcapi.CassandraDatacenter)
| EvCreate (c : Client) (obj : cassdcapi.CassandraDatacenter)
    (r : option errors.error)
| EvUpdate (c : Client) (obj : cassdcapi.CassandraDatacenter)
    (r : result cassdcapi.CassandraDatacenter)
| EvList (c : Client) (labels : gmap string string)
    (r : result (list corev1.Pod))
| EvPatch (c : Client) (obj : cassdcapi.CassandraDatacenter)
    (patch : client.Patch) (r : option errors.error).
Arguments EvReconcilerGet {P Client} key r.
Arguments EvGetClient {P Client} key secret k8sContext r.
Arguments EvGet {P Client} c key r.
Arguments EvCreate {P Client} c obj r.
Arguments EvUpdate {P Client} c obj r.
Arguments EvList {P Client} c labels r.
Arguments EvPatch {P Client} c obj patch r.

(** How a Go function ends: it returns, or it panics (an index out of range,
    a method called on a nil interface). *)
Inductive outcome (A : Type) : Type :=
| Returns (a : A)
| Panics (msg : string).
Arguments Returns {A} a.
Arguments Panics {A} msg.

(** ** The controller

    The functions of the controller, under their names.  A loop is a
    [Fixpoint] of its own, and the body of the loop of [Reconcile] is cut
    into the blocks its lines form.  The calls to the logger are left out:
    they change nothing that a pass reads or returns. *)

Section controller.
Context {P : Payloads} {X : External} {W Client : Type} {R : Remote W Client}.

(** A computation runs from a world to an outcome, the new world, and the
    calls it made, in order. *)
Definition M (A : Type) : Type := W -> outcome A * W * list (Event Client).

Definition ret {A : Type} (a : A) : M A := fun w => (Returns a, w, []).

Definition panic {A : Type} (msg : string) : M A := fun w => (Panics msg, w, []).

Definition bind {A B : Type} (m : M A) (f : A -> M B) : M B :=
  fun w =>
    match m w with
    | (Returns a, w1, t1) =>
        match f a w1 with
        | (o, w2, t2) => (o, w2, t1 ++ t2)
        end
    | (Panics msg, w1, t1) => (Panics msg, w1, t1)
    end.

Notation "'let*' x := m 'in' k" := (bind m (fun x => k))
  (at level 10, x name, m at level 100, k at level 200).

Definition call_reconciler_Get (key : types.NamespacedName)
  : M (result api.K8ssandraCluster) :=
  fun w => match reconciler_Get key w with
           | (r, w') => (Returns r, w', [EvReconcilerGet key r])
           end.

Definition call_GetClient (key : types.NamespacedName) (secret k8sContext : string)
  : M (result (option Client)) :=
  fun w => match ClientCache_GetClient key secret k8sContext w with
           | (r, w') => (Returns r, w', [EvGetClient key secret k8sContext r])
           end.

Definition call_Get (c : Client) (key : types.NamespacedName)
  : M (result cassdcapi.CassandraDatacenter) :=
  fun w => match client_Get c key w with
           | (r, w') => (Returns r, w', [EvGet c key r])
           end.

Definition call_Create (c : Client) (obj : cassdcapi.CassandraDatacenter)
  : M (option errors.error) :=
  fun w => match client_Create c obj w with
           | (r, w') => (Returns r, w', [EvCreate c obj r])
           end.

Definition call_Update (c : Client) (obj : cassdcapi.CassandraDatacenter)
  : M (result cassdcapi.CassandraDatacenter) :=
  fun w => match client_Update c obj w with
           | (r, w') => (Returns r, w', [EvUpdate c obj r])
           end.

Definition call_List (c : Client) (labels : gmap string string)
  : M (result (list corev1.Pod)) :=
  fun w => match client_List c labels w with
           | (r, w') => (Returns r, w', [EvList c labels r])
           end.

Definition call_Patch (c : Client) (obj : cassdcapi.CassandraDatacenter)
  (patch : client.Patch) : M (option errors.error) :=
  fun w => match client_Patch c obj patch w with
           | (r, w') => (Returns r, w', [EvPatch c obj patch r])
           end.

Definition resourceHashAnnotation : string := "k8ssandra.io/resource-hash".

(** [newDatacenter] *)
Definition newDatacenter (k8ssandraNamespace cluster : string)
  (template : api.CassandraDatacenterTemplateSpec) (additionalSeeds : slice.t)
  : cassdcapi.CassandraDatacenter :=
  let namespace := api.Namespace (api.Meta template) in
  let namespace :=
    if Nat.eqb (String.length namespace) 0 then k8ssandraNamespace else namespace in
  {| cassdcapi.ObjectMeta :=
       {| metav1.Name := api.Name (api.Meta template);
          metav1.Namespace := namespace;
          metav1.UID := "";
          metav1.ResourceVersion := "";
          metav1.Generation := 0;
          metav1.Labels := ∅;
          metav1.Annotations := ∅ |};
     cassdcapi.Spec :=
       {| cassdcapi.ClusterName := cluster;
          cassdcapi.Size := api.Size template;
          cassdcapi.ServerType := "cassandra";
          cassdcapi.ServerVersion := api.ServerVersion template;
          cassdcapi.Resources := api.Resources template;
          cassdcapi.Config := api.Config template;
          cassdcapi.Racks := api.Racks template;
          cassdcapi.StorageConfig := api.StorageConfig template;
          cassdcapi.AdditionalSeeds := additionalSeeds;
          cassdcapi.Networking := Some {| cassdcapi.HostNetwork := true |} |};
     cassdcapi.Status := zeroStatus |}.

(** [deepHashString] *)
Definition deepHashString (obj : cassdcapi.CassandraDatacenter) : string :=
  let hashBytes := sha256.Sum256 (DeepHashObject obj) in
  let b64Hash := base64.EncodeToString hashBytes in
  b64Hash.

(** The loop of [resolveSeedEndpoints] over [podList.Items], entered with
    the endpoints collected so far. *)
Fixpoint collectEndpoints (items : list corev1.Pod) (endpoints : list string)
  : list string :=
  match items with
  | [] => endpoints
  | pod :: items' =>
      let endpoints := endpoints ++ [corev1.PodIP (corev1.Status pod)] in
      if (2 <? length endpoints)%nat then endpoints
      else collectEndpoints items' endpoints
  end.

(** [resolveSeedEndpoints] *)
Definition resolveSeedEndpoints (dc : cassdcapi.CassandraDatacenter)
  (remoteClient : Client) : M (result slice.t) :=
  let labels : gmap string string :=
    {[ DatacenterLabel := metav1.Name (cassdcapi.ObjectMeta dc) ]} in
  let* r := call_List remoteClient labels in
  match r with
  | Err err => ret (Err err)
  | Ok items => ret (Ok (Some (collectEndpoints items [])))
  end.

(** [getDatacenterKey] *)
Definition getDatacenterKey (dcTemplate : api.CassandraDatacenterTemplateSpec)
  (k8ssandraKey : types.NamespacedName) : types.NamespacedName :=
  if Nat.eqb (String.length (api.Namespace (api.Meta dcTemplate))) 0 then
    {| types.Namespace := types.Namespace k8ssandraKey;
       types.Name := api.Name (api.Meta dcTemplate) |}
  else
    {| types.Namespace := api.Namespace (api.Meta dcTemplate);
       types.Name := api.Name (api.Meta dcTemplate) |}.

(** [s[idx]] for a Go [int] index: out of range, the program panics. *)
Definition index {A : Type} (s : list A) (idx : Z) : option A :=
  if idx <? 0 then None else s !! Z.to_nat idx.

(** [getDatacenterForTemplate].  The caller reads the datacenter and the
    client only when the error is nil, so the three results are one
    [result]. *)
Definition getDatacenterForTemplate (k8ssandra : api.K8ssandraCluster) (idx : Z)
  : M (result (cassdcapi.CassandraDatacenter * Client)) :=
  match api.Cassandra (api.Spec k8ssandra) with
  | None => panic "invalid memory address or nil pointer dereference"
  | Some cassandra =>
      match index (api.Datacenters cassandra) idx with
      | None => panic "index out of range"
      | Some dcTemplate =>
          let k8ssandraKey :=
            {| types.Namespace := metav1.Namespace (api.ObjectMeta k8ssandra);
               types.Name := metav1.Name (api.ObjectMeta k8ssandra) |} in
          let* r := call_GetClient k8ssandraKey
                 (api.K8sContextsSecret (api.Spec k8ssandra))
                 (api.K8sContext dcTemplate) in
          match r with
          | Err err => ret (Err err)
          | Ok None => panic "invalid memory address or nil pointer dereference"
          | Ok (Some remoteClient) =>
              let dcKey := getDatacenterKey dcTemplate k8ssandraKey in
              let* g := call_Get remoteClient dcKey in
              match g with
              | Err err => ret (Err err)
              | Ok dc => ret (Ok (dc, remoteClient))
              end
          end
      end
  end.

(** [updateAdditionalSeedsForDatacenter] *)
Definition updateAdditionalSeedsForDatacenter (dc : cassdcapi.CassandraDatacenter)
  (seeds : slice.t) (remoteClient : Client) : M (option errors.error) :=
  let patch := client.MergeFromWithOptions (cassdcapi.DeepCopy dc) true in
  let dc :=
    if slice.isNil (cassdcapi.AdditionalSeeds (cassdcapi.Spec dc))
    then cassdcapi.setAdditionalSeeds dc slice.make0
    else dc in
  let dc :=
    cassdcapi.setAdditionalSeeds dc
      (slice.append (cassdcapi.AdditionalSeeds (cassdcapi.Spec dc)) seeds) in
  call_Patch remoteClient dc patch.

(** The loop of [updateAdditionalSeeds]: [n] iterations are left, the next
    one at index [i]. *)
Fixpoint updateAdditionalSeeds_from (n : nat) (k8ssandra : api.K8ssandraCluster)
  (seeds : slice.t) (i : Z) : M (option errors.error) :=
  match n with
  | O => ret None
  | S n' =>
      let* r := getDatacenterForTemplate k8ssandra i in
      match r with
      | Err err => ret (Some err)
      | Ok (dc, remoteClient) =>
          let* u := updateAdditionalSeedsForDatacenter dc seeds remoteClient in
          match u with
          | Some err => ret (Some err)
          | None => updateAdditionalSeeds_from n' k8ssandra seeds (i + 1)
          end
      end
  end.

(** [updateAdditionalSeeds]: [for i := start; i < end; i++] *)
Definition updateAdditionalSeeds (k8ssandra : api.K8ssandraCluster)
  (seeds : slice.t) (start end_ : Z) : M (option errors.error) :=
  updateAdditionalSeeds_from (Z.to_nat (end_ - start)) k8ssandra seeds start.

(** How one turn of the loop over the templates ends: the loop goes on with
    the seeds collected so far, or [Reconcile] returns. *)
Inductive flow : Type :=
| Next (seeds : slice.t)
| Return (res : ctrl.Result) (err : option errors.error).

(** The test of line 106 of [Reconcile]:
    [actualHash, found := actual.Annotations[resourceHashAnnotation]] and then
    [found && actualHash == desiredHash]. *)
Definition hashMatches (actual : cassdcapi.CassandraDatacenter)
  (desiredHash : string) : bool :=
  let actualHash :=
    default "" (metav1.Annotations (cassdcapi.ObjectMeta actual)
                  !! resourceHashAnnotation) in
  let found :=
    bool_decide (is_Some (metav1.Annotations (cassdcapi.ObjectMeta actual)
                            !! resourceHashAnnotation)) in
  found && String.eqb actualHash desiredHash.

(** Lines 106 to 115 of [Reconcile]: the update of a datacenter whose
    fingerprint is not the desired one.  The result is the error of the
    update or the datacenter the pass goes on with; [Update] stores the
    answer of the API server in its argument. *)
Definition updateIfChanged (remoteClient : Client)
  (desired : cassdcapi.CassandraDatacenter) (desiredHash : string)
  (actual : cassdcapi.CassandraDatacenter)
  : M (result cassdcapi.CassandraDatacenter) :=
  if negb (hashMatches actual desiredHash) then
    let actual := cassdcapi.DeepCopy actual in
    let actual := cassdcapi.DeepCopyInto desired actual in
    call_Update remoteClient actual
  else ret (Ok actual).

(** Lines 117 to 135 of [Reconcile]: wait for the datacenter, or collect its
    seeds and hand them to the datacenters before it. *)
Definition whenFound (k8ssandra : api.K8ssandraCluster) (i : nat)
  (seeds : slice.t) (remoteClient : Client)
  (actual : cassdcapi.CassandraDatacenter) : M flow :=
  if negb (DatacenterReady actual) then
    ret (Return {| ctrl.Requeue := false;
                   ctrl.RequeueAfter := 15 * time.Second |} None)
  else
    let* e := resolveSeedEndpoints actual remoteClient in
    match e with
    | Err err => ret (Return ctrl.zero (Some err))
    | Ok endpoints =>
        let seeds := slice.append seeds endpoints in
        let* p := updateAdditionalSeeds k8ssandra seeds 0 (Z.of_nat i) in
        match p with
        | Some err => ret (Return ctrl.zero (Some err))
        | None => ret (Next seeds)
        end
    end.

(** [desired] as it stands after lines 81 to 90 of [Reconcile], with its
    fingerprint in the annotation. *)
Definition desiredDatacenter (req : ctrl.Request)
  (cassandra : api.CassandraClusterTemplateSpec)
  (template : api.CassandraDatacenterTemplateSpec) (seeds : slice.t)
  : cassdcapi.CassandraDatacenter :=
  let desired :=
    newDatacenter (types.Namespace (ctrl.NamespacedName req))
      (api.Cluster cassandra) template seeds in
  let desiredHash := deepHashString desired in
  cassdcapi.setAnnotation desired resourceHashAnnotation desiredHash.

(** The body of [for i, template := range k8ssandra.Spec.Cassandra.Datacenters]
    in [Reconcile]. *)
Definition reconcileDatacenter (req : ctrl.Request)
  (k8ssandra : api.K8ssandraCluster) (cassandra : api.CassandraClusterTemplateSpec)
  (i : nat) (template : api.CassandraDatacenterTemplateSpec) (seeds : slice.t)
  : M flow :=
  let desired :=
    newDatacenter (types.Namespace (ctrl.NamespacedName req))
      (api.Cluster cassandra) template seeds in
  let dcKey :=
    {| types.Namespace := metav1.Namespace (cassdcapi.ObjectMeta desired);
       types.Name := metav1.Name (cassdcapi.ObjectMeta desired) |} in
  let desiredHash := deepHashString desired in
  let desired := cassdcapi.setAnnotation desired resourceHashAnnotation desiredHash in
  let* r := call_GetClient (ctrl.NamespacedName req)
         (api.K8sContextsSecret (api.Spec k8ssandra)) (api.K8sContext template) in
  match r with
  | Err err => ret (Return ctrl.zero (Some err))
  | Ok None =>
      ret (Return ctrl.zero (Some (errors.Errorf "remoteClient cannot be nil")))
  | Ok (Some remoteClient) =>
      let* g := call_Get remoteClient dcKey in
      match g with
      | Ok actual =>
          let* u := updateIfChanged remoteClient desired desiredHash actual in
          match u with
          | Err err => ret (Return ctrl.zero (Some err))
          | Ok actual => whenFound k8ssandra i seeds remoteClient actual
          end
      | Err err =>
          if errors.IsNotFound err then
            let* c := call_Create remoteClient desired in
            match c with
            | Some err => ret (Return ctrl.zero (Some err))
            | None =>
                ret (Return {| ctrl.Requeue := false;
                               ctrl.RequeueAfter := 15 * time.Second |} None)
            end
          else ret (Return ctrl.zero (Some err))
      end
  end.

(** The loop over the templates, from position [i] on. *)
Fixpoint reconcileDatacenters (req : ctrl.Request)
  (k8ssandra : api.K8ssandraCluster) (cassandra : api.CassandraClusterTemplateSpec)
  (i : nat) (seeds : slice.t) (templates : list api.CassandraDatacenterTemplateSpec)
  : M flow :=
  match templates with
  | [] => ret (Next seeds)
  | template :: templates' =>
      let* f := reconcileDatacenter req k8ssandra cassandra i template seeds in
      match f with
      | Next seeds => reconcileDatacenters req k8ssandra cassandra (S i) seeds templates'
      | Return res err => ret (Return res err)
      end
  end.

(** [Reconcile] *)
Definition Reconcile (req : ctrl.Request) : M (ctrl.Result * option errors.error) :=
  let* r := call_reconciler_Get (ctrl.NamespacedName req) in
  match r with
  | Err err =>
      if errors.IsNotFound err then ret (ctrl.zero, None)
      else ret ({| ctrl.Requeue := false;
                   ctrl.RequeueAfter := 10 * time.Second |}, Some err)
  | Ok k8ssandra =>
      let k8ssandra := k8ssandra in
      match api.Cassandra (api.Spec k8ssandra) with
      | Some cassandra =>
          let* f := reconcileDatacenters req k8ssandra cassandra 0 None
                 (api.Datacenters cassandra) in
          match f with
          | Return res err => ret (res, err)
          | Next _ => ret (ctrl.zero, None)
          end
      | None => ret (ctrl.zero, None)
      end
  end.

End controller.

Notation "'let*' x := m 'in' k" := (bind m (fun x => k))
  (at level 10, x name, m at level 100, k at level 200).

(** * Traces

    What the statements below need to speak of the calls of a pass: the
    events of a trace, the situations a pass can be in, and the shape of the
    traces of each part of the controller. *)

Section traces.
Context {P : Payloads} {X : External} {W Client : Type} {R : Remote W Client}.

Implicit Types (w : W) (c : Client) (tr : list (Event Client)).
Implicit Types (dc actual : cassdcapi.CassandraDatacenter).

(** The key under which a datacenter is stored. *)
Definition keyOf (dc : cassdcapi.CassandraDatacenter) : types.NamespacedName :=
  {| types.Namespace := metav1.Namespace (cassdcapi.ObjectMeta dc);
     types.Name := metav1.Name (cassdcapi.ObjectMeta dc) |}.

Definition isCreate (ev : Event Client) : bool :=
  match ev with EvCreate _ _ _ => true | _ => false end.
Definition isUpdate (ev : Event Client) : bool :=
  match ev with EvUpdate _ _ _ => true | _ => false end.

(** The [Create] and [Update] calls of a trace. *)
Definition createsAndUpdates (tr : list (Event Client)) : list (Event Client) :=
  List.filter (fun ev => isCreate ev || isUpdate ev) tr.

(** A write to the datacenter stored under [key], through client [c]. *)
Definition writesTo `{EqDecision Client} (c : Client) (key : types.NamespacedName)
  (ev : Event Client) : bool :=
  match ev with
  | EvCreate c' obj _ | EvUpdate c' obj _ | EvPatch c' obj _ _ =>
      bool_decide (c' = c)
      && String.eqb (types.Namespace (keyOf obj)) (types.Namespace key)
      && String.eqb (types.Name (keyOf obj)) (types.Name key)
  | _ => false
  end.

(** [after_calls tr r] is the run [r] with the calls [tr] made before it. *)
Definition after_calls {A : Type} (tr : list (Event Client))
  (r : outcome A * W * list (Event Client)) : outcome A * W * list (Event Client) :=
  match r with
  | (o, w, tr') => (o, w, tr ++ tr')
  end.

(** A datacenter is found: its client resolves, the fetch answers with the
    stored datacenter, and either the fingerprint is the desired one, or the
    update that follows succeeds.  [actual] is the datacenter the pass goes
    on with, [w'] the world then, and [tr] the calls made. *)
Inductive found (req : ctrl.Request) (k8ssandra : api.K8ssandraCluster)
  (cassandra : api.CassandraClusterTemplateSpec)
  (template : api.CassandraDatacenterTemplateSpec) (seeds : slice.t)
  (w : W) (c : Client) (actual : cassdcapi.CassandraDatacenter)
  (w' : W) (tr : list (Event Client)) : Prop :=
| found_current (w1 : W) :
    ClientCache_GetClient (ctrl.NamespacedName req)
      (api.K8sContextsSecret (api.Spec k8ssandra)) (api.K8sContext template) w
    = (Ok (Some c), w1) ->
    client_Get c (keyOf (desiredDatacenter req cassandra template seeds)) w1
    = (Ok actual, w') ->
    metav1.Annotations (cassdcapi.ObjectMeta actual) !! resourceHashAnnotation
    = Some (deepHashString
              (newDatacenter (types.Namespace (ctrl.NamespacedName req))
                 (api.Cluster cassandra) template seeds)) ->
    tr = [ EvGetClient (ctrl.NamespacedName req)
             (api.K8sContextsSecret (api.Spec k8ssandra))
             (api.K8sContext template) (Ok (Some c));
           EvGet c (keyOf (desiredDatacenter req cassandra template seeds))
             (Ok actual) ] ->
    found req k8ssandra cassandra template seeds w c actual w' tr
| found_stale (w1 : W) (stored : cassdcapi.CassandraDatacenter) (w2 : W) :
    ClientCache_GetClient (ctrl.NamespacedName req)
      (api.K8sContextsSecret (api.Spec k8ssandra)) (api.K8sContext template) w
    = (Ok (Some c), w1) ->
    client_Get c (keyOf (desiredDatacenter req cassandra template seeds)) w1
    = (Ok stored, w2) ->
    metav1.Annotations (cassdcapi.ObjectMeta stored) !! resourceHashAnnotation
    <> Some (deepHashString
               (newDatacenter (types.Namespace (ctrl.NamespacedName req))
                  (api.Cluster cassandra) template seeds)) ->
    client_Update c (desiredDatacenter req cassandra template seeds) w2
    = (Ok actual, w') ->
    tr = [ EvGetClient (ctrl.NamespacedName req)
             (api.K8sContextsSecret (api.Spec k8ssandra))
             (api.K8sContext template) (Ok (Some c));
           EvGet c (keyOf (desiredDatacenter req cassandra template seeds))
             (Ok stored);
           EvUpdate c (desiredDatacenter req cassandra template seeds)
             (Ok actual) ] ->
    found req k8ssandra cassandra template seeds w c actual w' tr.

(** The datacenter that [updateAdditionalSeedsForDatacenter] sends: [dc] with
    [seeds] appended to its additional seeds. *)
Definition seeded dc (seeds : slice.t) : cassdcapi.CassandraDatacenter :=
  let dc :=
    if slice.isNil (cassdcapi.AdditionalSeeds (cassdcapi.Spec dc))
    then cassdcapi.setAdditionalSeeds dc slice.make0
    else dc in
  cassdcapi.setAdditionalSeeds dc
    (slice.append (cassdcapi.AdditionalSeeds (cassdcapi.Spec dc)) seeds).

(** The key of the cluster resource, as [getDatacenterForTemplate] builds it. *)
Definition k8ssandraKeyOf (k8ssandra : api.K8ssandraCluster) : types.NamespacedName :=
  {| types.Namespace := metav1.Namespace (api.ObjectMeta k8ssandra);
     types.Name := metav1.Name (api.ObjectMeta k8ssandra) |}.

(** The calls of seed propagation for the datacenter of one template, when
    the client resolves to [c] and the fetch answers [dc]: the client, the
    fetch, and the patch, computed against the fetched [dc] and bound to its
    resource version, with answer [r]. *)
Definition propagationCalls (k8ssandra : api.K8ssandraCluster) (seeds : slice.t)
  (template : api.CassandraDatacenterTemplateSpec) c dc (r : option errors.error)
  : list (Event Client) :=
  [ EvGetClient (k8ssandraKeyOf k8ssandra)
      (api.K8sContextsSecret (api.Spec k8ssandra)) (api.K8sContext template)
      (Ok (Some c));
    EvGet c (getDatacenterKey template (k8ssandraKeyOf k8ssandra)) (Ok dc);
    EvPatch c (seeded dc seeds) (client.MergeFromWithOptions dc true) r ].

(** The traces of seed propagation over a list of templates, and how it
    ends.  Each datacenter of the list gets its three calls, in the order of
    the list; propagation stops at the first call that fails, and that
    datacenter is the last one touched. *)
Inductive propagated (k8ssandra : api.K8ssandraCluster) (seeds : slice.t)
  : list api.CassandraDatacenterTemplateSpec -> list (Event Client)
    -> outcome (option errors.error) -> Prop :=
| propagated_all :
    propagated k8ssandra seeds [] [] (Returns None)
| propagated_one template templates c dc tr o :
    propagated k8ssandra seeds templates tr o ->
    propagated k8ssandra seeds (template :: templates)
      (propagationCalls k8ssandra seeds template c dc None ++ tr) o
| propagated_rejected template templates c dc err :
    propagated k8ssandra seeds (template :: templates)
      (propagationCalls k8ssandra seeds template c dc (Some err))
      (Returns (Some err))
| propagated_not_fetched template templates c err :
    propagated k8ssandra seeds (template :: templates)
      [ EvGetClient (k8ssandraKeyOf k8ssandra)
          (api.K8sContextsSecret (api.Spec k8ssandra)) (api.K8sContext template)
          (Ok (Some c));
        EvGet c (getDatacenterKey template (k8ssandraKeyOf k8ssandra)) (Err err) ]
      (Returns (Some err))
| propagated_no_client template templates err :
    propagated k8ssandra seeds (template :: templates)
      [ EvGetClient (k8ssandraKeyOf k8ssandra)
          (api.K8sContextsSecret (api.Spec k8ssandra)) (api.K8sContext template)
          (Err err) ]
      (Returns (Some err))
| propagated_nil_client template templates msg :
    propagated k8ssandra seeds (template :: templates)
      [ EvGetClient (k8ssandraKeyOf k8ssandra)
          (api.K8sContextsSecret (api.Spec k8ssandra)) (api.K8sContext template)
          (Ok None) ]
      (Panics msg).

(** The label selector of [resolveSeedEndpoints]. *)
Definition seedSelector actual : gmap string string :=
  {[ DatacenterLabel := metav1.Name (cassdcapi.ObjectMeta actual) ]}.

(** How a turn ends when propagation ended with [o], the seeds being
    [seeds]. *)
Definition afterPropagation (seeds : slice.t) (o : outcome (option errors.error))
  : outcome flow :=
  match o with
  | Returns None => Returns (Next seeds)
  | Returns (Some err) => Returns (Return ctrl.zero (Some err))
  | Panics msg => Panics msg
  end.

(** The traces of [whenFound] at position [i]. *)
Inductive settled (k8ssandra : api.K8ssandraCluster)
  (cassandra : api.CassandraClusterTemplateSpec) (i : nat) (seeds : slice.t)
  c actual : list (Event Client) -> outcome flow -> Prop :=
| settled_not_ready :
    DatacenterReady actual = false ->
    settled k8ssandra cassandra i seeds c actual []
      (Returns (Return {| ctrl.Requeue := false;
                          ctrl.RequeueAfter := 15 * time.Second |} None))
| settled_no_pods err :
    DatacenterReady actual = true ->
    settled k8ssandra cassandra i seeds c actual
      [EvList c (seedSelector actual) (Err err)]
      (Returns (Return ctrl.zero (Some err)))
| settled_propagated items tr o :
    DatacenterReady actual = true ->
    propagated k8ssandra (slice.append seeds (Some (collectEndpoints items [])))
      (take i (api.Datacenters cassandra)) tr o ->
    settled k8ssandra cassandra i seeds c actual
      (EvList c (seedSelector actual) (Ok items) :: tr)
      (afterPropagation (slice.append seeds (Some (collectEndpoints items []))) o).

(** The traces of one turn of the loop, for the template at position [i]
    and the seeds collected before it. *)
Inductive turn (req : ctrl.Request) (k8ssandra : api.K8ssandraCluster)
  (cassandra : api.CassandraClusterTemplateSpec) (i : nat)
  (template : api.CassandraDatacenterTemplateSpec) (seeds : slice.t)
  : list (Event Client) -> outcome flow -> Prop :=
| turn_no_client err :
    turn req k8ssandra cassandra i template seeds
      [ EvGetClient (ctrl.NamespacedName req)
          (api.K8sContextsSecret (api.Spec k8ssandra)) (api.K8sContext template)
          (Err err) ]
      (Returns (Return ctrl.zero (Some err)))
| turn_nil_client :
    turn req k8ssandra cassandra i template seeds
      [ EvGetClient (ctrl.NamespacedName req)
          (api.K8sContextsSecret (api.Spec k8ssandra)) (api.K8sContext template)
          (Ok None) ]
      (Returns (Return ctrl.zero
                  (Some (errors.Errorf "remoteClient cannot be nil"))))
| turn_not_fetched c err :
    errors.IsNotFound err = false ->
    turn req k8ssandra cassandra i template seeds
      [ EvGetClient (ctrl.NamespacedName req)
          (api.K8sContextsSecret (api.Spec k8ssandra)) (api.K8sContext template)
          (Ok (Some c));
        EvGet c (keyOf (desiredDatacenter req cassandra template seeds)) (Err err) ]
      (Returns (Return ctrl.zero (Some err)))
| turn_created c err :
    errors.IsNotFound err = true ->
    turn req k8ssandra cassandra i template seeds
      [ EvGetClient (ctrl.NamespacedName req)
          (api.K8sContextsSecret (api.Spec k8ssandra)) (api.K8sContext template)
          (Ok (Some c));
        EvGet c (keyOf (desiredDatacenter req cassandra template seeds)) (Err err);
        EvCreate c (desiredDatacenter req cassandra template seeds) None ]
      (Returns (Return {| ctrl.Requeue := false;
                          ctrl.RequeueAfter := 15 * time.Second |} None))
| turn_not_created c err err' :
    errors.IsNotFound err = true ->
    turn req k8ssandra cassandra i template seeds
      [ EvGetClient (ctrl.NamespacedName req)
          (api.K8sContextsSecret (api.Spec k8ssandra)) (api.K8sContext template)
          (Ok (Some c));
        EvGet c (keyOf (desiredDatacenter req cassandra template seeds)) (Err err);
        EvCreate c (desiredDatacenter req cassandra template seeds) (Some err') ]
      (Returns (Return ctrl.zero (Some err')))
| turn_not_updated c stored err :
    metav1.Annotations (cassdcapi.ObjectMeta stored) !! resourceHashAnnotation
    <> Some (deepHashString
               (newDatacenter (types.Namespace (ctrl.NamespacedName req))
                  (api.Cluster cassandra) template seeds)) ->
    turn req k8ssandra cassandra i template seeds
      [ EvGetClient (ctrl.NamespacedName req)
          (api.K8sContextsSecret (api.Spec k8ssandra)) (api.K8sContext template)
          (Ok (Some c));
        EvGet c (keyOf (desiredDatacenter req cassandra template seeds)) (Ok stored);
        EvUpdate c (desiredDatacenter req cassandra template seeds) (Err err) ]
      (Returns (Return ctrl.zero (Some err)))
| turn_updated c stored actual tr o :
    metav1.Annotations (cassdcapi.ObjectMeta stored) !! resourceHashAnnotation
    <> Some (deepHashString
               (newDatacenter (types.Namespace (ctrl.NamespacedName req))
                  (api.Cluster cassandra) template seeds)) ->
    settled k8ssandra cassandra i seeds c actual tr o ->
    turn req k8ssandra cassandra i template seeds
      ([ EvGetClient (ctrl.NamespacedName req)
           (api.K8sContextsSecret (api.Spec k8ssandra)) (api.K8sContext template)
           (Ok (Some c));
         EvGet c (keyOf (desiredDatacenter req cassandra template seeds)) (Ok stored);
         EvUpdate c (desiredDatacenter req cassandra template seeds) (Ok actual) ]
       ++ tr) o
| turn_current c actual tr o :
    metav1.Annotations (cassdcapi.ObjectMeta actual) !! resourceHashAnnotation
    = Some (deepHashString
              (newDatacenter (types.Namespace (ctrl.NamespacedName req))
                 (api.Cluster cassandra) template seeds)) ->
    settled k8ssandra cassandra i seeds c actual tr o ->
    turn req k8ssandra cassandra i template seeds
      ([ EvGetClient (ctrl.NamespacedName req)
           (api.K8sContextsSecret (api.Spec k8ssandra)) (api.K8sContext template)
           (Ok (Some c));
         EvGet c (keyOf (desiredDatacenter req cassandra template seeds)) (Ok actual) ]
       ++ tr) o.

(** The traces of the loop from position [i] on. *)
Inductive turns (req : ctrl.Request) (k8ssandra : api.K8ssandraCluster)
  (cassandra : api.CassandraClusterTemplateSpec)
  : nat -> slice.t -> list api.CassandraDatacenterTemplateSpec
    -> list (Event Client) -> outcome flow -> Prop :=
| turns_end i seeds :
    turns req k8ssandra cassandra i seeds [] [] (Returns (Next seeds))
| turns_next i seeds template templates tr seeds' tr' o :
    turn req k8ssandra cassandra i template seeds tr (Returns (Next seeds')) ->
    turns req k8ssandra cassandra (S i) seeds' templates tr' o ->
    turns req k8ssandra cassandra i seeds (template :: templates) (tr ++ tr') o
| turns_return i seeds template templates tr res err :
    turn req k8ssandra cassandra i template seeds tr (Returns (Return res err)) ->
    turns req k8ssandra cassandra i seeds (template :: templates) tr
      (Returns (Return res err))
| turns_panic i seeds template templates tr msg :
    turn req k8ssandra cassandra i template seeds tr (Panics msg) ->
    turns req k8ssandra cassandra i seeds (template :: templates) tr (Panics msg).

(** What [Reconcile] returns when the loop ended with [o]. *)
Definition afterLoop (o : outcome flow)
  : outcome (ctrl.Result * option errors.error) :=
  match o with
  | Returns (Next _) => Returns (ctrl.zero, None)
  | Returns (Return res err) => Returns (res, err)
  | Panics msg => Panics msg
  end.

(** The traces of a pass. *)
Inductive pass (req : ctrl.Request)
  : list (Event Client) -> outcome (ctrl.Result * option errors.error) -> Prop :=
| pass_gone err :
    errors.IsNotFound err = true ->
    pass req [EvReconcilerGet (ctrl.NamespacedName req) (Err err)]
      (Returns (ctrl.zero, None))
| pass_unread err :
    errors.IsNotFound err = false ->
    pass req [EvReconcilerGet (ctrl.NamespacedName req) (Err err)]
      (Returns ({| ctrl.Requeue := false;
                   ctrl.RequeueAfter := 10 * time.Second |}, Some err))
| pass_no_cassandra k8ssandra :
    api.Cassandra (api.Spec k8ssandra) = None ->
    pass req [EvReconcilerGet (ctrl.NamespacedName req) (Ok k8ssandra)]
      (Returns (ctrl.zero, None))
| pass_datacenters k8ssandra cassandra tr o :
    api.Cassandra (api.Spec k8ssandra) = Some cassandra ->
    turns req k8ssandra cassandra 0 None (api.Datacenters cassandra) tr o ->
    pass req (EvReconcilerGet (ctrl.NamespacedName req) (Ok k8ssandra) :: tr)
      (afterLoop o).

(** The pass started in [w0] reaches the position after the templates [done]:
    the cluster resource is fetched, it has a Cassandra specification, and
    the turns for [done] all go on.  [seeds] are the seeds collected, [w] is
    the world then, and [tr] the calls made so far. *)
Inductive reaches (req : ctrl.Request) (w0 : W) (k8ssandra : api.K8ssandraCluster)
  (cassandra : api.CassandraClusterTemplateSpec)
  (done : list api.CassandraDatacenterTemplateSpec) (seeds : slice.t)
  (w : W) (tr : list (Event Client)) : Prop :=
| reaches_intro (w1 : W) (tr1 : list (Event Client)) :
    reconciler_Get (ctrl.NamespacedName req) w0 = (Ok k8ssandra, w1) ->
    api.Cassandra (api.Spec k8ssandra) = Some cassandra ->
    reconcileDatacenters req k8ssandra cassandra 0 None done w1
    = (Returns (Next seeds), w, tr1) ->
    tr = EvReconcilerGet (ctrl.NamespacedName req) (Ok k8ssandra) :: tr1 ->
    reaches req w0 k8ssandra cassandra done seeds w tr.

(** The run of [Reconcile] once the loop has run. *)
Definition returning (r : outcome flow * W * list (Event Client))
  : outcome (ctrl.Result * option errors.error) * W * list (Event Client) :=
  match r with
  | (o, w, tr) => (afterLoop o, w, tr)
  end.

(** An absent datacenter is created: its client resolves, the fetch answers
    that there is no such datacenter, and the creation succeeds. *)
Inductive created (req : ctrl.Request) (k8ssandra : api.K8ssandraCluster)
  (cassandra : api.CassandraClusterTemplateSpec)
  (template : api.CassandraDatacenterTemplateSpec) (seeds : slice.t)
  (w : W) (c : Client) (w' : W) (tr : list (Event Client)) : Prop :=
| created_intro (w1 : W) (err : errors.error) (w2 : W) :
    ClientCache_GetClient (ctrl.NamespacedName req)
      (api.K8sContextsSecret (api.Spec k8ssandra)) (api.K8sContext template) w
    = (Ok (Some c), w1) ->
    client_Get c (keyOf (desiredDatacenter req cassandra template seeds)) w1
    = (Err err, w2) ->
    errors.IsNotFound err = true ->
    client_Create c (desiredDatacenter req cassandra template seeds) w2
    = (None, w') ->
    tr = [ EvGetClient (ctrl.NamespacedName req)
             (api.K8sContextsSecret (api.Spec k8ssandra))
             (api.K8sContext template) (Ok (Some c));
           EvGet c (keyOf (desiredDatacenter req cassandra template seeds))
             (Err err);
           EvCreate c (desiredDatacenter req cassandra template seeds) None ] ->
    created req k8ssandra cassandra template seeds w c w' tr.

(** The discoveries of a trace, in order: for each [List] call that came
    back with pods, the endpoints that [resolveSeedEndpoints] keeps. *)
Fixpoint discoveries (tr : list (Event Client)) : list (list string) :=
  match tr with
  | [] => []
  | EvList _ _ (Ok items) :: tr' => collectEndpoints items [] :: discoveries tr'
  | _ :: tr' => discoveries tr'
  end.

(** A patch that the API server refused. *)
Definition rejectedPatch (ev : Event Client) : bool :=
  match ev with
  | EvPatch _ _ _ (Some _) => true
  | _ => false
  end.

(** In a trace [tr] that ends with [o]: a refused patch is the last call,
    [o] carries its error, and the patch was bound to the resource version
    of the datacenter fetched by the call just before it. *)
Definition rejection_ends {A : Type} (tr : list (Event Client)) (o : outcome A)
  (carry : errors.error -> outcome A) : Prop :=
  forall before c obj patch err after,
    tr = before ++ EvPatch c obj patch (Some err) :: after ->
    after = []
    /\ o = carry err
    /\ client.OptimisticLock patch = true
    /\ cassdcapi.ObjectMeta obj = cassdcapi.ObjectMeta (client.from patch)
    /\ exists before' key,
         before = before' ++ [EvGet c key (Ok (client.from patch))].

End traces.

(** ** Calls and worlds

    The traces above leave the worlds out.  The relations below tie the
    calls of seed propagation, and of the turns a pass has completed, to the
    answers of the client cache and of the remote clusters, and to the
    worlds those calls leave. *)

Section worlds.
Context {P : Payloads} {X : External} {W Client : Type} {R : Remote W Client}.

Definition isList (ev : Event Client) : bool :=
  match ev with EvList _ _ _ => true | _ => false end.

(** Seed propagation over a list of templates, from world [w]: for each
    template, in order, the client cache resolves its context, the remote
    cluster answers the fetch under its key, and the remote cluster answers
    the patch of the fetched datacenter with [seeds] appended; every call
    starts in the world the call before it left.  It ends with [o] in the
    last of these worlds, at the end of the list or at the first call that
    fails. *)
Inductive delivered (k8ssandra : api.K8ssandraCluster) (seeds : slice.t)
  : list api.CassandraDatacenterTemplateSpec -> W -> list (Event Client)
    -> outcome (option errors.error) -> W -> Prop :=
| delivered_all w :
    delivered k8ssandra seeds [] w [] (Returns None) w
| delivered_one template templates w c w1 dc w2 w3 tr o w' :
    ClientCache_GetClient (k8ssandraKeyOf k8ssandra)
      (api.K8sContextsSecret (api.Spec k8ssandra)) (api.K8sContext template) w
    = (Ok (Some c), w1) ->
    client_Get c (getDatacenterKey template (k8ssandraKeyOf k8ssandra)) w1
    = (Ok dc, w2) ->
    client_Patch c (seeded dc seeds) (client.MergeFromWithOptions dc true) w2
    = (None, w3) ->
    delivered k8ssandra seeds templates w3 tr o w' ->
    delivered k8ssandra seeds (template :: templates) w
      (propagationCalls k8ssandra seeds template c dc None ++ tr) o w'
| delivered_rejected template templates w c w1 dc w2 err w3 :
    ClientCache_GetClient (k8ssandraKeyOf k8ssandra)
      (api.K8sContextsSecret (api.Spec k8ssandra)) (api.K8sContext template) w
    = (Ok (Some c), w1) ->
    client_Get c (getDatacenterKey template (k8ssandraKeyOf k8ssandra)) w1
    = (Ok dc, w2) ->
    client_Patch c (seeded dc seeds) (client.MergeFromWithOptions dc true) w2
    = (Some err, w3) ->
    delivered k8ssandra seeds (template :: templates) w
      (propagationCalls k8ssandra seeds template c dc (Some err))
      (Returns (Some err)) w3
| delivered_not_fetched template templates w c w1 err w2 :
    ClientCache_GetClient (k8ssandraKeyOf k8ssandra)
      (api.K8sContextsSecret (api.Spec k8ssandra)) (api.K8sContext template) w
    = (Ok (Some c), w1) ->
    client_Get c (getDatacenterKey template (k8ssandraKeyOf k8ssandra)) w1
    = (Err err, w2) ->
    delivered k8ssandra seeds (template :: templates) w
      [ EvGetClient (k8ssandraKeyOf k8ssandra)
          (api.K8sContextsSecret (api.Spec k8ssandra)) (api.K8sContext template)
          (Ok (Some c));
        EvGet c (getDatacenterKey template (k8ssandraKeyOf k8ssandra)) (Err err) ]
      (Returns (Some err)) w2
| delivered_no_client template templates w err w1 :
    ClientCache_GetClient (k8ssandraKeyOf k8ssandra)
      (api.K8sContextsSecret (api.Spec k8ssandra)) (api.K8sContext template) w
    = (Err err, w1) ->
    delivered k8ssandra seeds (template :: templates) w
      [ EvGetClient (k8ssandraKeyOf k8ssandra)
          (api.K8sContextsSecret (api.Spec k8ssandra)) (api.K8sContext template)
          (Err err) ]
      (Returns (Some err)) w1
| delivered_nil_client template templates w w1 msg :
    ClientCache_GetClient (k8ssandraKeyOf k8ssandra)
      (api.K8sContextsSecret (api.Spec k8ssandra)) (api.K8sContext template) w
    = (Ok None, w1) ->
    delivered k8ssandra seeds (template :: templates) w
      [ EvGetClient (k8ssandraKeyOf k8ssandra)
          (api.K8sContextsSecret (api.Spec k8ssandra)) (api.K8sContext template)
          (Ok None) ]
      (Panics msg) w1.

(** The turns of the loop that went on, for the templates from position [i]
    on and from world [w].  In the turn of a template its datacenter is
    found, through the client resolved for the context of the template and
    under the key of its desired datacenter; it is ready; the remote cluster
    answers the [List] call, made through that same client for the pods that
    carry the name of that datacenter, with [items]; and the seeds, with the
    endpoints of [items] appended, are delivered to the templates before the
    position.  The next turn starts with those seeds in the world that
    propagation left.  [seeds'] are the seeds after the last turn, [w'] the
    world, and the trace holds the calls of all these turns, in order. *)
Inductive gathered (req : ctrl.Request) (k8ssandra : api.K8ssandraCluster)
  (cassandra : api.CassandraClusterTemplateSpec)
  : nat -> slice.t -> list api.CassandraDatacenterTemplateSpec -> W
    -> list (Event Client) -> slice.t -> W -> Prop :=
| gathered_none i seeds w :
    gathered req k8ssandra cassandra i seeds [] w [] seeds w
| gathered_next i seeds template templates w c actual w1 tr1 items w2 tr3 w3
    tr' seeds' w' :
    found req k8ssandra cassandra template seeds w c actual w1 tr1 ->
    DatacenterReady actual = true ->
    client_List c (seedSelector actual) w1 = (Ok items, w2) ->
    delivered k8ssandra (slice.append seeds (Some (collectEndpoints items [])))
      (take i (api.Datacenters cassandra)) w2 tr3 (Returns None) w3 ->
    gathered req k8ssandra cassandra (S i)
      (slice.append seeds (Some (collectEndpoints items []))) templates w3 tr'
      seeds' w' ->
    gathered req k8ssandra cassandra i seeds (template :: templates) w
      (tr1 ++ EvList c (seedSelector actual) (Ok items) :: tr3 ++ tr') seeds' w'.

(** One discovery: the client, the datacenter whose name is the selector,
    and the pods that the [List] call answered. *)
Definition Discovery : Type :=
  (Client * cassdcapi.CassandraDatacenter * list corev1.Pod)%type.

(** The [List] call of a discovery. *)
Definition listCall (d : Discovery) : Event Client :=
  EvList (fst (fst d)) (seedSelector (snd (fst d))) (Ok (snd d)).

(** [d] is the discovery for [template]: at some point of the pass the
    datacenter of [template] was found, through the client resolved for the
    context of [template] and under the key of its desired datacenter; it
    was ready; and the [List] call made next, through that client and for
    the name of that datacenter, was answered with the pods of [d]. *)
Definition discoveredFor (req : ctrl.Request) (k8ssandra : api.K8ssandraCluster)
  (cassandra : api.CassandraClusterTemplateSpec)
  (template : api.CassandraDatacenterTemplateSpec) (d : Discovery) : Prop :=
  exists (seeds : slice.t) (w w1 : W) (tr1 : list (Event Client)) (w2 : W),
    found req k8ssandra cassandra template seeds w (fst (fst d)) (snd (fst d)) w1 tr1
    /\ DatacenterReady (snd (fst d)) = true
    /\ client_List (fst (fst d)) (seedSelector (snd (fst d))) w1 = (Ok (snd d), w2).

End worlds.

(** * Edges

    What the statements on errors, bounds and edge cases need. *)

Section edges.
Context {P : Payloads} {Client : Type}.

(** A call after which a pass makes no other: a call that failed, a client
    that came back nil, or the creation of a datacenter.  A fetch that
    answers that there is no such datacenter is not one: the creation
    follows it. *)
Definition endsPass (ev : Event Client) : bool :=
  match ev with
  | EvReconcilerGet _ (Err _) => true
  | EvGetClient _ _ _ (Err _) => true
  | EvGetClient _ _ _ (Ok None) => true
  | EvGet _ _ (Err err) => negb (errors.IsNotFound err)
  | EvCreate _ _ _ => true
  | EvUpdate _ _ (Err _) => true
  | EvList _ _ (Err _) => true
  | EvPatch _ _ _ (Some _) => true
  | _ => false
  end.

(** The error of a failed call to the client cache or to a remote cluster. *)
Definition failure (ev : Event Client) : option errors.error :=
  match ev with
  | EvGetClient _ _ _ (Err err) => Some err
  | EvGet _ _ (Err err) => if errors.IsNotFound err then None else Some err
  | EvCreate _ _ (Some err) => Some err
  | EvUpdate _ _ (Err err) => Some err
  | EvList _ _ (Err err) => Some err
  | EvPatch _ _ _ (Some err) => Some err
  | _ => None
  end.

(** A fetch of a datacenter that the remote cluster does not have. *)
Definition notFoundGet (ev : Event Client) : bool :=
  match ev with
  | EvGet _ _ (Err err) => errors.IsNotFound err
  | _ => false
  end.

(** The [Patch] and the [Create] calls of a trace. *)
Definition patches (tr : list (Event Client)) : list (Event Client) :=
  List.filter (fun ev => match ev with EvPatch _ _ _ _ => true | _ => false end) tr.

Definition creates (tr : list (Event Client)) : list (Event Client) :=
  List.filter (fun ev => match ev with EvCreate _ _ _ => true | _ => false end) tr.

(** The client the cache handed out last, after the calls of [tr]. *)
Fixpoint latest (cur : option Client) (tr : list (Event Client)) : option Client :=
  match tr with
  | [] => cur
  | EvGetClient _ _ _ (Ok (Some c)) :: tr' => latest (Some c) tr'
  | _ :: tr' => latest cur tr'
  end.

(** Every call to a remote cluster goes through the client that the cache
    handed out last; [cur] is that client before the calls of [tr]. *)
Fixpoint usesLatest (cur : option Client) (tr : list (Event Client)) : Prop :=
  match tr with
  | [] => True
  | ev :: tr' =>
      match ev with
      | EvGetClient _ _ _ (Ok (Some c)) => usesLatest (Some c) tr'
      | EvGet c _ _ | EvCreate c _ _ | EvUpdate c _ _ | EvList c _ _
      | EvPatch c _ _ _ => cur = Some c /\ usesLatest cur tr'
      | _ => usesLatest cur tr'
      end
  end.

(** [ctrl.Result{RequeueAfter: d}] *)
Definition requeueAfter (d : time.Duration) : ctrl.Result :=
  {| ctrl.Requeue := false; ctrl.RequeueAfter := d |}.

(** In a trace [tr] that ends with [o]: a call that ends a pass is the last
    one, [o] does not go on, [o] carries the error of a failed call, after a
    creation that succeeded [o] is [created], and after a nil client [o] is
    [refused] or a panic. *)
Definition stops {A : Type} (tr : list (Event Client)) (o : outcome A)
  (goes_on : outcome A -> Prop) (carry : errors.error -> outcome A)
  (created refused : outcome A) : Prop :=
  forall before ev after,
    tr = before ++ ev :: after ->
    endsPass ev = true ->
    after = []
    /\ ~ goes_on o
    /\ (forall err, failure ev = Some err -> o = carry err)
    /\ (forall c obj, ev = EvCreate c obj None -> o = created)
    /\ (forall key secret k8sContext,
          ev = EvGetClient key secret k8sContext (Ok None) ->
          o = refused \/ exists msg, o = Panics msg).

(** A slice that is nil or has an element. *)
Definition nilOrFilled (s : slice.t) : Prop := s = None \/ slice.elems s <> [].

(** The calls of [tr] where every patch sends the additional seeds of the
    fetched datacenter followed by [s] and by what [tr] discovered before
    the patch. *)
Fixpoint appendsDiscovered (s : list string) (tr : list (Event Client)) : Prop :=
  match tr with
  | [] => True
  | ev :: tr' =>
      match ev with
      | EvList _ _ (Ok items) => appendsDiscovered (s ++ collectEndpoints items []) tr'
      | EvPatch _ obj patch _ =>
          (slice.elems (cassdcapi.AdditionalSeeds (cassdcapi.Spec obj))
           = slice.elems (cassdcapi.AdditionalSeeds
                            (cassdcapi.Spec (client.from patch))) ++ s
           /\ slice.isNil (cassdcapi.AdditionalSeeds (cassdcapi.Spec obj)) = false)
          /\ appendsDiscovered s tr'
      | _ => appendsDiscovered s tr'
      end
  end.

(** The client of a call to a remote cluster. *)
Definition clientOf (ev : Event Client) : option Client :=
  match ev with
  | EvGet c _ _ | EvCreate c _ _ | EvUpdate c _ _ | EvList c _ _
  | EvPatch c _ _ _ => Some c
  | _ => None
  end.

(** What must come just before a write: the fetch of the object written,
    through the same client.  A creation follows a fetch that found
    nothing, an update one that found the object, and a patch is computed
    against the object fetched, keeps its metadata, and is bound to its
    resource version. *)
Definition fetchedFirst (prev : option (Event Client)) (ev : Event Client) : Prop :=
  match ev with
  | EvCreate c obj _ =>
      exists err, prev = Some (EvGet c (keyOf obj) (Err err))
                  /\ errors.IsNotFound err = true
  | EvUpdate c obj _ =>
      exists stored, prev = Some (EvGet c (keyOf obj) (Ok stored))
  | EvPatch c obj patch _ =>
      exists key, prev = Some (EvGet c key (Ok (client.from patch)))
                  /\ cassdcapi.ObjectMeta obj = cassdcapi.ObjectMeta (client.from patch)
                  /\ client.OptimisticLock patch = true
  | _ => True
  end.

(** Every write of [tr] comes just after the fetch of its object; [prev] is
    the call made before those of [tr]. *)
Fixpoint guarded (prev : option (Event Client)) (tr : list (Event Client)) : Prop :=
  match tr with
  | [] => True
  | ev :: tr' => fetchedFirst prev ev /\ guarded (Some ev) tr'
  end.

(** In a trace [tr] that ends with [o]: after a fetch that found nothing,
    [o] does not go on, and either the creation of the object under that key
    follows, through the same client, as the last call, or the fetch is the
    last call and [o] carries its error. *)
Definition absent_ends {A : Type} (tr : list (Event Client)) (o : outcome A)
  (goes_on : outcome A -> Prop) (carry : errors.error -> outcome A) : Prop :=
  forall before ev after,
    tr = before ++ ev :: after ->
    notFoundGet ev = true ->
    ~ goes_on o
    /\ ((exists c obj r, after = [EvCreate c obj r]
                         /\ exists err, ev = EvGet c (keyOf obj) (Err err))
        \/ (after = [] /\ forall c key err, ev = EvGet c key (Err err) -> o = carry err)).

(** The fetch of the cluster resource. *)
Definition isReconcilerGet (ev : Event Client) : bool :=
  match ev with EvReconcilerGet _ _ => true | _ => false end.

End edges.

(** ** A small API server, for running passes

    One store of datacenters for all the contexts, keyed by context,
    namespace and name; resource versions come from one counter, as in etcd.
    A write that names a resource version is refused when the stored version
    is another one, and so is an update that names none.  [racing] lists the
    resources that another writer changes right after each read of them. *)
Module fake.

#[export] Instance payloads : Payloads := {|
  ResourceRequirements := string;
  RawConfig := string;
  RackList := list string;
  StorageConfigT := string;
  DatacenterStatus := bool;
  zeroStatus := false
|}.

Definition showSeeds (s : slice.t) : string :=
  match s with
  | None => "nil"
  | Some l => String.concat "," l
  end.

(** Stands for the printed form that [hash.DeepHashObject] hashes: the
    metadata and the fields of the spec, one after the other. *)
Definition printObject (dc : cassdcapi.CassandraDatacenter) : string :=
  let m := cassdcapi.ObjectMeta dc in
  let s := cassdcapi.Spec dc in
  String.concat ";"
    [ metav1.Namespace m; metav1.Name m; metav1.ResourceVersion m;
      String.concat "," (map (fun kv => (fst kv ++ "=" ++ snd kv)%string)
                           (map_to_list (metav1.Annotations m)));
      cassdcapi.ClusterName s; pretty (cassdcapi.Size s);
      cassdcapi.ServerType s; cassdcapi.ServerVersion s;
      cassdcapi.Resources s; cassdcapi.Config s;
      String.concat "," (cassdcapi.Racks s); cassdcapi.StorageConfig s;
      showSeeds (cassdcapi.AdditionalSeeds s);
      match cassdcapi.Networking s with
      | Some n => if cassdcapi.HostNetwork n then "host" else "pod"
      | None => "nil"
      end ].

#[export] Instance external : External := {|
  DatacenterLabel := "cassandra.datastax.com/datacenter";
  DatacenterReady := fun dc => cassdcapi.Status dc;
  DeepHashObject := fun dc => bytes.ofString (printObject dc)
|}.

(** The key of the store: context, namespace and name. *)
Definition Key : Type := string.

Definition mkKey (c namespace name : string) : Key :=
  (c ++ "/" ++ namespace ++ "/" ++ name)%string.

Record World : Type := {
  cluster : option api.K8ssandraCluster;
  contexts : list string;
  store : gmap Key cassdcapi.CassandraDatacenter;
  pods : list (string * corev1.Pod);
  revision : nat;
  racing : list Key
}.

Definition storeKey (c : string) (dc : cassdcapi.CassandraDatacenter) : Key :=
  mkKey c (metav1.Namespace (cassdcapi.ObjectMeta dc))
    (metav1.Name (cassdcapi.ObjectMeta dc)).

Definition setVersion (dc : cassdcapi.CassandraDatacenter) (rv : string)
  : cassdcapi.CassandraDatacenter :=
  let m := cassdcapi.ObjectMeta dc in
  {| cassdcapi.ObjectMeta :=
       {| metav1.Name := metav1.Name m;
          metav1.Namespace := metav1.Namespace m;
          metav1.UID := metav1.UID m;
          metav1.ResourceVersion := rv;
          metav1.Generation := metav1.Generation m;
          metav1.Labels := metav1.Labels m;
          metav1.Annotations := metav1.Annotations m |};
     cassdcapi.Spec := cassdcapi.Spec dc;
     cassdcapi.Status := cassdcapi.Status dc |}.

Definition setUID (dc : cassdcapi.CassandraDatacenter) (uid : string)
  : cassdcapi.CassandraDatacenter :=
  let m := cassdcapi.ObjectMeta dc in
  {| cassdcapi.ObjectMeta :=
       {| metav1.Name := metav1.Name m;
          metav1.Namespace := metav1.Namespace m;
          metav1.UID := uid;
          metav1.ResourceVersion := metav1.ResourceVersion m;
          metav1.Generation := metav1.Generation m;
          metav1.Labels := metav1.Labels m;
          metav1.Annotations := metav1.Annotations m |};
     cassdcapi.Spec := cassdcapi.Spec dc;
     cassdcapi.Status := cassdcapi.Status dc |}.

Definition setStatus (dc : cassdcapi.CassandraDatacenter) (st : bool)
  : cassdcapi.CassandraDatacenter :=
  {| cassdcapi.ObjectMeta := cassdcapi.ObjectMeta dc;
     cassdcapi.Spec := cassdcapi.Spec dc;
     cassdcapi.Status := st |}.

(** Store [dc] under [k] with the next resource version. *)
Definition put (k : Key) (dc : cassdcapi.CassandraDatacenter) (w : World)
  : cassdcapi.CassandraDatacenter * World :=
  let rv := S (revision w) in
  let dc := setVersion dc (pretty rv) in
  (dc, {| cluster := cluster w; contexts := contexts w;
          store := <[k := dc]> (store w); pods := pods w;
          revision := rv; racing := racing w |}).

Definition notFound : errors.error :=
  errors.StatusError errors.StatusReasonNotFound "not found".
Definition conflict : errors.error :=
  errors.StatusError errors.StatusReasonConflict
    "the object has been modified; please apply your changes to the latest version and try again".
Definition alreadyExists : errors.error :=
  errors.StatusError errors.StatusReasonAlreadyExists "already exists".
Definition invalid : errors.error :=
  errors.StatusError errors.StatusReasonInvalid
    "metadata.resourceVersion: Invalid value: 0x0: must be specified for an update".

Definition Get (c : string) (key : types.NamespacedName) (w : World)
  : result cassdcapi.CassandraDatacenter * World :=
  let k : Key := mkKey c (types.Namespace key) (types.Name key) in
  match store w !! k with
  | None => (Err notFound, w)
  | Some dc =>
      (Ok dc, if bool_decide (k ∈ racing w) then snd (put k dc w) else w)
  end.

Definition Create (c : string) (obj : cassdcapi.CassandraDatacenter) (w : World)
  : option errors.error * World :=
  match store w !! storeKey c obj with
  | Some _ => (Some alreadyExists, w)
  | None =>
      let uid := ("uid-" ++ pretty (S (revision w)))%string in
      (None, snd (put (storeKey c obj) (setUID (setStatus obj false) uid) w))
  end.

(** An update replaces annotations, labels and spec; the UID and the status
    stay.  It must name the stored resource version: the API server does not
    update a custom resource unconditionally. *)
Definition Update (c : string) (obj : cassdcapi.CassandraDatacenter) (w : World)
  : result cassdcapi.CassandraDatacenter * World :=
  match store w !! storeKey c obj with
  | None => (Err notFound, w)
  | Some cur =>
      let rv := metav1.ResourceVersion (cassdcapi.ObjectMeta obj) in
      if bool_decide (rv = ""%string) then (Err invalid, w)
      else if bool_decide (rv = metav1.ResourceVersion (cassdcapi.ObjectMeta cur))
      then
        let new :=
          setUID (setStatus obj (cassdcapi.Status cur))
            (metav1.UID (cassdcapi.ObjectMeta cur)) in
        let (dc, w') := put (storeKey c obj) new w in
        (Ok dc, w')
      else (Err conflict, w)
  end.

Definition selects (labels : gmap string string) (pod : corev1.Pod) : bool :=
  bool_decide (map_Forall (fun k v =>
    metav1.Labels (corev1.ObjectMeta pod) !! k = Some v) labels).

Definition List (c : string) (labels : gmap string string) (w : World)
  : result (list corev1.Pod) * World :=
  (Ok (map snd (filter (fun cp => fst cp = c ∧ selects labels (snd cp) = true)
                  (pods w))), w).

(** A merge patch changes the fields in which [obj] differs from
    [from patch]; the controller's patches differ in the additional seeds. *)
Definition Patch (c : string) (obj : cassdcapi.CassandraDatacenter)
  (patch : client.Patch) (w : World) : option errors.error * World :=
  match store w !! storeKey c obj with
  | None => (Some notFound, w)
  | Some cur =>
      if client.OptimisticLock patch
         && negb (bool_decide
                    (metav1.ResourceVersion (cassdcapi.ObjectMeta (client.from patch))
                     = metav1.ResourceVersion (cassdcapi.ObjectMeta cur)))
      then (Some conflict, w)
      else
        let seeds := cassdcapi.AdditionalSeeds (cassdcapi.Spec obj) in
        let new :=
          if bool_decide (seeds = cassdcapi.AdditionalSeeds
                                    (cassdcapi.Spec (client.from patch)))
          then cur else cassdcapi.setAdditionalSeeds cur seeds in
        (None, snd (put (storeKey c obj) new w))
  end.

#[export] Instance remote : Remote World string := {|
  reconciler_Get := fun key w =>
    match cluster w with
    | Some k =>
        if bool_decide (metav1.Namespace (api.ObjectMeta k) = types.Namespace key
                        ∧ metav1.Name (api.ObjectMeta k) = types.Name key)
        then (Ok k, w) else (Err notFound, w)
    | None => (Err notFound, w)
    end;
  ClientCache_GetClient := fun _ _ k8sContext w =>
    if bool_decide (k8sContext ∈ contexts w) then (Ok (Some k8sContext), w)
    else (Err (errors.Errorf "no client for the context"), w);
  client_Get := Get;
  client_Create := Create;
  client_Update := Update;
  client_List := List;
  client_Patch := Patch
|}.

(** What cass-operator does in its own time: it brings the pods of a
    datacenter up and reports the datacenter ready. *)
Definition pod (dc ip : string) : corev1.Pod :=
  {| corev1.ObjectMeta :=
       {| metav1.Name := ""; metav1.Namespace := ""; metav1.UID := "";
          metav1.ResourceVersion := ""; metav1.Generation := 0;
          metav1.Labels := {[ "cassandra.datastax.com/datacenter" := dc ]};
          metav1.Annotations := ∅ |};
     corev1.Status := {| corev1.PodIP := ip |} |}.

Definition becomeReady (c namespace name : string) (ips : list string) (w : World)
  : World :=
  match store w !! mkKey c namespace name with
  | None => w
  | Some dc =>
      let w' := snd (put (mkKey c namespace name) (setStatus dc true) w) in
      {| cluster := cluster w'; contexts := contexts w'; store := store w';
         pods := pods w' ++ map (fun ip => (c, pod name ip)) ips;
         revision := revision w'; racing := racing w' |}
  end.

Definition setRacing (ks : list Key) (w : World) : World :=
  {| cluster := cluster w; contexts := contexts w; store := store w;
     pods := pods w; revision := revision w; racing := ks |}.

(** A cluster of two datacenters, [dc1] in context [east] and [dc2] in
    context [west]. *)
Definition template (name k8sContext : string) (size : Z)
  : api.CassandraDatacenterTemplateSpec :=
  {| api.Meta := {| api.Namespace := ""; api.Name := name |};
     api.K8sContext := k8sContext;
     api.Size := size;
     api.ServerVersion := "4.0.0";
     api.Resources := "";
     api.Config := "";
     api.Racks := [];
     api.StorageConfig := "" |}.

Definition demo (dcs : list api.CassandraDatacenterTemplateSpec)
  : api.K8ssandraCluster :=
  {| api.ObjectMeta :=
       {| metav1.Name := "demo"; metav1.Namespace := "k8ssandra";
          metav1.UID := "c0"; metav1.ResourceVersion := "1";
          metav1.Generation := 1; metav1.Labels := ∅; metav1.Annotations := ∅ |};
     api.Spec :=
       {| api.K8sContextsSecret := "contexts";
          api.Cassandra := Some {| api.Cluster := "demo"; api.Datacenters := dcs |} |} |}.

Definition req : ctrl.Request :=
  {| ctrl.NamespacedName :=
       {| types.Namespace := "k8ssandra"; types.Name := "demo" |} |}.

Definition empty (k : api.K8ssandraCluster) : World :=
  {| cluster := Some k; contexts := ["east"; "west"]; store := ∅; pods := [];
     revision := 0; racing := [] |}.

Definition setCluster (k : api.K8ssandraCluster) (w : World) : World :=
  {| cluster := Some k; contexts := contexts w; store := store w;
     pods := pods w; revision := revision w; racing := racing w |}.

(** A pass: what it returns, the calls it makes, the world it leaves. *)
Definition returned (w : World) : outcome (ctrl.Result * option errors.error) :=
  fst (fst (Reconcile req w)).
Definition trace (w : World) : list (Event string) := snd (Reconcile req w).
Definition after (w : World) : World := snd (fst (Reconcile req w)).

(** The worlds of a deployment of two datacenters, pass after pass. *)
Definition dc1 : api.CassandraDatacenterTemplateSpec := template "dc1" "east" 3.
Definition dc2 : api.CassandraDatacenterTemplateSpec := template "dc2" "west" 3.
Definition cassandra2 : api.CassandraClusterTemplateSpec :=
  {| api.Cluster := "demo"; api.Datacenters := [dc1; dc2] |}.
Definition key1 : Key := mkKey "east" "k8ssandra" "dc1".

(** Nothing is deployed yet. *)
Definition world0 : World := empty (demo [dc1; dc2]).
(** After the first pass: [dc1] exists and is not ready. *)
Definition world1 : World := Eval vm_compute in after world0.
(** [dc1] is ready, with four pods, one of them without an address yet. *)
Definition world2 : World :=
  Eval vm_compute in
    becomeReady "east" "k8ssandra" "dc1"
      ["10.0.0.1"; "10.0.0.2"; ""; "10.0.0.4"]%string world1.
(** After the next pass: [dc2] exists and is not ready. *)
Definition world3 : World := Eval vm_compute in after world2.
(** Both datacenters are ready. *)
Definition world4 : World :=
  Eval vm_compute in becomeReady "west" "k8ssandra" "dc2" ["10.1.0.1"]%string world3.
(** As [world4], with another writer at work on [dc1]. *)
Definition world5 : World := setRacing [key1] world4.
(** As [world2], after the user has changed the size of [dc1] to 4. *)
Definition world6 : World := setCluster (demo [template "dc1" "east" 4; dc2]) world2.
(** A cluster resource without a Cassandra specification. *)
Definition bare : api.K8ssandraCluster :=
  {| api.ObjectMeta := api.ObjectMeta (demo []);
     api.Spec := {| api.K8sContextsSecret := "contexts"; api.Cassandra := None |} |}.
Definition world7 : World := empty bare.

(** What the passes over these worlds fetch, build and send. *)

Definition k8ssandra2 : api.K8ssandraCluster := demo [dc1; dc2].

(** The calls of a pass before the first turn. *)
Definition fetched (k : api.K8ssandraCluster) : list (Event string) :=
  [EvReconcilerGet (ctrl.NamespacedName req) (Ok k)].

(** The desired datacenter of [dc1], which is built without seeds. *)
Definition desired1 : cassdcapi.CassandraDatacenter :=
  desiredDatacenter req cassandra2 dc1 None.

(** The calls of the turn that creates [dc1]. *)
Definition creation1 : list (Event string) :=
  [ EvGetClient (ctrl.NamespacedName req) "contexts" "east" (Ok (Some "east"%string));
    EvGet "east"%string (keyOf desired1) (Err notFound);
    EvCreate "east"%string desired1 None ].

(** The datacenter stored under a key. *)
Definition stored (k : Key) (w : World) : cassdcapi.CassandraDatacenter :=
  match store w !! k with
  | Some dc => dc
  | None => desired1
  end.

(** The calls of a turn that finds [dc1] with the desired fingerprint. *)
Definition fetch1 (w : World) : list (Event string) :=
  [ EvGetClient (ctrl.NamespacedName req) "contexts" "east" (Ok (Some "east"%string));
    EvGet "east"%string (keyOf desired1) (Ok (stored key1 w)) ].

(** The pods that carry the label of [dc1] in [world2]. *)
Definition pods1 : list corev1.Pod :=
  [ pod "dc1" "10.0.0.1"; pod "dc1" "10.0.0.2"; pod "dc1" ""; pod "dc1" "10.0.0.4" ].

(** The cluster of [world6], where the size of [dc1] is 4. *)
Definition dc1' : api.CassandraDatacenterTemplateSpec := template "dc1" "east" 4.
Definition cassandra6 : api.CassandraClusterTemplateSpec :=
  {| api.Cluster := "demo"; api.Datacenters := [dc1'; dc2] |}.
Definition k8ssandra6 : api.K8ssandraCluster := demo [dc1'; dc2].
Definition desired6 : cassdcapi.CassandraDatacenter :=
  desiredDatacenter req cassandra6 dc1' None.

(** The seeds discovered from [dc1]: its first three pods. *)
Definition seeds1 : slice.t := Some ["10.0.0.1"; "10.0.0.2"; ""]%string.

(** The calls of a turn that finds [dc1] current and ready, and discovers
    its seeds; there is no earlier datacenter to hand them to. *)
Definition turn1 (w : World) : list (Event string) :=
  fetch1 w
  ++ [EvList "east"%string (seedSelector (stored key1 w)) (Ok pods1)].

(** The desired datacenter of [dc2], built with the seeds of [dc1]. *)
Definition desired2 : cassdcapi.CassandraDatacenter :=
  desiredDatacenter req cassandra2 dc2 seeds1.

(** The pod of [dc2] in [world4], and the seeds after its discovery. *)
Definition pods2 : list corev1.Pod := [pod "dc2" "10.1.0.1"].
Definition seeds2 : slice.t :=
  slice.append seeds1 (Some (collectEndpoints pods2 [])).


(** The refused patch of [world5], where another writer changes [dc1]
    between the fetch of seed propagation and its patch. *)
Definition patched5 : cassdcapi.CassandraDatacenter :=
  match last (trace world5) return cassdcapi.CassandraDatacenter with
  | Some ev =>
      match ev with
      | EvPatch _ obj _ _ => obj
      | _ => desired1
      end
  | None => desired1
  end.
Definition patch5 : client.Patch :=
  match last (trace world5) return client.Patch with
  | Some ev =>
      match ev with
      | EvPatch _ _ patch _ => patch
      | _ => client.MergeFromWithOptions desired1 true
      end
  | None => client.MergeFromWithOptions desired1 true
  end.

End fake.

(** ** Two datacenters of one name

    A cluster of three datacenters where the third has the name of the
    first and lives in the same remote cluster, in another namespace. *)

Module twins.
Import fake.

(** A pod of the datacenter [dc] of [namespace]. *)
Definition podIn (namespace dc ip : string) : corev1.Pod :=
  {| corev1.ObjectMeta :=
       {| metav1.Name := ""; metav1.Namespace := namespace; metav1.UID := "";
          metav1.ResourceVersion := ""; metav1.Generation := 0;
          metav1.Labels := {[ "cassandra.datastax.com/datacenter" := dc ]};
          metav1.Annotations := ∅ |};
     corev1.Status := {| corev1.PodIP := ip |} |}.

(** cass-operator brings the pods of a datacenter up, in the namespace of
    the datacenter, and reports it ready. *)
Definition settle (c namespace name : string) (ips : list string) (w : World)
  : World :=
  match store w !! mkKey c namespace name with
  | None => w
  | Some dc =>
      let w' := snd (put (mkKey c namespace name) (setStatus dc true) w) in
      {| cluster := cluster w'; contexts := contexts w'; store := store w';
         pods := pods w' ++ map (fun ip => (c, podIn namespace name ip)) ips;
         revision := revision w'; racing := racing w' |}
  end.

Definition dc3 : api.CassandraDatacenterTemplateSpec :=
  {| api.Meta := {| api.Namespace := "other"; api.Name := "dc1" |};
     api.K8sContext := "east";
     api.Size := 3;
     api.ServerVersion := "4.0.0";
     api.Resources := "";
     api.Config := "";
     api.Racks := [];
     api.StorageConfig := "" |}.

Definition cassandra3 : api.CassandraClusterTemplateSpec :=
  {| api.Cluster := "demo"; api.Datacenters := [dc1; dc2; dc3] |}.
Definition k8ssandra3 : api.K8ssandraCluster := demo [dc1; dc2; dc3].

(** The cluster starts with [dc1] and [dc3]: [dc1] is created and comes up
    with one pod, then [dc3] is created and comes up with one pod.  Then the
    user puts [dc2] between them. *)
Definition world1 : World :=
  Eval vm_compute in
    settle "east" "k8ssandra" "dc1" ["10.0.0.1"]%string (after (empty (demo [dc1; dc3]))).
Definition world2 : World :=
  Eval vm_compute in settle "east" "other" "dc1" ["10.2.0.1"]%string (after world1).
Definition world3 : World := setCluster k8ssandra3 world2.

(** The pods of the datacenter of a template: those of its remote cluster
    that live in its namespace and carry its name. *)
Definition memberOf (template : api.CassandraDatacenterTemplateSpec)
  (cp : string * corev1.Pod) : bool :=
  let key := getDatacenterKey template (ctrl.NamespacedName req) in
  String.eqb (fst cp) (api.K8sContext template)
  && String.eqb (metav1.Namespace (corev1.ObjectMeta (snd cp))) (types.Namespace key)
  && bool_decide (metav1.Labels (corev1.ObjectMeta (snd cp)) !! DatacenterLabel
                  = Some (types.Name key)).

(** The calls of the turn of [dc1] in [world3], and the seeds after it. *)
Definition turn0 : list (Event string) :=
  Eval vm_compute in
    snd (reconcileDatacenter req k8ssandra3 cassandra3 0 dc1 None world3).
Definition seeds0 : slice.t := Some ["10.0.0.1"; "10.2.0.1"]%string.

(** The desired datacenter of [dc2] in [world3], which the pass creates. *)
Definition desired : cassdcapi.CassandraDatacenter :=
  desiredDatacenter req cassandra3 dc2 seeds0.

End twins.

(** ** A client cache that fails

    The API server of [fake], behind a client cache that resolves the first
    [healthy] requests and then hands out a nil client with a nil error. *)

Module flaky.
Import fake.

Definition World : Type := (fake.World * nat)%type.

Definition lift {A : Type} (f : fake.World -> A * fake.World) (w : World)
  : A * World :=
  match f (fst w) with
  | (a, w') => (a, (w', snd w))
  end.

Definition remote : Remote World string := {|
  reconciler_Get := fun key => lift (reconciler_Get key);
  ClientCache_GetClient := fun key secret k8sContext w =>
    match snd w with
    | O => (Ok None, w)
    | S healthy =>
        match ClientCache_GetClient key secret k8sContext (fst w) with
        | (r, w') => (r, (w', healthy))
        end
    end;
  client_Get := fun c key => lift (client_Get c key);
  client_Create := fun c obj => lift (client_Create c obj);
  client_Update := fun c obj => lift (client_Update c obj);
  client_List := fun c labels => lift (client_List c labels);
  client_Patch := fun c obj patch => lift (client_Patch c obj patch)
|}.

(** A pass behind this cache. *)
Definition run (w : World)
  : outcome (ctrl.Result * option errors.error) * World * list (Event string) :=
  Reconcile (R := remote) req w.

(** Both datacenters are ready, and the cache fails at its third request:
    the one of seed propagation. *)
Definition world8 : World := (world4, 2%nat).
(** The cache fails at its first request: the one of the loop for [dc1]. *)
Definition world9 : World := (world4, 0%nat).

End flaky.

(** More of what the passes over the worlds of [fake] fetch and send. *)
Module scenes.
Import fake.

(** A request for a cluster resource that does not exist. *)
Definition gone : ctrl.Request :=
  {| ctrl.NamespacedName :=
       {| types.Namespace := "k8ssandra"; types.Name := "gone" |} |}.

(** The answer of the client cache for the context [east]. *)
Definition east : Event string :=
  EvGetClient (ctrl.NamespacedName req) "contexts" "east" (Ok (Some "east"%string)).

(** The update of [dc1] that [world6] refuses. *)
Definition update6 : Event string := EvUpdate "east"%string desired6 (Err invalid).

(** The patch of [dc1] in [world4]. *)
Definition patch4 : Event string :=
  EvPatch "east"%string (seeded (stored key1 world4) seeds2)
    (client.MergeFromWithOptions (stored key1 world4) true) None.

(** Seed propagation at the turn of [dc2] in [world4]. *)
Definition propagation4
  : outcome (option errors.error) * World * list (Event string) :=
  updateAdditionalSeeds k8ssandra2 seeds2 0 1 world4.

(** After the pass over [world4]: [dc1] has the seeds of both datacenters. *)
Definition world10 : World := Eval vm_compute in after world4.

(** The patch of [dc1] in [world10]. *)
Definition patch10 : Event string :=
  EvPatch "east"%string (seeded (stored key1 world10) seeds2)
    (client.MergeFromWithOptions (stored key1 world10) true) None.

End scenes.


(** * Properties *)

(** ** The digest *)

Lemma be_bytes_length (n : nat) (x : Z) : length (sha256.be_bytes n x) = n.
Proof.
  unfold sha256.be_bytes.
  rewrite length_map, length_rev, length_seq. reflexivity.
Qed.

Lemma Sum256_length (data : list byte) : length (sha256.Sum256 data) = 32%nat.
Proof.
  unfold sha256.Sum256.
  rewrite !length_app, !be_bytes_length. reflexivity.
Qed.

Lemma EncodeToString_length_le (n : nat) :
  forall src : list byte, (length src <= n)%nat ->
    String.length (base64.EncodeToString src)
    = (4 * Nat.div (length src + 2) 3)%nat.
Proof.
  induction n as [n IH] using lt_wf_ind.
  intros [|b0 [|b1 [|b2 src]]] Hlen; try reflexivity.
  cbn [base64.EncodeToString String.length length] in *.
  rewrite (IH (length src)); [|lia|lia].
  replace (S (S (S (length src))) + 2)%nat with (length src + 2 + 1 * 3)%nat by lia.
  rewrite Nat.div_add by lia. lia.
Qed.

Lemma EncodeToString_length (src : list byte) :
  String.length (base64.EncodeToString src) = (4 * Nat.div (length src + 2) 3)%nat.
Proof. apply (EncodeToString_length_le (length src)). lia. Qed.

Example Sum256_empty :
  base64.EncodeToString (sha256.Sum256 [])
  = "47DEQpj8HBSa+/TImW+5JCeuQeRkm5NMpJWZG3hSuFU="%string.
Proof. vm_compute. reflexivity. Qed.

Example Sum256_abc :
  base64.EncodeToString (sha256.Sum256 (bytes.ofString "abc"))
  = "ungWv48Bz+pBQUDeXa4iI7ADYaOWF3qctBD/YfIAFa0="%string.
Proof. vm_compute. reflexivity. Qed.

Example Sum256_two_blocks :
  base64.EncodeToString (sha256.Sum256 (repeat "a"%byte 56))
  = "s1Q5pKxvCUi21vnjxq8PX1kM4g8b3nCQ73lwaG7Gc4o="%string.
Proof. vm_compute. reflexivity. Qed.

Example Sum256_three_blocks :
  base64.EncodeToString (sha256.Sum256 (repeat "a"%byte 120))
  = "Lz0zVDLHC1gK8Ojhs2dKfAINaDql9zqq7f3FWvkEwhw="%string.
Proof. vm_compute. reflexivity. Qed.

Example EncodeToString_padding :
  map base64.EncodeToString
    (map bytes.ofString ["f"; "fo"; "foo"; "foob"; "fooba"; "foobar"])%string
  = ["Zg=="; "Zm8="; "Zm9v"; "Zm9vYg=="; "Zm9vYmE="; "Zm9vYmFy"]%string.
Proof. vm_compute. reflexivity. Qed.

(** ** Slices *)

Lemma elems_append (s xs : slice.t) :
  slice.elems (slice.append s xs) = slice.elems s ++ slice.elems xs.
Proof.
  unfold slice.append. destruct (slice.elems xs) eqn:E; simpl.
  - rewrite app_nil_r. reflexivity.
  - reflexivity.
Qed.

(** ** Seed discovery: the loop *)

Lemma collectEndpoints_spec (items : list corev1.Pod) :
  forall endpoints : list string, (length endpoints <= 2)%nat ->
    collectEndpoints items endpoints
    = endpoints ++ map (fun pod => corev1.PodIP (corev1.Status pod))
                     (take (3 - length endpoints) items).
Proof.
  induction items as [|pod items IH]; intros endpoints Hlen.
  - simpl. rewrite take_nil. simpl. rewrite app_nil_r. reflexivity.
  - cbn [collectEndpoints].
    destruct (2 <? length (endpoints ++ [corev1.PodIP (corev1.Status pod)]))%nat eqn:E.
    + apply Nat.ltb_lt in E. rewrite length_app in E. simpl in E.
      assert (length endpoints = 2%nat) as -> by lia.
      reflexivity.
    + apply Nat.ltb_ge in E. rewrite length_app in E. simpl in E.
      rewrite IH by (rewrite length_app; simpl; lia).
      rewrite length_app. simpl.
      replace (3 - length endpoints)%nat with (S (3 - (length endpoints + 1)))%nat by lia.
      simpl. rewrite <- app_assoc. reflexivity.
Qed.

Lemma collectEndpoints_take (items : list corev1.Pod) :
  collectEndpoints items []
  = map (fun pod => corev1.PodIP (corev1.Status pod)) (take 3 items).
Proof. rewrite collectEndpoints_spec by (simpl; lia). reflexivity. Qed.

(** ** Running the controller *)

Section properties.
Context {P : Payloads} {X : External} {W Client : Type} {R : Remote W Client}.

Implicit Types (w : W) (c : Client) (tr : list (Event Client)).
Implicit Types (dc actual : cassdcapi.CassandraDatacenter).

Lemma hashMatches_true actual (desiredHash : string) :
  hashMatches actual desiredHash = true
  <-> metav1.Annotations (cassdcapi.ObjectMeta actual) !! resourceHashAnnotation
      = Some desiredHash.
Proof.
  unfold hashMatches.
  destruct (metav1.Annotations (cassdcapi.ObjectMeta actual) !! resourceHashAnnotation)
    as [h|] eqn:E; simpl.
  - rewrite String.eqb_eq. split; congruence.
  - split; discriminate.
Qed.

Lemma hashMatches_false actual (desiredHash : string) :
  hashMatches actual desiredHash = false
  <-> metav1.Annotations (cassdcapi.ObjectMeta actual) !! resourceHashAnnotation
      <> Some desiredHash.
Proof.
  rewrite <- hashMatches_true. destruct (hashMatches actual desiredHash); split;
    congruence.
Qed.

Lemma deepHashString_length (obj : cassdcapi.CassandraDatacenter) :
  String.length (deepHashString obj) = 44%nat.
Proof.
  unfold deepHashString. rewrite EncodeToString_length, Sum256_length. reflexivity.
Qed.

Lemma after_calls_nil {A : Type} (r : outcome A * W * list (Event Client)) :
  after_calls [] r = r.
Proof. destruct r as [[o w] tr]. reflexivity. Qed.

Lemma after_calls_app {A : Type} tr1 tr2 (r : outcome A * W * list (Event Client)) :
  after_calls tr1 (after_calls tr2 r) = after_calls (tr1 ++ tr2) r.
Proof. destruct r as [[o w] tr]. simpl. rewrite app_assoc. reflexivity. Qed.

Lemma bind_returns {A B : Type} (m : M A) (f : A -> M B) w (a : A) w1 tr1 :
  m w = (Returns a, w1, tr1) -> bind m f w = after_calls tr1 (f a w1).
Proof. intros H. unfold bind. rewrite H. reflexivity. Qed.

Lemma bind_panics {A B : Type} (m : M A) (f : A -> M B) w (msg : string) w1 tr1 :
  m w = (Panics msg, w1, tr1) -> bind m f w = (Panics msg, w1, tr1).
Proof. intros H. unfold bind. rewrite H. reflexivity. Qed.

(** A turn of the loop that finds its datacenter goes on with [whenFound]. *)
Lemma reconcileDatacenter_found req k8ssandra cassandra (i : nat) template seeds
  w c actual w' tr :
  found req k8ssandra cassandra template seeds w c actual w' tr ->
  reconcileDatacenter req k8ssandra cassandra i template seeds w
  = after_calls tr (whenFound k8ssandra i seeds c actual w').
Proof.
  intros [w1 HC HG HA ->|w1 stored w2 HC HG HA HU ->].
  - unfold reconcileDatacenter.
    erewrite bind_returns by (unfold call_GetClient; rewrite HC; reflexivity).
    cbv beta iota zeta.
    erewrite bind_returns.
    2:{ unfold call_Get.
        change (client_Get c _ w1) with
          (client_Get c (keyOf (desiredDatacenter req cassandra template seeds)) w1).
        rewrite HG. reflexivity. }
    cbv beta iota zeta.
    erewrite bind_returns.
    2:{ unfold updateIfChanged.
        apply hashMatches_true in HA. rewrite HA. reflexivity. }
    rewrite after_calls_nil, after_calls_app. reflexivity.
  - unfold reconcileDatacenter.
    erewrite bind_returns by (unfold call_GetClient; rewrite HC; reflexivity).
    cbv beta iota zeta.
    erewrite bind_returns.
    2:{ unfold call_Get.
        change (client_Get c _ w1) with
          (client_Get c (keyOf (desiredDatacenter req cassandra template seeds)) w1).
        rewrite HG. reflexivity. }
    cbv beta iota zeta.
    erewrite bind_returns.
    2:{ unfold updateIfChanged.
        apply hashMatches_false in HA. rewrite HA. cbn [negb].
        unfold call_Update, cassdcapi.DeepCopyInto, cassdcapi.DeepCopy.
        change (client_Update c _ w2) with
          (client_Update c (desiredDatacenter req cassandra template seeds) w2).
        rewrite HU. reflexivity. }
    rewrite !after_calls_app. reflexivity.
Qed.

(** ** Seed propagation *)

Lemma seeded_seeds dc (seeds : slice.t) :
  slice.elems (cassdcapi.AdditionalSeeds (cassdcapi.Spec (seeded dc seeds)))
  = slice.elems (cassdcapi.AdditionalSeeds (cassdcapi.Spec dc)) ++ slice.elems seeds.
Proof.
  unfold seeded.
  destruct (cassdcapi.AdditionalSeeds (cassdcapi.Spec dc)) as [l|] eqn:E; simpl.
  - rewrite elems_append, E. reflexivity.
  - rewrite elems_append. reflexivity.
Qed.

Lemma seeded_meta dc (seeds : slice.t) :
  cassdcapi.ObjectMeta (seeded dc seeds) = cassdcapi.ObjectMeta dc.
Proof.
  unfold seeded.
  destruct (slice.isNil (cassdcapi.AdditionalSeeds (cassdcapi.Spec dc))); reflexivity.
Qed.

Lemma index_of_nat {A : Type} (l : list A) (i : nat) :
  index l (Z.of_nat i) = l !! i.
Proof.
  unfold index. destruct (Z.of_nat i <? 0) eqn:E.
  - apply Z.ltb_lt in E. lia.
  - rewrite Nat2Z.id. reflexivity.
Qed.

(** Case analysis on the answer of the next call in a run [H]. *)
Ltac next_call H :=
  match type of H with
  | context [ClientCache_GetClient ?k ?s ?x ?w] =>
      destruct (ClientCache_GetClient k s x w) as [[[?c|]|?err] ?w] eqn:?
  | context [client_Get ?c ?k ?w] =>
      destruct (client_Get c k w) as [[?dc|?err] ?w] eqn:?
  | context [client_Create ?c ?o ?w] =>
      destruct (client_Create c o w) as [[?err|] ?w] eqn:?
  | context [client_Update ?c ?o ?w] =>
      destruct (client_Update c o w) as [[?dc|?err] ?w] eqn:?
  | context [client_List ?c ?l ?w] =>
      destruct (client_List c l w) as [[?items|?err] ?w] eqn:?
  | context [client_Patch ?c ?o ?p ?w] =>
      destruct (client_Patch c o p w) as [[?err|] ?w] eqn:?
  end;
  cbv beta iota zeta in H; cbn [app] in H.

Lemma updateAdditionalSeeds_from_propagated k8ssandra cassandra (seeds : slice.t) :
  api.Cassandra (api.Spec k8ssandra) = Some cassandra ->
  forall (n i : nat) w o w' tr,
    (i + n <= length (api.Datacenters cassandra))%nat ->
    updateAdditionalSeeds_from n k8ssandra seeds (Z.of_nat i) w = (o, w', tr) ->
    propagated k8ssandra seeds (take n (drop i (api.Datacenters cassandra))) tr o.
Proof.
  intros HC n. induction n as [|n IH]; intros i w o w' tr Hi Hrun.
  - simpl in Hrun. injection Hrun as <- <- <-. constructor.
  - destruct (api.Datacenters cassandra !! i) as [template|] eqn:Ht.
    2:{ apply lookup_ge_None in Ht. lia. }
    rewrite (drop_S _ _ _ Ht). cbn [take].
    cbn [updateAdditionalSeeds_from] in Hrun.
    unfold getDatacenterForTemplate in Hrun.
    rewrite HC, index_of_nat, Ht in Hrun.
    unfold updateAdditionalSeedsForDatacenter in Hrun.
    unfold bind, call_GetClient, call_Get, call_Patch, ret, panic in Hrun.
    fold (k8ssandraKeyOf k8ssandra) in Hrun.
    replace (Z.of_nat i + 1) with (Z.of_nat (S i)) in Hrun by lia.
    next_call Hrun; [next_call Hrun; [next_call Hrun|]| |].
    + injection Hrun as <- <- <-. apply propagated_rejected.
    + destruct (updateAdditionalSeeds_from n k8ssandra seeds (Z.of_nat (S i)) w2)
        as [[o3 w3] tr3] eqn:Hrec.
      injection Hrun as <- <- <-.
      apply (propagated_one k8ssandra seeds template _ c dc tr3 o3).
      apply (IH (S i) w2 o3 w3 tr3); [lia|exact Hrec].
    + injection Hrun as <- <- <-. apply propagated_not_fetched.
    + injection Hrun as <- <- <-. apply propagated_nil_client.
    + injection Hrun as <- <- <-. apply propagated_no_client.
Qed.

Lemma updateAdditionalSeeds_propagated k8ssandra cassandra (seeds : slice.t)
  (i : nat) w o w' tr :
  api.Cassandra (api.Spec k8ssandra) = Some cassandra ->
  (i <= length (api.Datacenters cassandra))%nat ->
  updateAdditionalSeeds k8ssandra seeds 0 (Z.of_nat i) w = (o, w', tr) ->
  propagated k8ssandra seeds (take i (api.Datacenters cassandra)) tr o.
Proof.
  intros HC Hi Hrun. unfold updateAdditionalSeeds in Hrun.
  replace (Z.to_nat (Z.of_nat i - 0)) with i in Hrun by lia.
  change 0 with (Z.of_nat 0) in Hrun.
  apply (updateAdditionalSeeds_from_propagated _ _ _ HC i 0%nat w o w' tr); auto.
Qed.

(** ** One turn of the loop *)

Lemma whenFound_settled k8ssandra cassandra (i : nat) (seeds : slice.t)
  c actual w o w' tr :
  api.Cassandra (api.Spec k8ssandra) = Some cassandra ->
  (i <= length (api.Datacenters cassandra))%nat ->
  whenFound k8ssandra i seeds c actual w = (o, w', tr) ->
  settled k8ssandra cassandra i seeds c actual tr o.
Proof.
  intros HC Hi Hrun. unfold whenFound in Hrun.
  destruct (DatacenterReady actual) eqn:Hready; cbn [negb] in Hrun.
  - unfold resolveSeedEndpoints in Hrun.
    fold (seedSelector actual) in Hrun.
    unfold bind at 1 2 in Hrun. unfold call_List, ret in Hrun.
    next_call Hrun.
    + unfold bind in Hrun.
      destruct (updateAdditionalSeeds k8ssandra
                  (slice.append seeds (Some (collectEndpoints items []))) 0
                  (Z.of_nat i) w0) as [[[[err|]|msg] w1] tr1] eqn:Hprop;
        injection Hrun as <- <- <-; rewrite ?app_nil_r;
        apply (updateAdditionalSeeds_propagated _ _ _ _ _ _ _ _ HC Hi) in Hprop.
      * apply (settled_propagated _ _ _ _ _ _ items tr1 _ Hready Hprop).
      * apply (settled_propagated _ _ _ _ _ _ items tr1 _ Hready Hprop).
      * apply (settled_propagated _ _ _ _ _ _ items tr1 _ Hready Hprop).
    + injection Hrun as <- <- <-. apply settled_no_pods. exact Hready.
  - injection Hrun as <- <- <-. apply settled_not_ready. exact Hready.
Qed.

Lemma reconcileDatacenter_turn req k8ssandra cassandra (i : nat) template seeds
  w o w' tr :
  api.Cassandra (api.Spec k8ssandra) = Some cassandra ->
  (i <= length (api.Datacenters cassandra))%nat ->
  reconcileDatacenter req k8ssandra cassandra i template seeds w = (o, w', tr) ->
  turn req k8ssandra cassandra i template seeds tr o.
Proof.
  intros HC Hi Hrun.
  destruct (ClientCache_GetClient (ctrl.NamespacedName req)
              (api.K8sContextsSecret (api.Spec k8ssandra))
              (api.K8sContext template) w) as [[[c|]|err] w1] eqn:E1.
  - destruct (client_Get c (keyOf (desiredDatacenter req cassandra template seeds)) w1)
      as [[stored|err] w2] eqn:E2.
    + destruct (hashMatches stored
                  (deepHashString
                     (newDatacenter (types.Namespace (ctrl.NamespacedName req))
                        (api.Cluster cassandra) template seeds))) eqn:Hm.
      * apply hashMatches_true in Hm.
        rewrite (reconcileDatacenter_found req k8ssandra cassandra i template seeds
                   w c stored w2 _ (found_current _ _ _ _ _ _ _ _ _ _ w1 E1 E2 Hm eq_refl))
          in Hrun.
        destruct (whenFound k8ssandra i seeds c stored w2) as [[o3 w3] tr3] eqn:E3.
        injection Hrun as <- <- <-.
        apply turn_current; [exact Hm|].
        apply (whenFound_settled _ _ _ _ _ _ _ _ _ _ HC Hi E3).
      * apply hashMatches_false in Hm.
        destruct (client_Update c (desiredDatacenter req cassandra template seeds) w2)
          as [[actual|err] w3] eqn:E3.
        -- rewrite (reconcileDatacenter_found req k8ssandra cassandra i template seeds
                      w c actual w3 _
                      (found_stale _ _ _ _ _ _ _ _ _ _ w1 stored w2 E1 E2 Hm E3 eq_refl))
             in Hrun.
           destruct (whenFound k8ssandra i seeds c actual w3) as [[o4 w4] tr4] eqn:E4.
           injection Hrun as <- <- <-.
           apply turn_updated; [exact Hm|].
           apply (whenFound_settled _ _ _ _ _ _ _ _ _ _ HC Hi E4).
        -- unfold reconcileDatacenter in Hrun.
           unfold bind, call_GetClient, call_Get, updateIfChanged in Hrun.
           rewrite E1 in Hrun. cbv beta iota zeta in Hrun.
           change (client_Get c _ w1) with
             (client_Get c (keyOf (desiredDatacenter req cassandra template seeds)) w1)
             in Hrun.
           rewrite E2 in Hrun. cbv beta iota zeta in Hrun.
           apply hashMatches_false in Hm. rewrite Hm in Hrun. cbn [negb] in Hrun.
           unfold call_Update, cassdcapi.DeepCopyInto, cassdcapi.DeepCopy in Hrun.
           change (client_Update c _ w2) with
             (client_Update c (desiredDatacenter req cassandra template seeds) w2)
             in Hrun.
           rewrite E3 in Hrun. cbv beta iota zeta in Hrun.
           injection Hrun as <- <- <-.
           apply turn_not_updated. apply hashMatches_false. exact Hm.
    + unfold reconcileDatacenter in Hrun.
      unfold bind, call_GetClient, call_Get in Hrun.
      rewrite E1 in Hrun. cbv beta iota zeta in Hrun.
      change (client_Get c _ w1) with
        (client_Get c (keyOf (desiredDatacenter req cassandra template seeds)) w1)
        in Hrun.
      rewrite E2 in Hrun. cbv beta iota zeta in Hrun.
      destruct (errors.IsNotFound err) eqn:Hnf.
      * unfold call_Create in Hrun.
        change (client_Create c _ w2) with
          (client_Create c (desiredDatacenter req cassandra template seeds) w2)
          in Hrun.
        destruct (client_Create c (desiredDatacenter req cassandra template seeds) w2)
          as [[err'|] w3] eqn:E3; cbv beta iota zeta in Hrun;
          injection Hrun as <- <- <-.
        -- apply turn_not_created. exact Hnf.
        -- apply turn_created. exact Hnf.
      * injection Hrun as <- <- <-. apply turn_not_fetched. exact Hnf.
  - unfold reconcileDatacenter in Hrun.
    unfold bind, call_GetClient in Hrun.
    rewrite E1 in Hrun. cbv beta iota zeta in Hrun.
    injection Hrun as <- <- <-. apply turn_nil_client.
  - unfold reconcileDatacenter in Hrun.
    unfold bind, call_GetClient in Hrun.
    rewrite E1 in Hrun. cbv beta iota zeta in Hrun.
    injection Hrun as <- <- <-. apply turn_no_client.
Qed.

(** ** The loop and the pass *)

Lemma reconcileDatacenters_turns req k8ssandra cassandra :
  api.Cassandra (api.Spec k8ssandra) = Some cassandra ->
  forall templates (i : nat) seeds w o w' tr,
    (i + length templates <= length (api.Datacenters cassandra))%nat ->
    reconcileDatacenters req k8ssandra cassandra i seeds templates w = (o, w', tr) ->
    turns req k8ssandra cassandra i seeds templates tr o.
Proof.
  intros HC templates.
  induction templates as [|template templates IH]; intros i seeds w o w' tr Hi Hrun.
  - simpl in Hrun. injection Hrun as <- <- <-. constructor.
  - cbn [length] in Hi.
    cbn [reconcileDatacenters] in Hrun. unfold bind in Hrun.
    destruct (reconcileDatacenter req k8ssandra cassandra i template seeds w)
      as [[[[seeds'|res err]|msg] w1] tr1] eqn:E1;
      apply reconcileDatacenter_turn with (1 := HC) in E1; try lia.
    + destruct (reconcileDatacenters req k8ssandra cassandra (S i) seeds'
                  templates w1) as [[o2 w2] tr2] eqn:E2.
      injection Hrun as <- <- <-.
      apply (turns_next _ _ _ _ _ _ _ _ _ _ _ E1).
      apply (IH (S i) seeds' w1 o2 w2 tr2); [lia|exact E2].
    + injection Hrun as <- <- <-. rewrite app_nil_r.
      apply turns_return. exact E1.
    + injection Hrun as <- <- <-.
      apply turns_panic. exact E1.
Qed.

Lemma Reconcile_pass req w o w' tr :
  Reconcile req w = (o, w', tr) -> pass req tr o.
Proof.
  intros Hrun. unfold Reconcile in Hrun.
  unfold bind at 1 in Hrun. unfold call_reconciler_Get in Hrun.
  destruct (reconciler_Get (ctrl.NamespacedName req) w) as [[k8ssandra|err] w1] eqn:E1;
    cbv beta iota zeta in Hrun.
  - destruct (api.Cassandra (api.Spec k8ssandra)) as [cassandra|] eqn:HC.
    + unfold bind in Hrun.
      destruct (reconcileDatacenters req k8ssandra cassandra 0 None
                  (api.Datacenters cassandra) w1) as [[o2 w2] tr2] eqn:E2.
      apply (reconcileDatacenters_turns req k8ssandra cassandra HC
               (api.Datacenters cassandra) 0%nat None w1 o2 w2 tr2 (Nat.le_refl _))
        in E2.
      destruct o2 as [[seeds|res err]|msg]; injection Hrun as <- <- <-;
        rewrite ?app_nil_r;
        apply (pass_datacenters req k8ssandra cassandra tr2 _ HC E2).
    + injection Hrun as <- <- <-. apply pass_no_cassandra. exact HC.
  - destruct (errors.IsNotFound err) eqn:Hnf; injection Hrun as <- <- <-.
    + apply pass_gone. exact Hnf.
    + apply pass_unread. exact Hnf.
Qed.

(** The loop over [done ++ templates] is the loop over [done], and then,
    if that one goes on, the loop over [templates]. *)
Lemma reconcileDatacenters_app req k8ssandra cassandra done :
  forall (i : nat) seeds templates w,
    reconcileDatacenters req k8ssandra cassandra i seeds (done ++ templates) w
    = match reconcileDatacenters req k8ssandra cassandra i seeds done w with
      | (Returns (Next seeds'), w1, tr1) =>
          after_calls tr1
            (reconcileDatacenters req k8ssandra cassandra (i + length done) seeds'
               templates w1)
      | r => r
      end.
Proof.
  induction done as [|template done IH]; intros i seeds templates w.
  - simpl. rewrite Nat.add_0_r.
    destruct (reconcileDatacenters req k8ssandra cassandra i seeds templates w)
      as [[o w1] tr1]. reflexivity.
  - cbn [app reconcileDatacenters]. unfold bind.
    destruct (reconcileDatacenter req k8ssandra cassandra i template seeds w)
      as [[[[seeds'|res err]|msg] w1] tr1]; try reflexivity.
    rewrite IH.
    destruct (reconcileDatacenters req k8ssandra cassandra (S i) seeds' done w1)
      as [[[[seeds''|res err]|msg] w2] tr2]; try reflexivity.
    cbn [length]. replace (i + S (length done))%nat with (S i + length done)%nat by lia.
    destruct (reconcileDatacenters req k8ssandra cassandra (S i + length done)
                seeds'' templates w2) as [[o3 w3] tr3].
    simpl. rewrite app_assoc. reflexivity.
Qed.

Lemma Reconcile_reaches req w0 k8ssandra cassandra done templates seeds w tr :
  reaches req w0 k8ssandra cassandra done seeds w tr ->
  api.Datacenters cassandra = done ++ templates ->
  Reconcile req w0
  = after_calls tr
      (returning (reconcileDatacenters req k8ssandra cassandra (length done) seeds
                    templates w)).
Proof.
  intros [w1 tr1 HG HC Hloop ->] Hd.
  unfold Reconcile. unfold bind at 1. unfold call_reconciler_Get.
  rewrite HG. cbv beta iota zeta. rewrite HC. unfold bind.
  rewrite Hd, reconcileDatacenters_app, Hloop. simpl.
  destruct (reconcileDatacenters req k8ssandra cassandra (length done) seeds
              templates w) as [[[[seeds'|res err]|msg] w2] tr2];
    simpl; rewrite ?app_nil_r; reflexivity.
Qed.

(** A pass that reaches a position makes the calls of the turn there. *)
Lemma Reconcile_turn req w0 k8ssandra cassandra done template templates seeds w tr :
  reaches req w0 k8ssandra cassandra done seeds w tr ->
  api.Datacenters cassandra = done ++ template :: templates ->
  exists later,
    snd (Reconcile req w0)
    = tr ++ snd (reconcileDatacenter req k8ssandra cassandra (length done)
                   template seeds w) ++ later.
Proof.
  intros Hr Hd. rewrite (Reconcile_reaches _ _ _ _ _ _ _ _ _ Hr Hd).
  cbn [reconcileDatacenters]. unfold bind.
  destruct (reconcileDatacenter req k8ssandra cassandra (length done) template seeds w)
    as [[[[seeds'|res err]|msg] w1] tr1].
  - destruct (reconcileDatacenters req k8ssandra cassandra (S (length done)) seeds'
                templates w1) as [[o2 w2] tr2].
    exists tr2. reflexivity.
  - exists []. simpl. rewrite !app_nil_r. reflexivity.
  - exists []. simpl. rewrite !app_nil_r. reflexivity.
Qed.

(** A turn that ends the pass. *)
Lemma Reconcile_returns req w0 k8ssandra cassandra done template templates seeds
  w tr res err w' tr' :
  reaches req w0 k8ssandra cassandra done seeds w tr ->
  api.Datacenters cassandra = done ++ template :: templates ->
  reconcileDatacenter req k8ssandra cassandra (length done) template seeds w
  = (Returns (Return res err), w', tr') ->
  Reconcile req w0 = (Returns (res, err), w', tr ++ tr').
Proof.
  intros Hr Hd Hturn. rewrite (Reconcile_reaches _ _ _ _ _ _ _ _ _ Hr Hd).
  cbn [reconcileDatacenters]. unfold bind. rewrite Hturn.
  simpl. rewrite app_nil_r. reflexivity.
Qed.

Lemma reconcileDatacenter_created req k8ssandra cassandra (i : nat) template seeds
  w c w' tr :
  created req k8ssandra cassandra template seeds w c w' tr ->
  reconcileDatacenter req k8ssandra cassandra i template seeds w
  = (Returns (Return {| ctrl.Requeue := false;
                        ctrl.RequeueAfter := 15 * time.Second |} None), w', tr).
Proof.
  intros [w1 err w2 HC HG Hnf HCr ->].
  unfold reconcileDatacenter.
  unfold bind, call_GetClient, call_Get, call_Create.
  rewrite HC. cbv beta iota zeta.
  change (client_Get c _ w1) with
    (client_Get c (keyOf (desiredDatacenter req cassandra template seeds)) w1).
  rewrite HG. cbv beta iota zeta. rewrite Hnf.
  change (client_Create c _ w2) with
    (client_Create c (desiredDatacenter req cassandra template seeds) w2).
  rewrite HCr. reflexivity.
Qed.

(** ** Passes that return early, and seed discovery *)

(** C10.  A cluster resource without a Cassandra specification: the pass
    makes no call but the fetch of the cluster resource on the reconciler's
    own client, so nothing is asked of the client cache or of a remote
    cluster, and it returns [ctrl.Result{}] with a nil error: no revisit
    delay, no requeue, no error. *)
Theorem Reconcile_without_cassandra req w k8ssandra w1 :
  reconciler_Get (ctrl.NamespacedName req) w = (Ok k8ssandra, w1) ->
  api.Cassandra (api.Spec k8ssandra) = None ->
  Reconcile req w
  = (Returns ({| ctrl.Requeue := false; ctrl.RequeueAfter := 0 |}, None), w1,
     [EvReconcilerGet (ctrl.NamespacedName req) (Ok k8ssandra)]).
Proof.
  intros HG HC. unfold Reconcile, bind, call_reconciler_Get.
  rewrite HG. cbv beta iota zeta. rewrite HC. reflexivity.
Qed.

(** C6.  When the pass reaches a datacenter that the remote cluster does not
    have, it creates the desired datacenter there and returns at once, with
    a revisit delay of 15 seconds and a nil error: the creation is the last
    call of the pass.  The created object carries the fingerprint of the
    desired datacenter in its annotation, a base64 string of 44 characters,
    hence not empty; its size and server version are those of the template,
    and host networking is on. *)
Theorem absent_datacenter_is_created req w0 k8ssandra cassandra done template
  templates seeds w tr c w' tr' :
  reaches req w0 k8ssandra cassandra done seeds w tr ->
  api.Datacenters cassandra = done ++ template :: templates ->
  created req k8ssandra cassandra template seeds w c w' tr' ->
  Reconcile req w0
  = (Returns ({| ctrl.Requeue := false;
                 ctrl.RequeueAfter := 15 * time.Second |}, None), w', tr ++ tr')
  /\ 0 < 15 * time.Second
  /\ last tr' = Some (EvCreate c (desiredDatacenter req cassandra template seeds) None)
  /\ (exists digest : string,
        metav1.Annotations
          (cassdcapi.ObjectMeta (desiredDatacenter req cassandra template seeds))
          !! resourceHashAnnotation = Some digest
        /\ String.length digest = 44%nat /\ digest <> ""%string)
  /\ cassdcapi.Size (cassdcapi.Spec (desiredDatacenter req cassandra template seeds))
     = api.Size template
  /\ cassdcapi.ServerVersion
       (cassdcapi.Spec (desiredDatacenter req cassandra template seeds))
     = api.ServerVersion template
  /\ cassdcapi.Networking
       (cassdcapi.Spec (desiredDatacenter req cassandra template seeds))
     = Some {| cassdcapi.HostNetwork := true |}.
Proof.
  intros Hr Hd Hc. split; [|split; [|split; [|split; [|split; [|split]]]]].
  - apply (Reconcile_returns _ _ _ _ _ _ _ _ _ _ _ _ _ _ Hr Hd).
    eapply reconcileDatacenter_created. exact Hc.
  - reflexivity.
  - destruct Hc as [w1 err w2 _ _ _ _ ->]. reflexivity.
  - exists (deepHashString
              (newDatacenter (types.Namespace (ctrl.NamespacedName req))
                 (api.Cluster cassandra) template seeds)).
    split; [|split].
    + unfold desiredDatacenter, cassdcapi.setAnnotation.
      cbn [cassdcapi.ObjectMeta metav1.Annotations].
      apply lookup_insert_eq.
    + apply deepHashString_length.
    + intros Heq.
      pose proof (deepHashString_length
                    (newDatacenter (types.Namespace (ctrl.NamespacedName req))
                       (api.Cluster cassandra) template seeds)) as Hlen.
      rewrite Heq in Hlen. discriminate Hlen.
  - reflexivity.
  - reflexivity.
  - reflexivity.
Qed.

(** C7, as the code has it.  When the pass reaches a datacenter that is
    found and is not ready, it returns at once with a revisit delay and a
    nil error.  That delay is 15 seconds, and so is the delay returned after
    the creation of an absent datacenter: the two delays are equal. *)
Theorem not_ready_delay_equals_create_delay
  req w0 k8ssandra cassandra done template templates seeds w tr c actual w' tr'
  req2 w02 k8ssandra2 cassandra2 done2 template2 templates2 seeds2 w2 tr2 c2 w2' tr2' :
  reaches req w0 k8ssandra cassandra done seeds w tr ->
  api.Datacenters cassandra = done ++ template :: templates ->
  found req k8ssandra cassandra template seeds w c actual w' tr' ->
  DatacenterReady actual = false ->
  reaches req2 w02 k8ssandra2 cassandra2 done2 seeds2 w2 tr2 ->
  api.Datacenters cassandra2 = done2 ++ template2 :: templates2 ->
  created req2 k8ssandra2 cassandra2 template2 seeds2 w2 c2 w2' tr2' ->
  exists notReady afterCreate : ctrl.Result,
    Reconcile req w0 = (Returns (notReady, None), w', tr ++ tr')
    /\ Reconcile req2 w02 = (Returns (afterCreate, None), w2', tr2 ++ tr2')
    /\ 0 < ctrl.RequeueAfter notReady
    /\ ctrl.RequeueAfter notReady = 15 * time.Second
    /\ ctrl.RequeueAfter notReady = ctrl.RequeueAfter afterCreate.
Proof.
  intros Hr Hd Hf Hready Hr2 Hd2 Hc2.
  exists {| ctrl.Requeue := false; ctrl.RequeueAfter := 15 * time.Second |},
         {| ctrl.Requeue := false; ctrl.RequeueAfter := 15 * time.Second |}.
  split; [|split; [|split; [|split]]]; try reflexivity.
  - apply (Reconcile_returns _ _ _ _ _ _ _ _ _ _ _ _ _ _ Hr Hd).
    rewrite (reconcileDatacenter_found _ _ _ _ _ _ _ _ _ _ _ Hf).
    unfold whenFound. rewrite Hready. simpl. rewrite app_nil_r. reflexivity.
  - apply (Reconcile_returns _ _ _ _ _ _ _ _ _ _ _ _ _ _ Hr2 Hd2).
    eapply reconcileDatacenter_created. exact Hc2.
Qed.

(** C8.  Seed discovery lists the pods that carry the datacenter label with
    the name of the datacenter, and makes no other call.  Whatever list of
    pods comes back, the endpoints returned are the addresses of a prefix of
    that list, at most three of them, and exactly three as soon as the list
    has three pods or more. *)
Theorem resolveSeedEndpoints_keeps_first_pods dc c w items w1 :
  client_List c {[ DatacenterLabel := metav1.Name (cassdcapi.ObjectMeta dc) ]} w
  = (Ok items, w1) ->
  exists (endpoints : list string) (kept rest : list corev1.Pod),
    resolveSeedEndpoints dc c w
    = (Returns (Ok (Some endpoints)), w1,
       [EvList c {[ DatacenterLabel := metav1.Name (cassdcapi.ObjectMeta dc) ]}
          (Ok items)])
    /\ items = kept ++ rest
    /\ endpoints = map (fun pod => corev1.PodIP (corev1.Status pod)) kept
    /\ (length endpoints <= 3)%nat
    /\ ((3 <= length items)%nat -> length endpoints = 3%nat)
    /\ ((length items <= 3)%nat -> rest = []).
Proof.
  intros HL.
  exists (map (fun pod => corev1.PodIP (corev1.Status pod)) (take 3 items)),
         (take 3 items), (drop 3 items).
  split; [|split; [|split; [|split; [|split]]]].
  - unfold resolveSeedEndpoints, bind, call_List. rewrite HL.
    cbv beta iota zeta. rewrite collectEndpoints_take. reflexivity.
  - symmetry. apply take_drop.
  - reflexivity.
  - rewrite length_map, length_take. lia.
  - intros H3. rewrite length_map, length_take. lia.
  - intros H3. apply drop_ge. exact H3.
Qed.

(** C9.  Seed discovery returns the reported addresses of the first
    [min 3 n] pods of the list, in the order of the list, whatever they are:
    when one of these pods reports no address, the empty string is one of
    the endpoints. *)
Theorem resolveSeedEndpoints_takes_pod_ips dc c w items w1 :
  client_List c (seedSelector dc) w = (Ok items, w1) ->
  fst (fst (resolveSeedEndpoints dc c w))
  = Returns (Ok (Some (map (fun pod => corev1.PodIP (corev1.Status pod))
                         (take (Nat.min 3 (length items)) items))))
  /\ (forall (n : nat) (pod : corev1.Pod),
        (n < Nat.min 3 (length items))%nat ->
        items !! n = Some pod ->
        corev1.PodIP (corev1.Status pod) = ""%string ->
        collectEndpoints items [] !! n = Some ""%string).
Proof.
  intros HL. split.
  - unfold resolveSeedEndpoints, bind, call_List.
    fold (seedSelector dc). rewrite HL.
    cbv beta iota zeta. rewrite collectEndpoints_take.
    cbn [fst]. repeat f_equal.
    destruct (Nat.le_ge_cases 3 (length items)) as [H3|H3].
    + rewrite Nat.min_l by exact H3. reflexivity.
    + rewrite Nat.min_r by exact H3.
      rewrite (take_ge items 3) by exact H3.
      rewrite firstn_all. reflexivity.
  - intros n pod Hn Hpod Hip.
    rewrite collectEndpoints_take, list_lookup_fmap.
    rewrite lookup_take_lt by lia. rewrite Hpod. simpl. rewrite Hip. reflexivity.
Qed.

(** ** What the calls of a trace wrote and discovered *)

Lemma discoveries_app tr1 tr2 :
  discoveries (tr1 ++ tr2) = discoveries tr1 ++ discoveries tr2.
Proof.
  induction tr1 as [|ev tr1 IH]; [reflexivity|].
  destruct ev as [| | | | |c l [items|err]|]; simpl; rewrite IH; reflexivity.
Qed.

Lemma createsAndUpdates_app tr1 tr2 :
  createsAndUpdates (tr1 ++ tr2) = createsAndUpdates tr1 ++ createsAndUpdates tr2.
Proof. unfold createsAndUpdates. apply List.filter_app. Qed.

Lemma propagated_quiet k8ssandra seeds templates tr o :
  propagated k8ssandra seeds templates tr o ->
  createsAndUpdates tr = [] /\ discoveries tr = [].
Proof.
  induction 1 as [|template templates c dc tr o _ [IH1 IH2]| | | |];
    try (split; reflexivity).
  rewrite createsAndUpdates_app, discoveries_app, IH1, IH2. split; reflexivity.
Qed.

Lemma settled_quiet k8ssandra cassandra (i : nat) seeds c actual tr o :
  settled k8ssandra cassandra i seeds c actual tr o ->
  createsAndUpdates tr = []
  /\ forall seeds', o = Returns (Next seeds') ->
       exists endpoints : list string,
         discoveries tr = [endpoints]
         /\ slice.elems seeds' = slice.elems seeds ++ endpoints.
Proof.
  intros [Hready|err Hready|items tr' o' Hready Hp].
  - split; [reflexivity|]. discriminate.
  - split; [reflexivity|]. discriminate.
  - destruct (propagated_quiet _ _ _ _ _ Hp) as [H1 H2]. split.
    + change (EvList c (seedSelector actual) (Ok items) :: tr')
        with ([EvList c (seedSelector actual) (Ok items)] ++ tr').
      rewrite createsAndUpdates_app, H1. reflexivity.
    + intros seeds' Ho. exists (collectEndpoints items []).
      cbn [discoveries]. rewrite H2. split; [reflexivity|].
      destruct o' as [[err|]|msg]; try discriminate Ho.
      injection Ho as <-. rewrite elems_append. reflexivity.
Qed.

(** A turn after which the loop goes on has made one discovery, and has
    added what it discovered to the seeds. *)
Lemma turn_next_seeds req k8ssandra cassandra (i : nat) template seeds tr seeds' :
  turn req k8ssandra cassandra i template seeds tr (Returns (Next seeds')) ->
  exists endpoints : list string,
    discoveries tr = [endpoints]
    /\ slice.elems seeds' = slice.elems seeds ++ endpoints.
Proof.
  intros H. inversion H as [| | | | | |c stored actual tr' o Hm Hs|c actual tr' o Hm Hs];
    subst.
  - rewrite discoveries_app. simpl.
    apply (proj2 (settled_quiet _ _ _ _ _ _ _ _ Hs)). reflexivity.
  - rewrite discoveries_app. simpl.
    apply (proj2 (settled_quiet _ _ _ _ _ _ _ _ Hs)). reflexivity.
Qed.

Lemma turns_next_seeds req k8ssandra cassandra (i : nat) seeds templates tr seeds' :
  turns req k8ssandra cassandra i seeds templates tr (Returns (Next seeds')) ->
  length (discoveries tr) = length templates
  /\ slice.elems seeds' = slice.elems seeds ++ concat (discoveries tr).
Proof.
  intros H. remember (Returns (Next seeds')) as o eqn:Ho.
  induction H as [i seeds|i seeds template templates tr s1 tr' o Hturn Hturns IH| |];
    try discriminate Ho.
  - injection Ho as ->. simpl. rewrite app_nil_r. split; reflexivity.
  - destruct (IH Ho) as [IH1 IH2].
    destruct (turn_next_seeds _ _ _ _ _ _ _ _ Hturn) as (endpoints & H1 & H2).
    rewrite discoveries_app, H1, IH2, H2. simpl. rewrite IH1.
    split; [reflexivity|]. rewrite app_assoc. reflexivity.
Qed.

(** The objects that a turn creates or updates are the desired datacenter
    of the turn; there is at most one such call. *)
Lemma turn_writes_desired req k8ssandra cassandra (i : nat) template seeds tr o :
  turn req k8ssandra cassandra i template seeds tr o ->
  createsAndUpdates tr = []
  \/ (exists c r, createsAndUpdates tr
                  = [EvCreate c (desiredDatacenter req cassandra template seeds) r])
  \/ (exists c r, createsAndUpdates tr
                  = [EvUpdate c (desiredDatacenter req cassandra template seeds) r]).
Proof.
  intros [err| |c err Hnf|c err Hnf|c err err' Hnf|c stored err Hm
          |c stored actual tr' o' Hm Hs|c actual tr' o' Hm Hs].
  - left. reflexivity.
  - left. reflexivity.
  - left. reflexivity.
  - right. left. eexists _, _. reflexivity.
  - right. left. eexists _, _. reflexivity.
  - right. right. eexists _, _. reflexivity.
  - right. right. eexists _, _.
    rewrite createsAndUpdates_app, (proj1 (settled_quiet _ _ _ _ _ _ _ _ Hs)).
    reflexivity.
  - left. rewrite createsAndUpdates_app, (proj1 (settled_quiet _ _ _ _ _ _ _ _ Hs)).
    reflexivity.
Qed.

Lemma reaches_cassandra req w0 k8ssandra cassandra done seeds w tr :
  reaches req w0 k8ssandra cassandra done seeds w tr ->
  api.Cassandra (api.Spec k8ssandra) = Some cassandra.
Proof. intros [w1 tr1 _ HC _ _]. exact HC. Qed.

(** A turn whose fetch finds a datacenter with another fingerprint. *)
Lemma reconcileDatacenter_stale req k8ssandra cassandra (i : nat) template seeds
  w c w1 stored w2 (r : result cassdcapi.CassandraDatacenter) w3 :
  ClientCache_GetClient (ctrl.NamespacedName req)
    (api.K8sContextsSecret (api.Spec k8ssandra)) (api.K8sContext template) w
  = (Ok (Some c), w1) ->
  client_Get c (keyOf (desiredDatacenter req cassandra template seeds)) w1
  = (Ok stored, w2) ->
  metav1.Annotations (cassdcapi.ObjectMeta stored) !! resourceHashAnnotation
  <> Some (deepHashString
             (newDatacenter (types.Namespace (ctrl.NamespacedName req))
                (api.Cluster cassandra) template seeds)) ->
  client_Update c (desiredDatacenter req cassandra template seeds) w2 = (r, w3) ->
  reconcileDatacenter req k8ssandra cassandra i template seeds w
  = after_calls
      [ EvGetClient (ctrl.NamespacedName req)
          (api.K8sContextsSecret (api.Spec k8ssandra)) (api.K8sContext template)
          (Ok (Some c));
        EvGet c (keyOf (desiredDatacenter req cassandra template seeds)) (Ok stored);
        EvUpdate c (desiredDatacenter req cassandra template seeds) r ]
      (match r with
       | Ok actual => whenFound k8ssandra i seeds c actual w3
       | Err err => (Returns (Return ctrl.zero (Some err)), w3, [])
       end).
Proof.
  intros HC HG Hm HU. destruct r as [actual|err].
  - apply reconcileDatacenter_found.
    apply (found_stale _ _ _ _ _ _ _ _ _ _ w1 stored w2 HC HG Hm HU eq_refl).
  - unfold reconcileDatacenter.
    unfold bind, call_GetClient, call_Get, updateIfChanged.
    rewrite HC. cbv beta iota zeta.
    change (client_Get c _ w1) with
      (client_Get c (keyOf (desiredDatacenter req cassandra template seeds)) w1).
    rewrite HG. cbv beta iota zeta.
    apply hashMatches_false in Hm. rewrite Hm. cbn [negb].
    unfold call_Update, cassdcapi.DeepCopyInto, cassdcapi.DeepCopy.
    change (client_Update c _ w2) with
      (client_Update c (desiredDatacenter req cassandra template seeds) w2).
    rewrite HU. reflexivity.
Qed.

(** C1, as the code has it.  When the pass reaches a datacenter and fetches
    it, the calls it makes for that datacenter create nothing, and update
    something in one case only: the fetched datacenter does not carry the
    fingerprint of the desired datacenter in its annotation.  In that case
    there is one update, of the desired datacenter; when the annotation is
    present and equal there is none.  (Later turns of the same pass may still
    patch the additional seeds of this datacenter.) *)
Theorem update_only_when_fingerprint_differs req w0 k8ssandra cassandra done
  template templates seeds w tr c w1 actual w2 :
  reaches req w0 k8ssandra cassandra done seeds w tr ->
  api.Datacenters cassandra = done ++ template :: templates ->
  ClientCache_GetClient (ctrl.NamespacedName req)
    (api.K8sContextsSecret (api.Spec k8ssandra)) (api.K8sContext template) w
  = (Ok (Some c), w1) ->
  client_Get c (keyOf (desiredDatacenter req cassandra template seeds)) w1
  = (Ok actual, w2) ->
  exists turnCalls later : list (Event Client),
    snd (Reconcile req w0) = tr ++ turnCalls ++ later
    /\ turnCalls
       = snd (reconcileDatacenter req k8ssandra cassandra (length done) template
                seeds w)
    /\ createsAndUpdates turnCalls
       = if decide (metav1.Annotations (cassdcapi.ObjectMeta actual)
                      !! resourceHashAnnotation
                    = Some (deepHashString
                              (newDatacenter
                                 (types.Namespace (ctrl.NamespacedName req))
                                 (api.Cluster cassandra) template seeds)))
         then []
         else [ EvUpdate c (desiredDatacenter req cassandra template seeds)
                  (fst (client_Update c
                          (desiredDatacenter req cassandra template seeds) w2)) ].
Proof.
  intros Hr Hd HC HG.
  destruct (Reconcile_turn _ _ _ _ _ _ _ _ _ _ Hr Hd) as [later Hl].
  exists (snd (reconcileDatacenter req k8ssandra cassandra (length done) template
                 seeds w)), later.
  split; [exact Hl|]. split; [reflexivity|].
  pose proof (reaches_cassandra _ _ _ _ _ _ _ _ Hr) as Hcass.
  assert (length done <= length (api.Datacenters cassandra))%nat as Hi
    by (rewrite Hd, length_app; lia).
  destruct (decide _) as [Hm|Hm].
  - rewrite (reconcileDatacenter_found _ _ _ (length done) _ _ _ _ _ _ _
               (found_current _ _ _ _ _ _ _ _ _ _ w1 HC HG Hm eq_refl)).
    destruct (whenFound k8ssandra (length done) seeds c actual w2)
      as [[o3 w3] tr3] eqn:E3.
    apply (whenFound_settled _ _ _ _ _ _ _ _ _ _ Hcass Hi) in E3.
    cbn [after_calls snd]. rewrite createsAndUpdates_app.
    rewrite (proj1 (settled_quiet _ _ _ _ _ _ _ _ E3)). reflexivity.
  - destruct (client_Update c (desiredDatacenter req cassandra template seeds) w2)
      as [r w3] eqn:HU.
    rewrite (reconcileDatacenter_stale _ _ _ (length done) _ _ _ _ _ _ _ _ _
               HC HG Hm HU).
    destruct r as [actual'|err].
    + destruct (whenFound k8ssandra (length done) seeds c actual' w3)
        as [[o4 w4] tr4] eqn:E4.
      apply (whenFound_settled _ _ _ _ _ _ _ _ _ _ Hcass Hi) in E4.
      cbn [after_calls snd fst]. rewrite createsAndUpdates_app.
      rewrite (proj1 (settled_quiet _ _ _ _ _ _ _ _ E4)). reflexivity.
    + reflexivity.
Qed.

(** C2, what the code does.  When the pass reaches a datacenter whose stored
    fingerprint is not the desired one, its next call is an update, and the
    object of that update is the desired datacenter as [newDatacenter] built
    it, with the fingerprint added: [DeepCopyInto] has replaced the copy of
    the fetched datacenter as a whole.  The spec sent is the desired one, and
    so are the metadata and the status: resource version and UID are empty,
    whatever the fetched datacenter had. *)
Theorem stale_datacenter_update_drops_fetched_metadata req w0 k8ssandra cassandra
  done template templates seeds w tr c w1 stored w2 :
  reaches req w0 k8ssandra cassandra done seeds w tr ->
  api.Datacenters cassandra = done ++ template :: templates ->
  ClientCache_GetClient (ctrl.NamespacedName req)
    (api.K8sContextsSecret (api.Spec k8ssandra)) (api.K8sContext template) w
  = (Ok (Some c), w1) ->
  client_Get c (keyOf (desiredDatacenter req cassandra template seeds)) w1
  = (Ok stored, w2) ->
  metav1.Annotations (cassdcapi.ObjectMeta stored) !! resourceHashAnnotation
  <> Some (deepHashString
             (newDatacenter (types.Namespace (ctrl.NamespacedName req))
                (api.Cluster cassandra) template seeds)) ->
  exists (r : result cassdcapi.CassandraDatacenter) (later : list (Event Client)),
    snd (Reconcile req w0)
    = tr ++ [ EvGetClient (ctrl.NamespacedName req)
                (api.K8sContextsSecret (api.Spec k8ssandra))
                (api.K8sContext template) (Ok (Some c));
              EvGet c (keyOf (desiredDatacenter req cassandra template seeds))
                (Ok stored);
              EvUpdate c (desiredDatacenter req cassandra template seeds) r ]
         ++ later
    /\ cassdcapi.Spec (desiredDatacenter req cassandra template seeds)
       = cassdcapi.Spec (newDatacenter (types.Namespace (ctrl.NamespacedName req))
                           (api.Cluster cassandra) template seeds)
    /\ metav1.ResourceVersion
         (cassdcapi.ObjectMeta (desiredDatacenter req cassandra template seeds))
       = ""%string
    /\ metav1.UID
         (cassdcapi.ObjectMeta (desiredDatacenter req cassandra template seeds))
       = ""%string
    /\ cassdcapi.Status (desiredDatacenter req cassandra template seeds)
       = zeroStatus.
Proof.
  intros Hr Hd HC HG Hm.
  destruct (Reconcile_turn _ _ _ _ _ _ _ _ _ _ Hr Hd) as [later Hl].
  destruct (client_Update c (desiredDatacenter req cassandra template seeds) w2)
    as [r w3] eqn:HU.
  rewrite (reconcileDatacenter_stale _ _ _ (length done) _ _ _ _ _ _ _ _ _
             HC HG Hm HU) in Hl.
  exists r.
  destruct r as [actual|err].
  - destruct (whenFound k8ssandra (length done) seeds c actual w3)
      as [[o4 w4] tr4].
    exists (tr4 ++ later). rewrite Hl. cbn [after_calls snd].
    rewrite <- !app_assoc. repeat split; reflexivity.
  - exists later. rewrite Hl. cbn [after_calls snd].
    rewrite app_nil_r. repeat split; reflexivity.
Qed.

(** ** Calls and worlds *)

Lemma after_calls_inv {A : Type} tr1 (r : outcome A * W * list (Event Client))
  (o : outcome A) w' tr :
  after_calls tr1 r = (o, w', tr) ->
  exists tr2, r = (o, w', tr2) /\ tr = tr1 ++ tr2.
Proof.
  destruct r as [[o2 w2] tr2]. simpl. intros H. injection H as <- <- <-.
  exists tr2. split; reflexivity.
Qed.

Lemma updateAdditionalSeeds_from_delivered k8ssandra cassandra (seeds : slice.t) :
  api.Cassandra (api.Spec k8ssandra) = Some cassandra ->
  forall (n i : nat) w o w' tr,
    (i + n <= length (api.Datacenters cassandra))%nat ->
    updateAdditionalSeeds_from n k8ssandra seeds (Z.of_nat i) w = (o, w', tr) ->
    delivered k8ssandra seeds (take n (drop i (api.Datacenters cassandra))) w tr o w'.
Proof.
  intros HC n. induction n as [|n IH]; intros i w o w' tr Hi Hrun.
  - simpl in Hrun. injection Hrun as <- <- <-. constructor.
  - destruct (api.Datacenters cassandra !! i) as [template|] eqn:Ht.
    2:{ apply lookup_ge_None in Ht. lia. }
    rewrite (drop_S _ _ _ Ht). cbn [take].
    cbn [updateAdditionalSeeds_from] in Hrun.
    unfold getDatacenterForTemplate in Hrun.
    rewrite HC, index_of_nat, Ht in Hrun.
    unfold updateAdditionalSeedsForDatacenter in Hrun.
    unfold bind, call_GetClient, call_Get, call_Patch, ret, panic in Hrun.
    fold (k8ssandraKeyOf k8ssandra) in Hrun.
    replace (Z.of_nat i + 1) with (Z.of_nat (S i)) in Hrun by lia.
    destruct (ClientCache_GetClient (k8ssandraKeyOf k8ssandra)
                (api.K8sContextsSecret (api.Spec k8ssandra))
                (api.K8sContext template) w) as [[[c|]|err] w1] eqn:E1;
      cbv beta iota zeta in Hrun; cbn [app] in Hrun.
    + destruct (client_Get c (getDatacenterKey template (k8ssandraKeyOf k8ssandra)) w1)
        as [[dc|err] w2] eqn:E2; cbv beta iota zeta in Hrun; cbn [app] in Hrun.
      * unfold cassdcapi.DeepCopy in Hrun. fold (seeded dc seeds) in Hrun.
        destruct (client_Patch c (seeded dc seeds)
                    (client.MergeFromWithOptions dc true) w2) as [[err|] w3] eqn:E3;
          cbv beta iota zeta in Hrun; cbn [app] in Hrun.
        -- injection Hrun as <- <- <-.
           exact (delivered_rejected _ _ _ _ _ _ _ _ _ _ _ E1 E2 E3).
        -- destruct (updateAdditionalSeeds_from n k8ssandra seeds (Z.of_nat (S i)) w3)
             as [[o4 w4] tr4] eqn:Hrec.
           injection Hrun as <- <- <-.
           apply (delivered_one _ _ _ _ _ _ _ _ _ _ _ _ _ E1 E2 E3).
           apply (IH (S i) w3 o4 w4 tr4); [lia|exact Hrec].
      * injection Hrun as <- <- <-.
        exact (delivered_not_fetched _ _ _ _ _ _ _ _ _ E1 E2).
    + injection Hrun as <- <- <-. exact (delivered_nil_client _ _ _ _ _ _ _ E1).
    + injection Hrun as <- <- <-. exact (delivered_no_client _ _ _ _ _ _ _ E1).
Qed.

Lemma updateAdditionalSeeds_delivered k8ssandra cassandra (seeds : slice.t)
  (i : nat) w o w' tr :
  api.Cassandra (api.Spec k8ssandra) = Some cassandra ->
  (i <= length (api.Datacenters cassandra))%nat ->
  updateAdditionalSeeds k8ssandra seeds 0 (Z.of_nat i) w = (o, w', tr) ->
  delivered k8ssandra seeds (take i (api.Datacenters cassandra)) w tr o w'.
Proof.
  intros HC Hi Hrun. unfold updateAdditionalSeeds in Hrun.
  replace (Z.to_nat (Z.of_nat i - 0)) with i in Hrun by lia.
  change 0 with (Z.of_nat 0) in Hrun.
  apply (updateAdditionalSeeds_from_delivered _ _ _ HC i 0%nat w o w' tr); auto.
Qed.

(** Propagation with its worlds is propagation. *)
Lemma delivered_propagated k8ssandra seeds templates w tr o w' :
  delivered k8ssandra seeds templates w tr o w' ->
  propagated k8ssandra seeds templates tr o.
Proof.
  induction 1; try (constructor; fail).
  apply propagated_one. assumption.
Qed.

Lemma delivered_no_list k8ssandra seeds templates w tr o w' :
  delivered k8ssandra seeds templates w tr o w' ->
  List.filter isList tr = [].
Proof.
  induction 1 as [| ? ? ? ? ? ? ? ? ? ? ? _ _ _ _ IH| | | |]; try reflexivity.
  rewrite List.filter_app, IH. reflexivity.
Qed.

Lemma found_no_list req k8ssandra cassandra template seeds w c actual w' tr :
  found req k8ssandra cassandra template seeds w c actual w' tr ->
  List.filter isList tr = [] /\ discoveries tr = [].
Proof. intros [w1 _ _ _ ->|w1 stored w2 _ _ _ _ ->]; split; reflexivity. Qed.

(** A turn after which the loop goes on. *)
Lemma whenFound_next k8ssandra cassandra (i : nat) (seeds : slice.t) c actual
  w seeds' w' tr :
  api.Cassandra (api.Spec k8ssandra) = Some cassandra ->
  (i <= length (api.Datacenters cassandra))%nat ->
  whenFound k8ssandra i seeds c actual w = (Returns (Next seeds'), w', tr) ->
  DatacenterReady actual = true
  /\ exists items w2 tr3,
       client_List c (seedSelector actual) w = (Ok items, w2)
       /\ delivered k8ssandra (slice.append seeds (Some (collectEndpoints items [])))
            (take i (api.Datacenters cassandra)) w2 tr3 (Returns None) w'
       /\ seeds' = slice.append seeds (Some (collectEndpoints items []))
       /\ tr = EvList c (seedSelector actual) (Ok items) :: tr3.
Proof.
  intros HC Hi Hrun. unfold whenFound in Hrun.
  destruct (DatacenterReady actual) eqn:Hready; cbn [negb] in Hrun;
    [|discriminate Hrun].
  split; [reflexivity|].
  unfold resolveSeedEndpoints in Hrun. fold (seedSelector actual) in Hrun.
  unfold bind at 1 2 in Hrun. unfold call_List, ret in Hrun.
  destruct (client_List c (seedSelector actual) w) as [[items|err] w2] eqn:EL;
    cbv beta iota zeta in Hrun; cbn [app] in Hrun; [|discriminate Hrun].
  unfold bind in Hrun.
  destruct (updateAdditionalSeeds k8ssandra
              (slice.append seeds (Some (collectEndpoints items []))) 0
              (Z.of_nat i) w2) as [[[[err|]|msg] w3] tr3] eqn:Hprop;
    try discriminate Hrun.
  injection Hrun as <- <- <-. rewrite ?app_nil_r.
  apply (updateAdditionalSeeds_delivered _ _ _ _ _ _ _ _ HC Hi) in Hprop.
  exists items, w2, tr3. split; [reflexivity|]. split; [exact Hprop|].
  split; reflexivity.
Qed.

Lemma reconcileDatacenter_next req k8ssandra cassandra (i : nat) template seeds
  w seeds' w' tr :
  api.Cassandra (api.Spec k8ssandra) = Some cassandra ->
  (i <= length (api.Datacenters cassandra))%nat ->
  reconcileDatacenter req k8ssandra cassandra i template seeds w
  = (Returns (Next seeds'), w', tr) ->
  exists c actual w1 tr1 items w2 tr3,
    found req k8ssandra cassandra template seeds w c actual w1 tr1
    /\ DatacenterReady actual = true
    /\ client_List c (seedSelector actual) w1 = (Ok items, w2)
    /\ delivered k8ssandra (slice.append seeds (Some (collectEndpoints items [])))
         (take i (api.Datacenters cassandra)) w2 tr3 (Returns None) w'
    /\ seeds' = slice.append seeds (Some (collectEndpoints items []))
    /\ tr = tr1 ++ EvList c (seedSelector actual) (Ok items) :: tr3.
Proof.
  intros HC Hi Hrun.
  assert (forall c actual w1 tr1,
            found req k8ssandra cassandra template seeds w c actual w1 tr1 ->
            exists items w2 tr3,
              DatacenterReady actual = true
              /\ client_List c (seedSelector actual) w1 = (Ok items, w2)
              /\ delivered k8ssandra
                   (slice.append seeds (Some (collectEndpoints items [])))
                   (take i (api.Datacenters cassandra)) w2 tr3 (Returns None) w'
              /\ seeds' = slice.append seeds (Some (collectEndpoints items []))
              /\ tr = tr1 ++ EvList c (seedSelector actual) (Ok items) :: tr3) as Hf.
  { intros c actual w1 tr1 Hfound.
    rewrite (reconcileDatacenter_found _ _ _ i _ _ _ _ _ _ _ Hfound) in Hrun.
    apply after_calls_inv in Hrun. destruct Hrun as (tr2 & Hw & ->).
    destruct (whenFound_next _ _ _ _ _ _ _ _ _ _ HC Hi Hw)
      as (Hready & items & w2 & tr3 & HL & Hd & Hs & ->).
    exists items, w2, tr3. split; [exact Hready|]. split; [exact HL|].
    split; [exact Hd|]. split; [exact Hs|reflexivity]. }
  destruct (ClientCache_GetClient (ctrl.NamespacedName req)
              (api.K8sContextsSecret (api.Spec k8ssandra))
              (api.K8sContext template) w) as [[[c|]|err] w1] eqn:E1.
  - destruct (client_Get c (keyOf (desiredDatacenter req cassandra template seeds)) w1)
      as [[stored|err] w2] eqn:E2.
    + destruct (hashMatches stored
                  (deepHashString
                     (newDatacenter (types.Namespace (ctrl.NamespacedName req))
                        (api.Cluster cassandra) template seeds))) eqn:Hm.
      * apply hashMatches_true in Hm.
        pose proof (found_current _ _ _ _ _ _ _ _ _ _ w1 E1 E2 Hm eq_refl) as Hfound.
        destruct (Hf _ _ _ _ Hfound) as (items & w3 & tr3 & H).
        eexists c, stored, w2, _, items, w3, tr3. split; [exact Hfound|exact H].
      * apply hashMatches_false in Hm.
        destruct (client_Update c (desiredDatacenter req cassandra template seeds) w2)
          as [[actual|err] w3] eqn:E3.
        -- pose proof (found_stale _ _ _ _ _ _ _ _ _ _ w1 stored w2 E1 E2 Hm E3
                         eq_refl) as Hfound.
           destruct (Hf _ _ _ _ Hfound) as (items & w4 & tr3 & H).
           eexists c, actual, w3, _, items, w4, tr3. split; [exact Hfound|exact H].
        -- rewrite (reconcileDatacenter_stale _ _ _ i _ _ _ _ _ _ _ _ _ E1 E2 Hm E3)
             in Hrun.
           discriminate Hrun.
    + unfold reconcileDatacenter in Hrun.
      unfold bind, call_GetClient, call_Get in Hrun.
      rewrite E1 in Hrun. cbv beta iota zeta in Hrun.
      change (client_Get c _ w1) with
        (client_Get c (keyOf (desiredDatacenter req cassandra template seeds)) w1)
        in Hrun.
      rewrite E2 in Hrun. cbv beta iota zeta in Hrun.
      destruct (errors.IsNotFound err).
      * unfold call_Create in Hrun.
        destruct (client_Create c _ w2) as [[err'|] w3];
          cbv beta iota zeta in Hrun; discriminate Hrun.
      * discriminate Hrun.
  - unfold reconcileDatacenter in Hrun.
    unfold bind, call_GetClient in Hrun.
    rewrite E1 in Hrun. cbv beta iota zeta in Hrun. discriminate Hrun.
  - unfold reconcileDatacenter in Hrun.
    unfold bind, call_GetClient in Hrun.
    rewrite E1 in Hrun. cbv beta iota zeta in Hrun. discriminate Hrun.
Qed.

Lemma reconcileDatacenters_gathered req k8ssandra cassandra :
  api.Cassandra (api.Spec k8ssandra) = Some cassandra ->
  forall templates (i : nat) seeds w seeds' w' tr,
    (i + length templates <= length (api.Datacenters cassandra))%nat ->
    reconcileDatacenters req k8ssandra cassandra i seeds templates w
    = (Returns (Next seeds'), w', tr) ->
    gathered req k8ssandra cassandra i seeds templates w tr seeds' w'.
Proof.
  intros HC templates.
  induction templates as [|template templates IH]; intros i seeds w seeds' w' tr Hi Hrun.
  - simpl in Hrun. injection Hrun as <- <- <-. constructor.
  - cbn [length] in Hi.
    cbn [reconcileDatacenters] in Hrun. unfold bind in Hrun.
    destruct (reconcileDatacenter req k8ssandra cassandra i template seeds w)
      as [[[[s1|res err]|msg] w1] tr1] eqn:E1; try discriminate Hrun.
    destruct (reconcileDatacenters req k8ssandra cassandra (S i) s1 templates w1)
      as [[o2 w2] tr2] eqn:E2.
    injection Hrun as -> <- <-.
    apply (reconcileDatacenter_next _ _ _ _ _ _ _ _ _ _ HC) in E1; [|lia].
    destruct E1 as (c & actual & wa & tra & items & wb & trb & Hfound & Hready
                    & HL & Hd & -> & ->).
    rewrite <- app_assoc. cbn [app]. 
    apply (gathered_next _ _ _ _ _ _ _ _ _ _ _ _ _ _ _ _ _ _ _ Hfound Hready HL Hd).
    apply (IH (S i) _ w1 seeds' w2 tr2); [lia|exact E2].
Qed.

(** What the turns that went on listed and collected: one [List] call for
    each template, and the seeds are those of the start followed by the
    endpoints of each answer, in order. *)
Lemma gathered_lists req k8ssandra cassandra (i : nat) seeds templates w tr seeds' w' :
  gathered req k8ssandra cassandra i seeds templates w tr seeds' w' ->
  length (List.filter isList tr) = length templates
  /\ length (discoveries tr) = length templates
  /\ slice.elems seeds' = slice.elems seeds ++ concat (discoveries tr).
Proof.
  induction 1 as [i seeds w|i seeds template templates w c actual w1 tr1 items w2
                  tr3 w3 tr' seeds' w' Hf Hready HL Hd Hg (IH1 & IH2 & IH3)].
  - simpl. rewrite app_nil_r. split; [reflexivity|]. split; reflexivity.
  - destruct (found_no_list _ _ _ _ _ _ _ _ _ _ Hf) as [F1 F2].
    pose proof (delivered_no_list _ _ _ _ _ _ _ Hd) as D1.
    destruct (propagated_quiet _ _ _ _ _ (delivered_propagated _ _ _ _ _ _ _ Hd))
      as [_ D2].
    change (tr1 ++ EvList c (seedSelector actual) (Ok items) :: tr3 ++ tr')
      with (tr1 ++ [EvList c (seedSelector actual) (Ok items)] ++ tr3 ++ tr').
    rewrite !List.filter_app, !discoveries_app, F1, F2, D1, D2.
    cbn [List.filter isList discoveries app length concat].
    rewrite IH1, IH2, IH3, elems_append. cbn [slice.elems].
    split; [reflexivity|]. split; [reflexivity|].
    rewrite <- app_assoc. reflexivity.
Qed.

Lemma gathered_sources req k8ssandra cassandra (i : nat) seeds templates w tr
  seeds' w' :
  gathered req k8ssandra cassandra i seeds templates w tr seeds' w' ->
  exists sources : list Discovery,
    Forall2 (discoveredFor req k8ssandra cassandra) templates sources
    /\ List.filter isList tr = map listCall sources
    /\ slice.elems seeds'
       = slice.elems seeds
         ++ concat (map (fun d : Discovery => collectEndpoints (snd d) []) sources).
Proof.
  induction 1 as [i seeds w|i seeds template templates w c actual w1 tr1 items w2
                  tr3 w3 tr' seeds' w' Hf Hready HL Hd Hg (sources & IH1 & IH2 & IH3)].
  - exists []. split; [constructor|]. split; [reflexivity|].
    simpl. rewrite app_nil_r. reflexivity.
  - exists ((c, actual, items) :: sources).
    destruct (found_no_list _ _ _ _ _ _ _ _ _ _ Hf) as [F1 _].
    pose proof (delivered_no_list _ _ _ _ _ _ _ Hd) as D1.
    split; [|split].
    + constructor; [|exact IH1].
      exists seeds, w, w1, tr1, w2. split; [exact Hf|]. split; [exact Hready|exact HL].
    + change (tr1 ++ EvList c (seedSelector actual) (Ok items) :: tr3 ++ tr')
        with (tr1 ++ [EvList c (seedSelector actual) (Ok items)] ++ tr3 ++ tr').
      rewrite !List.filter_app, F1, D1, IH2. reflexivity.
    + rewrite IH3, elems_append. cbn [map concat slice.elems fst snd].
      rewrite <- app_assoc. reflexivity.
Qed.


(** C3, as the code has it.  When the pass reaches the datacenter at
    position [length done], the seeds it holds come from the datacenters
    before that position and from no call made for another one: the turns
    of the templates before the position each found their datacenter
    ready, listed the pods that carry its name, through the client of its
    context, and appended the first endpoints of the answer; these [List]
    calls, one for each earlier position and in their order, are all the
    [List] calls made so far, so nothing was listed for the datacenter at
    the position or for a later one.  Every seed is the address of a pod of
    one of these answers.  The desired datacenter is built with these seeds,
    and it is the object of whatever the turn creates or updates.  (The
    selector is the name of the datacenter alone: what a remote cluster
    answers for that name is outside the pass.) *)
Theorem desired_seeds_come_from_earlier_datacenters req w0 k8ssandra cassandra
  done template templates seeds w tr :
  reaches req w0 k8ssandra cassandra done seeds w tr ->
  api.Datacenters cassandra = done ++ template :: templates ->
  (exists (w1 : W) (tr1 : list (Event Client)),
     reconciler_Get (ctrl.NamespacedName req) w0 = (Ok k8ssandra, w1)
     /\ tr = EvReconcilerGet (ctrl.NamespacedName req) (Ok k8ssandra) :: tr1
     /\ gathered req k8ssandra cassandra 0 None done w1 tr1 seeds w)
  /\ (exists sources : list Discovery,
        Forall2 (discoveredFor req k8ssandra cassandra) done sources
        /\ List.filter isList tr = map listCall sources
        /\ slice.elems seeds
           = concat (map (fun d : Discovery => collectEndpoints (snd d) []) sources)
        /\ Forall (fun seed =>
                     exists d pod,
                       In d sources /\ In pod (take 3 (snd d))
                       /\ seed = corev1.PodIP (corev1.Status pod))
             (slice.elems seeds))
  /\ length (discoveries tr) = length done
  /\ slice.elems seeds = concat (discoveries tr)
  /\ cassdcapi.AdditionalSeeds
       (cassdcapi.Spec (desiredDatacenter req cassandra template seeds))
     = seeds
  /\ exists turnCalls later : list (Event Client),
       snd (Reconcile req w0) = tr ++ turnCalls ++ later
       /\ turnCalls
          = snd (reconcileDatacenter req k8ssandra cassandra (length done)
                   template seeds w)
       /\ (createsAndUpdates turnCalls = []
           \/ (exists c r,
                 createsAndUpdates turnCalls
                 = [EvCreate c (desiredDatacenter req cassandra template seeds) r])
           \/ (exists c r,
                 createsAndUpdates turnCalls
                 = [EvUpdate c (desiredDatacenter req cassandra template seeds) r])).
Proof.
  intros Hr Hd.
  pose proof (reaches_cassandra _ _ _ _ _ _ _ _ Hr) as Hcass.
  assert (length done <= length (api.Datacenters cassandra))%nat as Hi
    by (rewrite Hd, length_app; lia).
  destruct (Reconcile_turn _ _ _ _ _ _ _ _ _ _ Hr Hd) as [later Hl].
  destruct Hr as [w1 tr1 HG HC Hloop ->].
  pose proof (reconcileDatacenters_gathered _ _ _ HC done 0%nat None w1 seeds w tr1
                Hi Hloop) as Hg.
  destruct (gathered_sources _ _ _ _ _ _ _ _ _ _ Hg) as (sources & S1 & S2 & S3).
  destruct (gathered_lists _ _ _ _ _ _ _ _ _ _ Hg) as (L1 & L2 & L3).
  simpl in S3, L3.
  split; [exists w1, tr1; split; [exact HG|]; split; [reflexivity|exact Hg]|].
  split.
  { exists sources. split; [exact S1|]. split; [exact S2|]. split; [exact S3|].
    rewrite S3. apply List.Forall_forall. intros seed Hin.
    apply in_concat in Hin. destruct Hin as (l & Hl1 & Hl2).
    apply in_map_iff in Hl1. destruct Hl1 as (d & <- & Hd1).
    rewrite collectEndpoints_take in Hl2.
    apply in_map_iff in Hl2. destruct Hl2 as (pod & <- & Hpod).
    exists d, pod. split; [exact Hd1|]. split; [exact Hpod|reflexivity]. }
  split; [exact L2|]. split; [exact L3|]. split; [reflexivity|].
  exists (snd (reconcileDatacenter req k8ssandra cassandra (length done) template
                 seeds w)), later.
  split; [exact Hl|]. split; [reflexivity|].
  destruct (reconcileDatacenter req k8ssandra cassandra (length done) template
              seeds w) as [[o2 w2] tr2] eqn:E2.
  apply (reconcileDatacenter_turn _ _ _ _ _ _ _ _ _ _ HC Hi) in E2.
  apply (turn_writes_desired _ _ _ _ _ _ _ _ E2).
Qed.

(** ** The patches of seed propagation *)



Lemma split_after_clean tr1 : forall tr2 before ev after,
  Forall (fun e => rejectedPatch e = false) tr1 ->
  rejectedPatch ev = true ->
  tr1 ++ tr2 = before ++ ev :: after ->
  exists before2, before = tr1 ++ before2 /\ tr2 = before2 ++ ev :: after.
Proof.
  induction tr1 as [|e tr1 IH]; intros tr2 before ev after Hclean Hev Heq.
  - exists before. split; [reflexivity|exact Heq].
  - inversion Hclean as [|? ? He Hclean']; subst.
    destruct before as [|b before]; simpl in Heq.
    + injection Heq as -> _. congruence.
    + injection Heq as -> Heq.
      destruct (IH _ _ _ _ Hclean' Hev Heq) as (before2 & -> & ->).
      exists before2. split; reflexivity.
Qed.

Lemma rejection_ends_clean {A : Type} tr (o : outcome A) carry :
  rejection_ends tr o carry -> (forall err, o <> carry err) ->
  Forall (fun e => rejectedPatch e = false) tr.
Proof.
  intros H Ho. apply List.Forall_forall. intros ev Hin.
  destruct ev as [| | | | | |c obj patch [err|]]; try reflexivity.
  apply in_split in Hin. destruct Hin as (before & after & ->).
  destruct (H before c obj patch err after eq_refl) as (_ & Hcarry & _).
  destruct (Ho err Hcarry).
Qed.

(** No refused patch in a short trace whose calls are not such. *)
Ltac short_trace_from before Heq :=
  destruct before as [|? before]; simpl in Heq;
  [ discriminate Heq
  | first [ discriminate Heq
          | injection Heq as _ Heq; short_trace_from before Heq ] ].

Ltac short_trace :=
  let before := fresh "before" in
  let Heq := fresh "Heq" in
  intros before ? ? ? ? ? Heq; short_trace_from before Heq.

Lemma propagated_rejection k8ssandra seeds templates tr o :
  propagated k8ssandra seeds templates tr o ->
  rejection_ends tr o (fun err => Returns (Some err)).
Proof.
  induction 1 as [|template templates c' dc tr o H IH|template templates c' dc err'
                  |template templates c' err'|template templates err'
                  |template templates msg].
  - intros [|? ?] ? ? ? ? ? Heq; discriminate Heq.
  - intros before c obj patch err after Heq.
    apply split_after_clean in Heq; [|repeat constructor|reflexivity].
    destruct Heq as (before2 & -> & Heq).
    destruct (IH _ _ _ _ _ _ Heq) as (H1 & H2 & H3 & H4 & before' & key & ->).
    repeat split; try assumption.
    exists (propagationCalls k8ssandra seeds template c' dc None ++ before'), key.
    rewrite <- app_assoc. reflexivity.
  - intros before c obj patch err after Heq.
    destruct before as [|e1 [|e2 [|e3 before]]]; simpl in Heq; try discriminate Heq.
    + injection Heq as ? ? ? ? ?; subst.
      split; [reflexivity|]. split; [reflexivity|]. split; [reflexivity|].
      split; [apply seeded_meta|].
      eexists [_], _. reflexivity.
    + injection Heq as _ _ _ Heq. destruct before; discriminate Heq.
  - short_trace.
  - short_trace.
  - short_trace.
Qed.

Lemma settled_rejection k8ssandra cassandra (i : nat) seeds c actual tr o :
  settled k8ssandra cassandra i seeds c actual tr o ->
  rejection_ends tr o (fun err => Returns (Return ctrl.zero (Some err))).
Proof.
  intros [Hready|err' Hready|items tr' o' Hready Hp].
  - short_trace.
  - short_trace.
  - intros before c0 obj patch err after Heq.
    change (EvList c (seedSelector actual) (Ok items) :: tr')
      with ([EvList c (seedSelector actual) (Ok items)] ++ tr') in Heq.
    apply split_after_clean in Heq; [|repeat constructor|reflexivity].
    destruct Heq as (before2 & -> & Heq).
    destruct (propagated_rejection _ _ _ _ _ Hp _ _ _ _ _ _ Heq)
      as (H1 & -> & H3 & H4 & before' & key & ->).
    split; [exact H1|]. split; [reflexivity|]. split; [exact H3|].
    split; [exact H4|].
    exists ([EvList c (seedSelector actual) (Ok items)] ++ before'), key.
    rewrite <- app_assoc. reflexivity.
Qed.

Lemma turn_rejection req k8ssandra cassandra (i : nat) template seeds tr o :
  turn req k8ssandra cassandra i template seeds tr o ->
  rejection_ends tr o (fun err => Returns (Return ctrl.zero (Some err))).
Proof.
  intros [err'| |c err' Hnf|c err' Hnf|c err' err'' Hnf|c stored err' Hm
          |c stored actual tr' o' Hm Hs|c actual tr' o' Hm Hs];
    try short_trace.
  - intros before c0 obj patch err after Heq.
    apply split_after_clean in Heq; [|repeat constructor|reflexivity].
    destruct Heq as (before2 & -> & Heq).
    destruct (settled_rejection _ _ _ _ _ _ _ _ Hs _ _ _ _ _ _ Heq)
      as (H1 & H2 & H3 & H4 & before' & key & ->).
    split; [exact H1|]. split; [exact H2|]. split; [exact H3|].
    split; [exact H4|].
    eexists (_ ++ before'), key. rewrite <- app_assoc. reflexivity.
  - intros before c0 obj patch err after Heq.
    apply split_after_clean in Heq; [|repeat constructor|reflexivity].
    destruct Heq as (before2 & -> & Heq).
    destruct (settled_rejection _ _ _ _ _ _ _ _ Hs _ _ _ _ _ _ Heq)
      as (H1 & H2 & H3 & H4 & before' & key & ->).
    split; [exact H1|]. split; [exact H2|]. split; [exact H3|].
    split; [exact H4|].
    eexists (_ ++ before'), key. rewrite <- app_assoc. reflexivity.
Qed.

Lemma turns_rejection req k8ssandra cassandra (i : nat) seeds templates tr o :
  turns req k8ssandra cassandra i seeds templates tr o ->
  rejection_ends tr o (fun err => Returns (Return ctrl.zero (Some err))).
Proof.
  induction 1 as [i seeds|i seeds template templates tr seeds' tr' o Hturn Hturns IH
                  |i seeds template templates tr res err' Hturn
                  |i seeds template templates tr msg Hturn].
  - short_trace.
  - intros before c obj patch err after Heq.
    apply split_after_clean in Heq; [| |reflexivity].
    2:{ apply (rejection_ends_clean _ _ _ (turn_rejection _ _ _ _ _ _ _ _ Hturn)).
        intros err0 Hcontra. discriminate Hcontra. }
    destruct Heq as (before2 & -> & Heq).
    destruct (IH _ _ _ _ _ _ Heq) as (H1 & H2 & H3 & H4 & before' & key & ->).
    split; [exact H1|]. split; [exact H2|]. split; [exact H3|].
    split; [exact H4|].
    exists (tr ++ before'), key. rewrite <- app_assoc. reflexivity.
  - apply (turn_rejection _ _ _ _ _ _ _ _ Hturn).
  - apply (turn_rejection _ _ _ _ _ _ _ _ Hturn).
Qed.

Lemma pass_rejection req tr o :
  pass req tr o -> rejection_ends tr o (fun err => Returns (ctrl.zero, Some err)).
Proof.
  intros [err' Hnf|err' Hnf|k8ssandra HC|k8ssandra cassandra tr' o' HC Hturns];
    try short_trace.
  intros before c obj patch err after Heq.
  change (EvReconcilerGet (ctrl.NamespacedName req) (Ok k8ssandra) :: tr')
    with ([EvReconcilerGet (ctrl.NamespacedName req) (Ok k8ssandra)] ++ tr') in Heq.
  apply split_after_clean in Heq; [|repeat constructor|reflexivity].
  destruct Heq as (before2 & -> & Heq).
  destruct (turns_rejection _ _ _ _ _ _ _ _ Hturns _ _ _ _ _ _ Heq)
    as (H1 & -> & H3 & H4 & before' & key & ->).
  split; [exact H1|]. split; [reflexivity|]. split; [exact H3|].
  split; [exact H4|].
  eexists (_ ++ before'), key. rewrite <- app_assoc. reflexivity.
Qed.

(** C5.  In any pass, a patch of seed propagation that the API server
    refuses is the last call of the pass: nothing is retried and nothing else
    is written.  The pass returns [ctrl.Result{}] with the error of the
    patch.  The patch was computed against the datacenter fetched by the call
    just before it and is bound to that resource version (the optimistic
    lock), which the patched object still carries; so an API server that sees
    another version refuses it, and the pass ends there. *)
Theorem rejected_patch_ends_the_pass req w o w' tr before c obj patch err after :
  Reconcile req w = (o, w', tr) ->
  tr = before ++ EvPatch c obj patch (Some err) :: after ->
  after = []
  /\ o = Returns (ctrl.zero, Some err)
  /\ client.OptimisticLock patch = true
  /\ metav1.ResourceVersion (cassdcapi.ObjectMeta obj)
     = metav1.ResourceVersion (cassdcapi.ObjectMeta (client.from patch))
  /\ exists before' key,
       before = before' ++ [EvGet c key (Ok (client.from patch))].
Proof.
  intros Hrun Heq.
  destruct (pass_rejection _ _ _ (Reconcile_pass _ _ _ _ _ Hrun) _ _ _ _ _ _ Heq)
    as (H1 & H2 & H3 & H4 & H5).
  split; [exact H1|]. split; [exact H2|]. split; [exact H3|].
  split; [rewrite H4; reflexivity|exact H5].
Qed.


End properties.

(** * Errors, bounds and edge cases *)

Section edge_properties.
Context {P : Payloads} {X : External} {W Client : Type} {R : Remote W Client}.

Implicit Types (w : W) (c : Client) (tr : list (Event Client)).
Implicit Types (dc actual : cassdcapi.CassandraDatacenter).

(** ** Calls that end a pass *)

Lemma split_after_quiet (stop : Event Client -> bool) tr1 :
  forall tr2 before ev after,
    Forall (fun e => stop e = false) tr1 ->
    stop ev = true ->
    tr1 ++ tr2 = before ++ ev :: after ->
    exists before2, before = tr1 ++ before2 /\ tr2 = before2 ++ ev :: after.
Proof.
  induction tr1 as [|e tr1 IH]; intros tr2 before ev after Hq Hev Heq.
  - exists before. split; [reflexivity|exact Heq].
  - inversion Hq as [|? ? He Hq']; subst.
    destruct before as [|b before]; simpl in Heq.
    + injection Heq as -> _. congruence.
    + injection Heq as -> Heq.
      destruct (IH _ _ _ _ Hq' Hev Heq) as (before2 & -> & ->).
      exists before2. split; reflexivity.
Qed.

Lemma stops_quiet {A : Type} tr (o : outcome A) goes_on carry created refused :
  stops tr o goes_on carry created refused -> goes_on o ->
  Forall (fun e => endsPass e = false) tr.
Proof.
  intros H Ho. apply List.Forall_forall. intros ev Hin.
  destruct (endsPass ev) eqn:E; [|reflexivity].
  apply in_split in Hin. destruct Hin as (before & after & ->).
  destruct (H before ev after eq_refl E) as (_ & Hn & _).
  destruct (Hn Ho).
Qed.

(** [stops] for a trace given call by call: the cases for the place of the
    call that ends the pass. *)
Ltac stops_cases :=
  let before := fresh "before" in
  let ev := fresh "ev" in
  let Heq := fresh "Heq" in
  let Hev := fresh "Hev" in
  intros before ev ? Heq Hev;
  repeat (destruct before as [|? before];
          [ simpl in Heq; try discriminate Heq;
            injection Heq; intros; subst; simpl in Hev; try discriminate Hev
          | simpl in Heq; try discriminate Heq;
            injection Heq as _ Heq ]).

Ltac stops_done :=
  split; [reflexivity|];
  split; [first [ intros [? ?]; discriminate | intros ?; discriminate | intros [] ]|];
  split; [simpl; intros ? ?; first [ discriminate | congruence ]|];
  split; [ intros ? ? ?; first [ discriminate | reflexivity ]
         | intros ? ? ? ?;
           first [ discriminate | left; reflexivity | right; eexists; reflexivity ] ].

Lemma propagated_stops k8ssandra seeds templates tr o created refused :
  propagated k8ssandra seeds templates tr o ->
  stops tr o (fun o => o = Returns None) (fun err => Returns (Some err)) created
    refused.
Proof.
  induction 1 as [|template templates c' dc tr o H IH|template templates c' dc err'
                  |template templates c' err'|template templates err'
                  |template templates msg].
  - intros [|? ?] ? ? Heq; discriminate Heq.
  - intros before ev after Heq Hev.
    apply (split_after_quiet endsPass) in Heq; [|repeat constructor|exact Hev].
    destruct Heq as (before2 & -> & Heq).
    exact (IH _ _ _ Heq Hev).
  - stops_cases. stops_done.
  - stops_cases.
    destruct (errors.IsNotFound err') eqn:E; [discriminate|].
    split; [reflexivity|]. split; [intros ?; discriminate|].
    split; [simpl; rewrite E; intros ? ?; congruence|].
    split; [intros ? ? ?; discriminate|intros ? ? ? ?; discriminate].
  - stops_cases. stops_done.
  - stops_cases. stops_done.
Qed.

Lemma afterPropagation_goes_on seeds (o : outcome (option errors.error)) s :
  afterPropagation seeds o = Returns (Next s) -> o = Returns None.
Proof. destruct o as [[err|]|msg]; simpl; intros H; congruence. Qed.

Lemma settled_stops k8ssandra cassandra (i : nat) seeds c actual tr o created
  refused :
  settled k8ssandra cassandra i seeds c actual tr o ->
  stops tr o (fun o => exists s, o = Returns (Next s))
    (fun err => Returns (Return ctrl.zero (Some err))) created refused.
Proof.
  intros [Hready|err Hready|items tr' o' Hready Hp].
  - intros [|? ?] ? ? Heq; discriminate Heq.
  - stops_cases. stops_done.
  - intros before ev after Heq Hev.
    apply (split_after_quiet endsPass [EvList c (seedSelector actual) (Ok items)])
      in Heq; [|repeat constructor|exact Hev].
    destruct Heq as (before2 & -> & Heq).
    destruct (propagated_stops _ _ _ _ _ (Returns None) (Returns None) Hp _ _ _
                Heq Hev) as (H1 & H2 & H3 & H4 & H5).
    split; [exact H1|].
    split; [intros [s Hs]; apply afterPropagation_goes_on in Hs; exact (H2 Hs)|].
    split; [intros err Herr; rewrite (H3 err Herr); reflexivity|].
    split.
    + intros c' obj ->. specialize (H4 c' obj eq_refl). subst o'.
      destruct (H2 eq_refl).
    + intros key secret x ->. right.
      destruct (H5 key secret x eq_refl) as [->|[msg ->]];
        [destruct (H2 eq_refl)|].
      exists msg. reflexivity.
Qed.

Lemma turn_stops req k8ssandra cassandra (i : nat) template seeds tr o :
  turn req k8ssandra cassandra i template seeds tr o ->
  stops tr o (fun o => exists s, o = Returns (Next s))
    (fun err => Returns (Return ctrl.zero (Some err)))
    (Returns (Return (requeueAfter (15 * time.Second)) None))
    (Returns (Return ctrl.zero
                (Some (errors.Errorf "remoteClient cannot be nil")))).
Proof.
  intros [err| |c err Hnf|c err Hnf|c err err' Hnf|c stored err Hm
         |c stored actual tr' o' Hm Hs|c actual tr' o' Hm Hs].
  - stops_cases. stops_done.
  - stops_cases. stops_done.
  - stops_cases; simpl in *; rewrite ?Hnf in *; simpl in *; try discriminate; stops_done.
  - stops_cases; simpl in *; rewrite ?Hnf in *; simpl in *; try discriminate; stops_done.
  - stops_cases; simpl in *; rewrite ?Hnf in *; simpl in *; try discriminate; stops_done.
  - stops_cases. stops_done.
  - intros before ev after Heq Hev.
    apply (split_after_quiet endsPass) in Heq; [|repeat constructor|exact Hev].
    destruct Heq as (before2 & -> & Heq).
    exact (settled_stops _ _ _ _ _ _ _ _ _ _ Hs _ _ _ Heq Hev).
  - intros before ev after Heq Hev.
    apply (split_after_quiet endsPass) in Heq; [|repeat constructor|exact Hev].
    destruct Heq as (before2 & -> & Heq).
    exact (settled_stops _ _ _ _ _ _ _ _ _ _ Hs _ _ _ Heq Hev).
Qed.

Lemma turns_stops req k8ssandra cassandra (i : nat) seeds templates tr o :
  turns req k8ssandra cassandra i seeds templates tr o ->
  stops tr o (fun o => exists s, o = Returns (Next s))
    (fun err => Returns (Return ctrl.zero (Some err)))
    (Returns (Return (requeueAfter (15 * time.Second)) None))
    (Returns (Return ctrl.zero
                (Some (errors.Errorf "remoteClient cannot be nil")))).
Proof.
  induction 1 as [i seeds|i seeds template templates tr seeds' tr' o Ht Hts IH
                 |i seeds template templates tr res err Ht
                 |i seeds template templates tr msg Ht].
  - intros [|? ?] ? ? Heq; discriminate Heq.
  - intros before ev after Heq Hev.
    apply (split_after_quiet endsPass) in Heq;
      [|exact (stops_quiet _ _ _ _ _ _ (turn_stops _ _ _ _ _ _ _ _ Ht)
                 (ex_intro _ seeds' eq_refl))|exact Hev].
    destruct Heq as (before2 & -> & Heq).
    exact (IH _ _ _ Heq Hev).
  - exact (turn_stops _ _ _ _ _ _ _ _ Ht).
  - exact (turn_stops _ _ _ _ _ _ _ _ Ht).
Qed.

Lemma pass_stops req tr o :
  pass req tr o ->
  stops tr o (fun _ => False) (fun err => Returns (ctrl.zero, Some err))
    (Returns (requeueAfter (15 * time.Second), None))
    (Returns (ctrl.zero, Some (errors.Errorf "remoteClient cannot be nil"))).
Proof.
  intros [err Hnf|err Hnf|k8ssandra HC|k8ssandra cassandra tr' o' HC Hts].
  - stops_cases. stops_done.
  - stops_cases. stops_done.
  - stops_cases.
  - intros before ev after Heq Hev.
    apply (split_after_quiet endsPass
             [EvReconcilerGet (ctrl.NamespacedName req) (Ok k8ssandra)])
      in Heq; [|repeat constructor|exact Hev].
    destruct Heq as (before2 & -> & Heq).
    destruct (turns_stops _ _ _ _ _ _ _ _ Hts _ _ _ Heq Hev)
      as (H1 & H2 & H3 & H4 & H5).
    split; [exact H1|]. split; [intros []|].
    split; [intros err Herr; rewrite (H3 err Herr); reflexivity|].
    split.
    + intros c obj ->. rewrite (H4 c obj eq_refl). reflexivity.
    + intros key secret x ->.
      destruct (H5 key secret x eq_refl) as [->|[msg ->]].
      * left. reflexivity.
      * right. exists msg. reflexivity.
Qed.

Lemma failure_endsPass (ev : Event Client) err :
  failure ev = Some err -> endsPass ev = true.
Proof.
  destruct ev as [key r|key s x [[c|]|e]|c key [dc|e]|c obj [e|]|c obj [dc|e]
                 |c l [items|e]|c obj patch [e|]]; simpl; try discriminate;
    try reflexivity.
  destruct (errors.IsNotFound e); [discriminate|reflexivity].
Qed.

(** X1.  When the fetch of the cluster resource fails, the pass makes no
    other call.  If the resource is gone ([IsNotFound]) the pass returns
    [ctrl.Result{}] with a nil error, so the request is not queued again;
    with any other error it returns that error and asks to be run again
    after 10 seconds. *)
Theorem cluster_fetch_failure req w err w1 :
  reconciler_Get (ctrl.NamespacedName req) w = (Err err, w1) ->
  Reconcile req w
  = (Returns (if errors.IsNotFound err then (ctrl.zero, None)
              else (requeueAfter (10 * time.Second), Some err)),
     w1, [EvReconcilerGet (ctrl.NamespacedName req) (Err err)]).
Proof.
  intros HG. unfold Reconcile, bind, call_reconciler_Get.
  rewrite HG. cbv beta iota zeta.
  destruct (errors.IsNotFound err); reflexivity.
Qed.

(** X2.  A call to the client cache or to a remote cluster that fails is the
    last call of the pass, and the pass returns its error, unchanged, with
    [ctrl.Result{}]: nothing is retried within the pass and no error is
    swallowed.  A fetch that answers that there is no such datacenter counts
    as failed only in seed propagation; in the loop it leads to the
    creation. *)
Theorem failed_call_ends_the_pass req w o w' tr before ev after err :
  Reconcile req w = (o, w', tr) ->
  tr = before ++ ev :: after ->
  failure ev = Some err ->
  after = [] /\ o = Returns (ctrl.zero, Some err).
Proof.
  intros Hrun Heq Hf. pose proof (failure_endsPass _ _ Hf) as Hev.
  destruct (pass_stops _ _ _ (Reconcile_pass _ _ _ _ _ Hrun) _ _ _ Heq Hev)
    as (H1 & _ & H3 & _).
  split; [exact H1|exact (H3 err Hf)].
Qed.

(** X3.  A pass creates at most one datacenter: a [Create] call is the last
    call of the pass, whatever it answers.  When it succeeds the pass
    returns a revisit delay of 15 seconds and a nil error; when it fails the
    pass returns its error with [ctrl.Result{}]. *)
Theorem create_is_the_last_call req w o w' tr before c obj r after :
  Reconcile req w = (o, w', tr) ->
  tr = before ++ EvCreate c obj r :: after ->
  after = []
  /\ length (creates tr) = 1%nat
  /\ o = Returns (match r with
                  | None => (requeueAfter (15 * time.Second), None)
                  | Some err => (ctrl.zero, Some err)
                  end).
Proof.
  intros Hrun Heq.
  pose proof (pass_stops _ _ _ (Reconcile_pass _ _ _ _ _ Hrun)) as Hs.
  destruct (Hs _ _ _ Heq eq_refl) as (H1 & _ & H3 & H4 & _).
  split; [exact H1|]. subst after. split.
  - subst tr. unfold creates. rewrite List.filter_app, length_app. simpl.
    destruct (List.filter
                (fun ev : Event Client =>
                   match ev with EvCreate _ _ _ => true | _ => false end) before)
      as [|e l] eqn:E; [reflexivity|].
    assert (In e (e :: l)) as Hin by (left; reflexivity).
    rewrite <- E in Hin. apply List.filter_In in Hin. destruct Hin as [Hin He].
    apply in_split in Hin. destruct Hin as (b1 & b2 & ->).
    destruct e; try discriminate He.
    rewrite <- app_assoc in Hs. simpl in Hs.
    destruct (Hs _ _ _ eq_refl eq_refl) as (Hnil & _).
    destruct b2; discriminate Hnil.
  - destruct r as [err|].
    + exact (H3 err eq_refl).
    + exact (H4 c obj eq_refl).
Qed.

(** ** What a pass returns *)

Lemma settled_result k8ssandra cassandra (i : nat) seeds c actual tr o res err :
  settled k8ssandra cassandra i seeds c actual tr o ->
  o = Returns (Return res err) ->
  match err with
  | None => res = requeueAfter (15 * time.Second)
  | Some _ => res = ctrl.zero
  end.
Proof.
  intros [Hready|e Hready|items tr' o' Hready Hp] Ho.
  - injection Ho as <- <-. reflexivity.
  - injection Ho as <- <-. reflexivity.
  - destruct o' as [[e|]|msg]; try discriminate Ho.
    injection Ho as <- <-. reflexivity.
Qed.

Lemma turn_result req k8ssandra cassandra (i : nat) template seeds tr o res err :
  turn req k8ssandra cassandra i template seeds tr o ->
  o = Returns (Return res err) ->
  match err with
  | None => res = requeueAfter (15 * time.Second)
  | Some _ => res = ctrl.zero
  end.
Proof.
  intros [e| |c e Hnf|c e Hnf|c e e' Hnf|c stored e Hm
         |c stored actual tr' o' Hm Hs|c actual tr' o' Hm Hs] Ho;
    try (injection Ho as <- <-; reflexivity).
  - exact (settled_result _ _ _ _ _ _ _ _ _ _ Hs Ho).
  - exact (settled_result _ _ _ _ _ _ _ _ _ _ Hs Ho).
Qed.

Lemma turns_result req k8ssandra cassandra (i : nat) seeds templates tr o res err :
  turns req k8ssandra cassandra i seeds templates tr o ->
  o = Returns (Return res err) ->
  match err with
  | None => res = requeueAfter (15 * time.Second)
  | Some _ => res = ctrl.zero
  end.
Proof.
  induction 1 as [i seeds|i seeds template templates tr seeds' tr' o Ht Hts IH
                 |i seeds template templates tr res' err' Ht
                 |i seeds template templates tr msg Ht]; intros Ho.
  - discriminate Ho.
  - exact (IH Ho).
  - exact (turn_result _ _ _ _ _ _ _ _ _ _ Ht Ho).
  - discriminate Ho.
Qed.

(** X4.  What a pass can return.  With a nil error the result is
    [ctrl.Result{}] or a revisit delay of 15 seconds.  With an error the
    result is [ctrl.Result{}], except when the fetch of the cluster resource
    failed: then the delay is 10 seconds, and that fetch is the only call of
    the pass.  [Requeue] is never set. *)
Theorem Reconcile_results req w res err w' tr :
  Reconcile req w = (Returns (res, err), w', tr) ->
  ctrl.Requeue res = false
  /\ match err with
     | None => res = ctrl.zero \/ res = requeueAfter (15 * time.Second)
     | Some e =>
         res = ctrl.zero
         \/ (res = requeueAfter (10 * time.Second)
             /\ tr = [EvReconcilerGet (ctrl.NamespacedName req) (Err e)])
     end.
Proof.
  intros Hrun. apply Reconcile_pass in Hrun.
  remember (Returns (res, err)) as o eqn:Ho.
  destruct Hrun as [e Hnf|e Hnf|k8ssandra HC|k8ssandra cassandra tr' o' HC Hts].
  - injection Ho as <- <-. split; [reflexivity|]. left. reflexivity.
  - injection Ho as <- <-. split; [reflexivity|]. right. split; reflexivity.
  - injection Ho as <- <-. split; [reflexivity|]. left. reflexivity.
  - destruct o' as [[s|res' err']|msg]; try discriminate Ho.
    + injection Ho as <- <-. split; [reflexivity|]. left. reflexivity.
    + injection Ho as <- <-.
      pose proof (turns_result _ _ _ _ _ _ _ _ _ _ Hts eq_refl) as H.
      destruct err' as [e|]; subst res'; split; try reflexivity.
      * left. reflexivity.
      * right. reflexivity.
Qed.

(** ** Panics *)

(** A trace that ends with the client cache handing out a nil client in
    seed propagation. *)
Lemma propagated_panic k8ssandra seeds templates tr o msg :
  propagated k8ssandra seeds templates tr o ->
  o = Panics msg ->
  exists before template,
    tr = before ++ [EvGetClient (k8ssandraKeyOf k8ssandra)
                      (api.K8sContextsSecret (api.Spec k8ssandra))
                      (api.K8sContext template) (Ok None)]
    /\ In template templates.
Proof.
  induction 1 as [|template templates c' dc tr o H IH|template templates c' dc err'
                  |template templates c' err'|template templates err'
                  |template templates msg']; intros Ho; try discriminate Ho.
  - destruct (IH Ho) as (before & t & -> & Hin).
    exists (propagationCalls k8ssandra seeds template c' dc None ++ before), t.
    split; [rewrite <- app_assoc; reflexivity|right; exact Hin].
  - exists [], template. split; [reflexivity|left; reflexivity].
Qed.

Lemma settled_panic k8ssandra cassandra (i : nat) seeds c actual tr o msg :
  settled k8ssandra cassandra i seeds c actual tr o ->
  o = Panics msg ->
  exists before template items,
    tr = EvList c (seedSelector actual) (Ok items) :: before
         ++ [EvGetClient (k8ssandraKeyOf k8ssandra)
               (api.K8sContextsSecret (api.Spec k8ssandra))
               (api.K8sContext template) (Ok None)]
    /\ In template (take i (api.Datacenters cassandra)).
Proof.
  intros [Hready|err Hready|items tr' o' Hready Hp] Ho; try discriminate Ho.
  destruct o' as [[err|]|msg']; try discriminate Ho.
  destruct (propagated_panic _ _ _ _ _ _ Hp eq_refl) as (before & t & -> & Hin).
  exists before, t, items. split; [reflexivity|exact Hin].
Qed.

Lemma turn_panic req k8ssandra cassandra (i : nat) template seeds tr o msg :
  turn req k8ssandra cassandra i template seeds tr o ->
  o = Panics msg ->
  exists before c labels items earlier,
    tr = before ++ [EvGetClient (k8ssandraKeyOf k8ssandra)
                      (api.K8sContextsSecret (api.Spec k8ssandra))
                      (api.K8sContext earlier) (Ok None)]
    /\ In (EvList c labels (Ok items)) before
    /\ In earlier (take i (api.Datacenters cassandra)).
Proof.
  intros [e| |c e Hnf|c e Hnf|c e e' Hnf|c stored e Hm
         |c stored actual tr' o' Hm Hs|c actual tr' o' Hm Hs] Ho;
    try discriminate Ho.
  - destruct (settled_panic _ _ _ _ _ _ _ _ _ Hs Ho) as (before & t & items & -> & Hin).
    eexists (_ ++ EvList c (seedSelector actual) (Ok items) :: before),
      c, (seedSelector actual), items, t.
    split; [rewrite <- app_assoc; reflexivity|].
    split; [|exact Hin].
    apply in_or_app. right. left. reflexivity.
  - destruct (settled_panic _ _ _ _ _ _ _ _ _ Hs Ho) as (before & t & items & -> & Hin).
    eexists (_ ++ EvList c (seedSelector actual) (Ok items) :: before),
      c, (seedSelector actual), items, t.
    split; [rewrite <- app_assoc; reflexivity|].
    split; [|exact Hin].
    apply in_or_app. right. left. reflexivity.
Qed.

Lemma turns_panic_nil req k8ssandra cassandra (i : nat) seeds templates tr o msg :
  turns req k8ssandra cassandra i seeds templates tr o ->
  o = Panics msg ->
  exists before c labels items earlier,
    tr = before ++ [EvGetClient (k8ssandraKeyOf k8ssandra)
                      (api.K8sContextsSecret (api.Spec k8ssandra))
                      (api.K8sContext earlier) (Ok None)]
    /\ In (EvList c labels (Ok items)) before
    /\ In earlier (api.Datacenters cassandra).
Proof.
  induction 1 as [i seeds|i seeds template templates tr seeds' tr' o Ht Hts IH
                 |i seeds template templates tr res' err' Ht
                 |i seeds template templates tr msg' Ht]; intros Ho;
    try discriminate Ho.
  - destruct (IH Ho) as (before & c & labels & items & t & -> & Hin & Ht').
    exists (tr ++ before), c, labels, items, t.
    split; [rewrite <- app_assoc; reflexivity|].
    split; [apply in_or_app; right; exact Hin|exact Ht'].
  - destruct (turn_panic _ _ _ _ _ _ _ _ _ Ht Ho)
      as (before & c & labels & items & t & -> & Hin & Ht').
    exists before, c, labels, items, t.
    split; [reflexivity|]. split; [exact Hin|].
    apply list_elem_of_In. apply list_elem_of_In in Ht'.
    apply elem_of_take in Ht'. destruct Ht' as (j & Hj & _).
    apply (list_elem_of_lookup_2 _ _ _ Hj).
Qed.

(** X5.  A pass panics in one situation only: in seed propagation, the
    client cache answers with a nil client and a nil error, for the context
    of one of the datacenters of the cluster.  [getDatacenterForTemplate]
    does not test the client as the loop of [Reconcile] does, and calls
    [Get] on it.  The nil answer is the last call of the pass, and a [List]
    call that found pods comes before it. *)
Theorem pass_panics_on_nil_client_only req w msg w' tr :
  Reconcile req w = (Panics msg, w', tr) ->
  exists k8ssandra cassandra before earlier c labels items,
    tr = EvReconcilerGet (ctrl.NamespacedName req) (Ok k8ssandra)
         :: before
         ++ [EvGetClient (k8ssandraKeyOf k8ssandra)
               (api.K8sContextsSecret (api.Spec k8ssandra))
               (api.K8sContext earlier) (Ok None)]
    /\ api.Cassandra (api.Spec k8ssandra) = Some cassandra
    /\ In earlier (api.Datacenters cassandra)
    /\ In (EvList c labels (Ok items)) before.
Proof.
  intros Hrun. apply Reconcile_pass in Hrun.
  remember (Panics msg) as o eqn:Ho.
  destruct Hrun as [e Hnf|e Hnf|k8ssandra HC|k8ssandra cassandra tr' o' HC Hts];
    try discriminate Ho.
  destruct o' as [[s|res' err']|msg']; try discriminate Ho.
  destruct (turns_panic_nil _ _ _ _ _ _ _ _ _ Hts eq_refl)
    as (before & c & labels & items & t & -> & Hin & Ht').
  exists k8ssandra, cassandra, before, t, c, labels, items.
  split; [reflexivity|]. split; [exact HC|]. split; [exact Ht'|exact Hin].
Qed.

(** X6.  A nil client from the client cache ends the pass: that answer is
    the last call.  In the loop of [Reconcile] it is an error, and the pass
    returns "remoteClient cannot be nil" with [ctrl.Result{}]; the only
    other way out is the panic of seed propagation. *)
Theorem nil_client_ends_the_pass req w o w' tr before key secret k8sContext after :
  Reconcile req w = (o, w', tr) ->
  tr = before ++ EvGetClient key secret k8sContext (Ok None) :: after ->
  after = []
  /\ (o = Returns (ctrl.zero, Some (errors.Errorf "remoteClient cannot be nil"))
      \/ exists msg, o = Panics msg).
Proof.
  intros Hrun Heq.
  destruct (pass_stops _ _ _ (Reconcile_pass _ _ _ _ _ Hrun) _ _ _ Heq eq_refl)
    as (H1 & _ & _ & _ & H5).
  split; [exact H1|exact (H5 key secret k8sContext eq_refl)].
Qed.

(** ** How many calls a pass makes *)

Lemma patches_app tr1 tr2 : patches (tr1 ++ tr2) = patches tr1 ++ patches tr2.
Proof. unfold patches. apply List.filter_app. Qed.

(** Seed propagation patches each datacenter of its list at most once, and
    each of them once when it does not fail. *)
Lemma propagated_patch_count k8ssandra seeds templates tr o :
  propagated k8ssandra seeds templates tr o ->
  (length (patches tr) <= length templates)%nat
  /\ (o = Returns None -> length (patches tr) = length templates).
Proof.
  induction 1 as [|template templates c' dc tr o H [IH1 IH2]|template templates c' dc err'
                  |template templates c' err'|template templates err'
                  |template templates msg'].
  - split; [simpl; lia|reflexivity].
  - rewrite patches_app, length_app. simpl. split; [lia|].
    intros Ho. rewrite (IH2 Ho). reflexivity.
  - split; [simpl; lia|discriminate].
  - split; [simpl; lia|discriminate].
  - split; [simpl; lia|discriminate].
  - split; [simpl; lia|discriminate].
Qed.

Lemma settled_patch_count k8ssandra cassandra (i : nat) seeds c actual tr o :
  settled k8ssandra cassandra i seeds c actual tr o ->
  (length (patches tr) <= i)%nat
  /\ (forall s, o = Returns (Next s) ->
      (i <= length (api.Datacenters cassandra))%nat ->
      length (patches tr) = i).
Proof.
  intros [Hready|err Hready|items tr' o' Hready Hp].
  - split; [simpl; lia|discriminate].
  - split; [simpl; lia|discriminate].
  - destruct (propagated_patch_count _ _ _ _ _ Hp) as [H1 H2].
    change (patches (EvList c (seedSelector actual) (Ok items) :: tr'))
      with (patches tr').
    rewrite length_take in H1.
    split; [lia|].
    intros s Ho Hi. apply afterPropagation_goes_on in Ho.
    rewrite (H2 Ho). rewrite length_take. lia.
Qed.

Lemma turn_patch_count req k8ssandra cassandra (i : nat) template seeds tr o :
  turn req k8ssandra cassandra i template seeds tr o ->
  (length (patches tr) <= i)%nat
  /\ (forall s, o = Returns (Next s) ->
      (i <= length (api.Datacenters cassandra))%nat ->
      length (patches tr) = i).
Proof.
  intros [e| |c e Hnf|c e Hnf|c e e' Hnf|c stored e Hm
         |c stored actual tr' o' Hm Hs|c actual tr' o' Hm Hs];
    try (split; [simpl; lia|discriminate]).
  - rewrite patches_app. exact (settled_patch_count _ _ _ _ _ _ _ _ Hs).
  - rewrite patches_app. exact (settled_patch_count _ _ _ _ _ _ _ _ Hs).
Qed.

Lemma turns_patch_count req k8ssandra cassandra (i : nat) seeds templates tr o :
  turns req k8ssandra cassandra i seeds templates tr o ->
  (2 * length (patches tr)
   <= 2 * length templates * i + length templates * (length templates - 1))%nat
  /\ (forall s, o = Returns (Next s) ->
      (i + length templates <= length (api.Datacenters cassandra))%nat ->
      (2 * length (patches tr)
       = 2 * length templates * i + length templates * (length templates - 1))%nat).
Proof.
  induction 1 as [i seeds|i seeds template templates tr seeds' tr' o Ht Hts [IH1 IH2]
                 |i seeds template templates tr res' err' Ht
                 |i seeds template templates tr msg' Ht].
  - split; [simpl; lia|]. intros; simpl; lia.
  - destruct (turn_patch_count _ _ _ _ _ _ _ _ Ht) as [H1 H2].
    rewrite patches_app, length_app. cbn [length].
    replace (S (length templates) - 1)%nat with (length templates) by lia.
    split.
    + destruct (length templates) as [|m]; [nia|].
      replace (S m - 1)%nat with m in IH1 by lia. nia.
    + intros s Ho Hi. cbn [length] in Hi.
      rewrite (H2 seeds' eq_refl) by lia.
      assert (S i + length templates <= length (api.Datacenters cassandra))%nat
        as Hi' by lia.
      specialize (IH2 s Ho Hi').
      destruct (length templates) as [|m]; [nia|].
      replace (S m - 1)%nat with m in IH2 by lia. nia.
  - destruct (turn_patch_count _ _ _ _ _ _ _ _ Ht) as [H1 _].
    split; [cbn [length]; nia|discriminate].
  - destruct (turn_patch_count _ _ _ _ _ _ _ _ Ht) as [H1 _].
    split; [cbn [length]; nia|discriminate].
Qed.

(** The calls of the loop of [Reconcile] for a cluster resource. *)
Lemma Reconcile_loop req w k8ssandra w1 cassandra o w' tr :
  Reconcile req w = (o, w', tr) ->
  reconciler_Get (ctrl.NamespacedName req) w = (Ok k8ssandra, w1) ->
  api.Cassandra (api.Spec k8ssandra) = Some cassandra ->
  exists o' tr',
    turns req k8ssandra cassandra 0 None (api.Datacenters cassandra) tr' o'
    /\ o = afterLoop o'
    /\ tr = EvReconcilerGet (ctrl.NamespacedName req) (Ok k8ssandra) :: tr'.
Proof.
  intros Hrun HG HC. unfold Reconcile in Hrun.
  unfold bind at 1 in Hrun. unfold call_reconciler_Get in Hrun.
  rewrite HG in Hrun. cbv beta iota zeta in Hrun. rewrite HC in Hrun.
  unfold bind in Hrun.
  destruct (reconcileDatacenters req k8ssandra cassandra 0 None
              (api.Datacenters cassandra) w1) as [[o2 w2] tr2] eqn:E2.
  apply (reconcileDatacenters_turns req k8ssandra cassandra HC
           (api.Datacenters cassandra) 0%nat None w1 o2 w2 tr2 (Nat.le_refl _))
    in E2.
  exists o2, tr2. split; [exact E2|].
  destruct o2 as [[seeds|res err]|msg]; injection Hrun as <- <- <-;
    rewrite ?app_nil_r; split; reflexivity.
Qed.

(** X7.  Seed propagation is quadratic, and no more: a pass over a cluster
    of [n] datacenters makes at most [n * (n - 1) / 2] [Patch] calls, since
    the turn of the datacenter at position [i] patches the [i] datacenters
    before it at most once each.  A cluster of one datacenter is never
    patched. *)
Theorem patches_of_a_pass req w k8ssandra w1 cassandra o w' tr :
  Reconcile req w = (o, w', tr) ->
  reconciler_Get (ctrl.NamespacedName req) w = (Ok k8ssandra, w1) ->
  api.Cassandra (api.Spec k8ssandra) = Some cassandra ->
  (2 * length (patches tr)
   <= length (api.Datacenters cassandra) * (length (api.Datacenters cassandra) - 1))%nat
  /\ ((length (api.Datacenters cassandra) <= 1)%nat -> patches tr = []).
Proof.
  intros Hrun HG HC.
  destruct (Reconcile_loop _ _ _ _ _ _ _ _ Hrun HG HC) as (o' & tr' & Hts & _ & ->).
  destruct (turns_patch_count _ _ _ _ _ _ _ _ Hts) as [H1 _].
  change (patches (EvReconcilerGet (ctrl.NamespacedName req) (Ok k8ssandra) :: tr'))
    with (patches tr').
  split; [lia|].
  intros Hn. destruct (patches tr') as [|ev l]; [reflexivity|].
  cbn [length] in H1.
  destruct (length (api.Datacenters cassandra)) as [|[|n]]; simpl in H1; lia.
Qed.

(** X8.  A pass that returns [ctrl.Result{}] and a nil error for a cluster
    with a Cassandra specification has found every datacenter ready: it
    listed the pods of each of its [n] datacenters with success, in one
    [List] call each, it created nothing, and it patched the datacenters
    before each position, [n * (n - 1) / 2] patches in all, none refused. *)
Theorem finished_pass req w k8ssandra w1 cassandra w' tr :
  Reconcile req w = (Returns (ctrl.zero, None), w', tr) ->
  reconciler_Get (ctrl.NamespacedName req) w = (Ok k8ssandra, w1) ->
  api.Cassandra (api.Spec k8ssandra) = Some cassandra ->
  length (discoveries tr) = length (api.Datacenters cassandra)
  /\ creates tr = []
  /\ (2 * length (patches tr)
      = length (api.Datacenters cassandra)
        * (length (api.Datacenters cassandra) - 1))%nat
  /\ List.filter rejectedPatch tr = [].
Proof.
  intros Hrun HG HC.
  pose proof (pass_stops _ _ _ (Reconcile_pass _ _ _ _ _ Hrun)) as Hstops.
  destruct (Reconcile_loop _ _ _ _ _ _ _ _ Hrun HG HC) as (o' & tr' & Hts & Ho & ->).
  destruct o' as [[s|res err]|msg]; try discriminate Ho.
  2:{ injection Ho as <- <-.
      pose proof (turns_result _ _ _ _ _ _ _ _ _ _ Hts eq_refl) as H.
      discriminate H. }
  destruct (turns_next_seeds _ _ _ _ _ _ _ _ Hts) as [Hd _].
  destruct (turns_patch_count _ _ _ _ _ _ _ _ Hts) as [_ Hp].
  specialize (Hp s eq_refl (Nat.le_refl _)).
  split; [exact Hd|]. split; [|split; [simpl in *; lia|]].
  - unfold creates.
    destruct (List.filter _ _) as [|e l] eqn:E; [reflexivity|].
    assert (In e (e :: l)) as Hin by (left; reflexivity).
    rewrite <- E in Hin. apply List.filter_In in Hin. destruct Hin as [Hin He].
    apply in_split in Hin. destruct Hin as (b1 & b2 & Heq).
    destruct e as [| | |c obj r| | |]; try discriminate He.
    destruct (Hstops _ _ _ Heq eq_refl) as (_ & _ & H3 & H4 & _).
    destruct r as [err|].
    + specialize (H3 err eq_refl). discriminate H3.
    + specialize (H4 c obj eq_refl). discriminate H4.
  - destruct (List.filter rejectedPatch _) as [|e l] eqn:E; [reflexivity|].
    assert (In e (e :: l)) as Hin by (left; reflexivity).
    rewrite <- E in Hin. apply List.filter_In in Hin. destruct Hin as [Hin He].
    apply in_split in Hin. destruct Hin as (b1 & b2 & Heq).
    destruct e as [| | | | | |c obj patch [err|]]; try discriminate He.
    destruct (Hstops _ _ _ Heq eq_refl) as (_ & _ & H3 & _).
    specialize (H3 err eq_refl). discriminate H3.
Qed.

(** ** The seeds of a pass *)

Lemma discoveries_short tr : Forall (fun d : list string => (length d <= 3)%nat)
                               (discoveries tr).
Proof.
  induction tr as [|ev tr IH]; [constructor|].
  destruct ev as [| | | | |c l [items|err]|]; simpl; try exact IH.
  constructor; [|exact IH].
  rewrite collectEndpoints_take, length_map, length_take. lia.
Qed.

Lemma concat_short (ds : list (list string)) :
  Forall (fun d : list string => (length d <= 3)%nat) ds ->
  (length (concat ds) <= 3 * length ds)%nat.
Proof.
  induction 1 as [|d ds Hd _ IH]; simpl; [lia|].
  rewrite length_app. lia.
Qed.

Lemma append_nilOrFilled (s xs : slice.t) :
  nilOrFilled s -> nilOrFilled (slice.append s xs).
Proof.
  intros H. unfold slice.append. destruct (slice.elems xs) as [|x l] eqn:E.
  - exact H.
  - right. simpl. destruct (slice.elems s); discriminate.
Qed.

Lemma turn_next_append req k8ssandra cassandra (i : nat) template seeds tr seeds' :
  turn req k8ssandra cassandra i template seeds tr (Returns (Next seeds')) ->
  exists items, seeds' = slice.append seeds (Some (collectEndpoints items [])).
Proof.
  intros H.
  assert (forall c actual tr' o,
            settled k8ssandra cassandra i seeds c actual tr' o ->
            o = Returns (Next seeds') ->
            exists items,
              seeds' = slice.append seeds (Some (collectEndpoints items []))) as Hs.
  { intros c actual tr' o [Hready|err Hready|items tr'' o' Hready Hp] Ho;
      try discriminate Ho.
    destruct o' as [[err|]|msg]; try discriminate Ho.
    injection Ho as <-. exists items. reflexivity. }
  inversion H as [| | | | | |c stored actual tr' o Hm Hs'|c actual tr' o Hm Hs'];
    subst; exact (Hs _ _ _ _ Hs' eq_refl).
Qed.

Lemma turns_next_nilOrFilled req k8ssandra cassandra (i : nat) seeds templates tr o :
  turns req k8ssandra cassandra i seeds templates tr o ->
  forall seeds', o = Returns (Next seeds') ->
  nilOrFilled seeds -> nilOrFilled seeds'.
Proof.
  induction 1 as [i seeds|i seeds template templates tr s1 tr' o Ht Hts IH
                 |i seeds template templates tr res' err' Ht
                 |i seeds template templates tr msg' Ht]; intros seeds' Ho Hn;
    try discriminate Ho.
  - injection Ho as <-. exact Hn.
  - apply (IH seeds' Ho).
    destruct (turn_next_append _ _ _ _ _ _ _ _ Ht) as (items & ->).
    apply append_nilOrFilled. exact Hn.
Qed.

(** X9.  The seeds a pass collects are bounded: when it reaches a position,
    it holds at most three seeds for each datacenter before that position,
    since each discovery keeps at most three endpoints.  And the seeds are
    nil or have an element, never an empty slice: a datacenter that is
    ready and has no pod yet leaves them as they were. *)
Theorem collected_seeds_are_bounded req w0 k8ssandra cassandra done templates seeds
  w tr :
  reaches req w0 k8ssandra cassandra done seeds w tr ->
  api.Datacenters cassandra = done ++ templates ->
  (length (slice.elems seeds) <= 3 * length done)%nat
  /\ (seeds = None \/ slice.elems seeds <> []).
Proof.
  intros [w1 tr1 HG HC Hloop ->] Hd.
  apply (reconcileDatacenters_turns req k8ssandra cassandra HC) in Hloop.
  2:{ rewrite Hd, length_app. lia. }
  destruct (turns_next_seeds _ _ _ _ _ _ _ _ Hloop) as [H1 H2].
  split.
  - rewrite H2. simpl. rewrite <- H1.
    apply concat_short, discoveries_short.
  - apply (turns_next_nilOrFilled _ _ _ _ _ _ _ _ Hloop seeds eq_refl).
    left. reflexivity.
Qed.

Lemma appendsDiscovered_app tr1 : forall s tr2,
  appendsDiscovered s (tr1 ++ tr2)
  <-> appendsDiscovered s tr1
      /\ appendsDiscovered (s ++ concat (discoveries tr1)) tr2.
Proof.
  induction tr1 as [|ev tr1 IH]; intros s tr2.
  - simpl. rewrite app_nil_r. tauto.
  - destruct ev as [| | | | |c l [items|err]|]; simpl; rewrite ?IH;
      rewrite <- ?app_assoc; tauto.
Qed.

Lemma appendsDiscovered_patch tr : forall s before c obj patch r after,
  appendsDiscovered s tr ->
  tr = before ++ EvPatch c obj patch r :: after ->
  slice.elems (cassdcapi.AdditionalSeeds (cassdcapi.Spec obj))
  = slice.elems (cassdcapi.AdditionalSeeds (cassdcapi.Spec (client.from patch)))
    ++ s ++ concat (discoveries before)
  /\ slice.isNil (cassdcapi.AdditionalSeeds (cassdcapi.Spec obj)) = false.
Proof.
  intros s before c obj patch r after H ->.
  apply appendsDiscovered_app in H. destruct H as [_ H].
  simpl in H. destruct H as [[H1 H2] _]. split; [exact H1|exact H2].
Qed.

Lemma seeded_not_nil dc (seeds : slice.t) :
  slice.isNil (cassdcapi.AdditionalSeeds (cassdcapi.Spec (seeded dc seeds))) = false.
Proof.
  unfold seeded, slice.append.
  destruct (cassdcapi.AdditionalSeeds (cassdcapi.Spec dc)) as [l|] eqn:E; simpl;
    rewrite ?E; destruct (slice.elems seeds); reflexivity.
Qed.

Lemma propagated_appends k8ssandra seeds templates tr o :
  propagated k8ssandra seeds templates tr o ->
  appendsDiscovered (slice.elems seeds) tr.
Proof.
  induction 1 as [|template templates c' dc tr o H IH|template templates c' dc err'
                  |template templates c' err'|template templates err'
                  |template templates msg']; simpl; auto.
  - split; [split; [apply seeded_seeds|apply seeded_not_nil]|exact IH].
  - split; [split; [apply seeded_seeds|apply seeded_not_nil]|exact I].
Qed.

Lemma settled_appends k8ssandra cassandra (i : nat) seeds c actual tr o :
  settled k8ssandra cassandra i seeds c actual tr o ->
  appendsDiscovered (slice.elems seeds) tr.
Proof.
  intros [Hready|err Hready|items tr' o' Hready Hp]; simpl; auto.
  apply propagated_appends in Hp. rewrite elems_append in Hp. exact Hp.
Qed.

Lemma turn_appends req k8ssandra cassandra (i : nat) template seeds tr o :
  turn req k8ssandra cassandra i template seeds tr o ->
  appendsDiscovered (slice.elems seeds) tr.
Proof.
  intros [e| |c e Hnf|c e Hnf|c e e' Hnf|c stored e Hm
         |c stored actual tr' o' Hm Hs|c actual tr' o' Hm Hs]; simpl; auto;
    exact (settled_appends _ _ _ _ _ _ _ _ Hs).
Qed.

Lemma turns_appends req k8ssandra cassandra (i : nat) seeds templates tr o :
  turns req k8ssandra cassandra i seeds templates tr o ->
  appendsDiscovered (slice.elems seeds) tr.
Proof.
  induction 1 as [i seeds|i seeds template templates tr s1 tr' o Ht Hts IH
                 |i seeds template templates tr res' err' Ht
                 |i seeds template templates tr msg' Ht].
  - exact I.
  - apply appendsDiscovered_app. split; [exact (turn_appends _ _ _ _ _ _ _ _ Ht)|].
    destruct (turn_next_seeds _ _ _ _ _ _ _ _ Ht) as (endpoints & H1 & H2).
    rewrite H1. simpl. rewrite app_nil_r, <- H2. exact IH.
  - exact (turn_appends _ _ _ _ _ _ _ _ Ht).
  - exact (turn_appends _ _ _ _ _ _ _ _ Ht).
Qed.

Lemma pass_appends req tr o : pass req tr o -> appendsDiscovered [] tr.
Proof.
  intros [e Hnf|e Hnf|k8ssandra HC|k8ssandra cassandra tr' o' HC Hts]; try exact I.
  exact (turns_appends _ _ _ _ _ _ _ _ Hts).
Qed.

(** X10.  Every patch of a pass appends, and nothing else: the additional
    seeds it sends are those of the datacenter just fetched, followed by all
    the endpoints the pass has discovered so far, in the order of discovery,
    and they are never nil.  Nothing is removed from what the datacenter
    had. *)
Theorem patch_appends_discovered_seeds req w o w' tr before c obj patch r after :
  Reconcile req w = (o, w', tr) ->
  tr = before ++ EvPatch c obj patch r :: after ->
  slice.elems (cassdcapi.AdditionalSeeds (cassdcapi.Spec obj))
  = slice.elems (cassdcapi.AdditionalSeeds (cassdcapi.Spec (client.from patch)))
    ++ concat (discoveries before)
  /\ slice.isNil (cassdcapi.AdditionalSeeds (cassdcapi.Spec obj)) = false.
Proof.
  intros Hrun Heq. apply Reconcile_pass, pass_appends in Hrun.
  exact (appendsDiscovered_patch _ _ _ _ _ _ _ _ Hrun Heq).
Qed.

(** X18.  Seed propagation does not look at what a datacenter already has
    (line 248 leaves the duplicates as a TODO): when an endpoint that the
    pass has discovered is already among the additional seeds of the
    datacenter fetched, the patch sends it twice.  So a pass over a cluster
    that was propagated to before sends lists with duplicates, and the lists
    grow with every such pass. *)
Theorem patch_repeats_known_seeds req w o w' tr before c obj patch r after
  (endpoint : string) :
  Reconcile req w = (o, w', tr) ->
  tr = before ++ EvPatch c obj patch r :: after ->
  In endpoint (slice.elems (cassdcapi.AdditionalSeeds
                              (cassdcapi.Spec (client.from patch)))) ->
  In endpoint (concat (discoveries before)) ->
  ~ NoDup (slice.elems (cassdcapi.AdditionalSeeds (cassdcapi.Spec obj)))
  /\ (length (slice.elems (cassdcapi.AdditionalSeeds
                             (cassdcapi.Spec (client.from patch))))
      < length (slice.elems (cassdcapi.AdditionalSeeds (cassdcapi.Spec obj))))%nat.
Proof.
  intros Hrun Heq H1 H2. apply Reconcile_pass, pass_appends in Hrun.
  destruct (appendsDiscovered_patch _ _ _ _ _ _ _ _ Hrun Heq) as [He _].
  simpl in He. rewrite He. split.
  - intros Hnd. apply NoDup_app in Hnd. destruct Hnd as (_ & Hd & _).
    apply (Hd endpoint); apply list_elem_of_In; assumption.
  - rewrite length_app.
    destruct (concat (discoveries before)); [destruct H2|simpl; lia].
Qed.

(** ** Which client, and what comes before a write *)

Lemma usesLatest_app tr1 : forall cur tr2,
  usesLatest cur (tr1 ++ tr2)
  <-> usesLatest cur tr1 /\ usesLatest (latest cur tr1) tr2.
Proof.
  induction tr1 as [|ev tr1 IH]; intros cur tr2.
  - simpl. tauto.
  - destruct ev as [|key s x [[c|]|e]| | | | |]; simpl; rewrite ?IH; tauto.
Qed.

Lemma usesLatest_call tr : forall cur before ev after c,
  usesLatest cur tr ->
  tr = before ++ ev :: after ->
  clientOf ev = Some c ->
  latest cur before = Some c.
Proof.
  intros cur before ev after c H -> Hc.
  apply usesLatest_app in H. destruct H as [_ H].
  destruct ev as [|key s x [[c'|]|e]| | | | |]; simpl in Hc; try discriminate Hc;
    injection Hc as ->; simpl in H; destruct H as [H _]; exact H.
Qed.

(** A trace that starts by asking the cache for a client uses that client,
    whatever came before. *)
Lemma propagated_usesLatest k8ssandra seeds templates tr o :
  propagated k8ssandra seeds templates tr o ->
  forall cur, usesLatest cur tr.
Proof.
  induction 1 as [|template templates c' dc tr o H IH|template templates c' dc err'
                  |template templates c' err'|template templates err'
                  |template templates msg']; intros cur; simpl; auto.
Qed.

Lemma settled_usesLatest k8ssandra cassandra (i : nat) seeds c actual tr o :
  settled k8ssandra cassandra i seeds c actual tr o ->
  usesLatest (Some c) tr.
Proof.
  intros [Hready|err Hready|items tr' o' Hready Hp]; simpl; auto.
  split; [reflexivity|]. exact (propagated_usesLatest _ _ _ _ _ Hp _).
Qed.

Lemma turn_usesLatest req k8ssandra cassandra (i : nat) template seeds tr o :
  turn req k8ssandra cassandra i template seeds tr o ->
  forall cur, usesLatest cur tr.
Proof.
  intros [e| |c e Hnf|c e Hnf|c e e' Hnf|c stored e Hm
         |c stored actual tr' o' Hm Hs|c actual tr' o' Hm Hs] cur; simpl; auto;
    repeat (split; [reflexivity|]); exact (settled_usesLatest _ _ _ _ _ _ _ _ Hs).
Qed.

Lemma turns_usesLatest req k8ssandra cassandra (i : nat) seeds templates tr o :
  turns req k8ssandra cassandra i seeds templates tr o ->
  forall cur, usesLatest cur tr.
Proof.
  induction 1 as [i seeds|i seeds template templates tr s1 tr' o Ht Hts IH
                 |i seeds template templates tr res' err' Ht
                 |i seeds template templates tr msg' Ht]; intros cur.
  - exact I.
  - apply usesLatest_app. split; [exact (turn_usesLatest _ _ _ _ _ _ _ _ Ht cur)|].
    apply IH.
  - exact (turn_usesLatest _ _ _ _ _ _ _ _ Ht cur).
  - exact (turn_usesLatest _ _ _ _ _ _ _ _ Ht cur).
Qed.

(** X11.  A pass holds no client of its own: every call it makes to a remote
    cluster ([Get], [Create], [Update], [List], [Patch]) goes through the
    client that the client cache handed out last, so no remote cluster is
    called before the cache was asked, and a client is not used again once
    the cache has resolved another one. *)
Theorem remote_calls_use_the_latest_client req w o w' tr before ev after c :
  Reconcile req w = (o, w', tr) ->
  tr = before ++ ev :: after ->
  clientOf ev = Some c ->
  latest None before = Some c.
Proof.
  intros Hrun Heq Hc. apply Reconcile_pass in Hrun.
  assert (usesLatest None tr) as H.
  { destruct Hrun as [e Hnf|e Hnf|k8ssandra HC|k8ssandra cassandra tr' o' HC Hts];
      try exact I.
    exact (turns_usesLatest _ _ _ _ _ _ _ _ Hts None). }
  exact (usesLatest_call _ _ _ _ _ _ H Heq Hc).
Qed.

Lemma guarded_app tr1 : forall prev tr2,
  guarded prev tr1 -> (forall p, guarded p tr2) -> guarded prev (tr1 ++ tr2).
Proof.
  induction tr1 as [|ev tr1 IH]; intros prev tr2 H1 H2.
  - apply H2.
  - destruct H1 as [H0 H1]. split; [exact H0|]. apply IH; [exact H1|exact H2].
Qed.

Lemma guarded_call (before : list (Event Client)) : forall prev ev after,
  guarded prev (before ++ ev :: after) ->
  fetchedFirst (match last before with Some e => Some e | None => prev end) ev.
Proof.
  induction before as [|e before IH]; intros prev ev after H.
  - destruct H as [H _]. exact H.
  - destruct H as [_ H]. specialize (IH (Some e) ev after H).
    destruct before as [|e' before]; [exact IH|].
    change (last (e :: e' :: before)) with (last (e' :: before)).
    destruct (last (e' :: before)) eqn:E; [exact IH|].
    apply last_None in E. discriminate E.
Qed.

Lemma propagated_guarded k8ssandra seeds templates tr o :
  propagated k8ssandra seeds templates tr o ->
  forall prev, guarded prev tr.
Proof.
  induction 1 as [|template templates c' dc tr o H IH|template templates c' dc err'
                  |template templates c' err'|template templates err'
                  |template templates msg']; intros prev; simpl; auto.
  - split; [exact I|]. split; [exact I|]. split; [|apply IH].
    eexists. split; [reflexivity|]. split; [exact (seeded_meta dc seeds)|reflexivity].
  - split; [exact I|]. split; [exact I|]. split; [|exact I].
    eexists. split; [reflexivity|]. split; [exact (seeded_meta dc seeds)|reflexivity].
Qed.

Lemma settled_guarded k8ssandra cassandra (i : nat) seeds c actual tr o :
  settled k8ssandra cassandra i seeds c actual tr o ->
  forall prev, guarded prev tr.
Proof.
  intros [Hready|err Hready|items tr' o' Hready Hp] prev; simpl; auto.
  split; [exact I|]. exact (propagated_guarded _ _ _ _ _ Hp _).
Qed.

Lemma turn_guarded req k8ssandra cassandra (i : nat) template seeds tr o :
  turn req k8ssandra cassandra i template seeds tr o ->
  forall prev, guarded prev tr.
Proof.
  intros [e| |c e Hnf|c e Hnf|c e e' Hnf|c stored e Hm
         |c stored actual tr' o' Hm Hs|c actual tr' o' Hm Hs] prev;
    try (simpl; auto; fail).
  - split; [exact I|]. split; [exact I|]. split; [|exact I].
    exists e. split; [reflexivity|exact Hnf].
  - split; [exact I|]. split; [exact I|]. split; [|exact I].
    exists e. split; [reflexivity|exact Hnf].
  - split; [exact I|]. split; [exact I|]. split; [|exact I].
    exists stored. reflexivity.
  - apply guarded_app; [|exact (settled_guarded _ _ _ _ _ _ _ _ Hs)].
    split; [exact I|]. split; [exact I|]. split; [|exact I].
    exists stored. reflexivity.
  - apply guarded_app; [|exact (settled_guarded _ _ _ _ _ _ _ _ Hs)].
    split; [exact I|]. split; [exact I|exact I].
Qed.

Lemma turns_guarded req k8ssandra cassandra (i : nat) seeds templates tr o :
  turns req k8ssandra cassandra i seeds templates tr o ->
  forall prev, guarded prev tr.
Proof.
  induction 1 as [i seeds|i seeds template templates tr s1 tr' o Ht Hts IH
                 |i seeds template templates tr res' err' Ht
                 |i seeds template templates tr msg' Ht]; intros prev.
  - exact I.
  - apply guarded_app; [exact (turn_guarded _ _ _ _ _ _ _ _ Ht prev)|exact IH].
  - exact (turn_guarded _ _ _ _ _ _ _ _ Ht prev).
  - exact (turn_guarded _ _ _ _ _ _ _ _ Ht prev).
Qed.

(** X12.  A pass never writes blindly: the call just before a [Create], an
    [Update] or a [Patch] is the [Get] of the object written, through the
    same client.  Before a creation the fetch answered that there is no such
    datacenter; before an update it answered with the stored datacenter;
    a patch is computed against the datacenter just fetched, keeps its
    metadata, and is bound to its resource version. *)
Theorem writes_follow_a_fetch req w o w' tr before ev after :
  Reconcile req w = (o, w', tr) ->
  tr = before ++ ev :: after ->
  fetchedFirst (last before) ev.
Proof.
  intros Hrun Heq. apply Reconcile_pass in Hrun.
  assert (guarded None tr) as H.
  { destruct Hrun as [e Hnf|e Hnf|k8ssandra HC|k8ssandra cassandra tr' o' HC Hts];
      try (split; exact I).
    split; [exact I|]. exact (turns_guarded _ _ _ _ _ _ _ _ Hts _). }
  subst tr. pose proof (guarded_call _ _ _ _ H) as Hc.
  destruct (last before); exact Hc.
Qed.

(** ** A datacenter that is not there *)

Lemma absent_quiet {A : Type} tr (o : outcome A) goes_on carry :
  absent_ends tr o goes_on carry -> goes_on o ->
  Forall (fun e => notFoundGet e = false) tr.
Proof.
  intros H Ho. apply List.Forall_forall. intros ev Hin.
  destruct (notFoundGet ev) eqn:E; [|reflexivity].
  apply in_split in Hin. destruct Hin as (before & after & ->).
  destruct (H before ev after eq_refl E) as (Hn & _).
  destruct (Hn Ho).
Qed.

Ltac absent_none :=
  let Heq := fresh "Heq" in
  intros [|? ?] ? ? Heq; discriminate Heq.

Lemma propagated_absent k8ssandra seeds templates tr o :
  propagated k8ssandra seeds templates tr o ->
  absent_ends tr o (fun o => o = Returns None) (fun err => Returns (Some err)).
Proof.
  induction 1 as [|template templates c' dc tr o H IH|template templates c' dc err'
                  |template templates c' err'|template templates err'
                  |template templates msg].
  - absent_none.
  - intros before ev after Heq Hev.
    apply (split_after_quiet notFoundGet) in Heq; [|repeat constructor|exact Hev].
    destruct Heq as (before2 & -> & Heq).
    exact (IH _ _ _ Heq Hev).
  - stops_cases.
  - stops_cases. split; [intros ?; discriminate|].
    right. split; [reflexivity|]. intros ? ? ? [= <- <- <-]. reflexivity.
  - stops_cases.
  - stops_cases.
Qed.

Lemma settled_absent k8ssandra cassandra (i : nat) seeds c actual tr o :
  settled k8ssandra cassandra i seeds c actual tr o ->
  absent_ends tr o (fun o => exists s, o = Returns (Next s))
    (fun err => Returns (Return ctrl.zero (Some err))).
Proof.
  intros [Hready|err Hready|items tr' o' Hready Hp].
  - absent_none.
  - stops_cases.
  - intros before ev after Heq Hev.
    apply (split_after_quiet notFoundGet [EvList c (seedSelector actual) (Ok items)])
      in Heq; [|repeat constructor|exact Hev].
    destruct Heq as (before2 & -> & Heq).
    destruct (propagated_absent _ _ _ _ _ Hp _ _ _ Heq Hev) as (H1 & H2).
    split; [intros [s Hs]; apply afterPropagation_goes_on in Hs; exact (H1 Hs)|].
    destruct H2 as [H2|[H2 H3]]; [left; exact H2|].
    right. split; [exact H2|].
    intros c0 key err Hget. rewrite (H3 c0 key err Hget). reflexivity.
Qed.

Lemma turn_absent req k8ssandra cassandra (i : nat) template seeds tr o :
  turn req k8ssandra cassandra i template seeds tr o ->
  absent_ends tr o (fun o => exists s, o = Returns (Next s))
    (fun err => Returns (Return ctrl.zero (Some err))).
Proof.
  intros [err| |c err Hnf|c err Hnf|c err err' Hnf|c stored err Hm
         |c stored actual tr' o' Hm Hs|c actual tr' o' Hm Hs].
  - stops_cases.
  - stops_cases.
  - stops_cases. congruence.
  - stops_cases. split; [intros [? ?]; discriminate|].
    left. eexists _, _, _. split; [reflexivity|]. exists err. reflexivity.
  - stops_cases. split; [intros [? ?]; discriminate|].
    left. eexists _, _, _. split; [reflexivity|]. exists err. reflexivity.
  - stops_cases.
  - intros before ev after Heq Hev.
    apply (split_after_quiet notFoundGet) in Heq; [|repeat constructor|exact Hev].
    destruct Heq as (before2 & -> & Heq).
    exact (settled_absent _ _ _ _ _ _ _ _ Hs _ _ _ Heq Hev).
  - intros before ev after Heq Hev.
    apply (split_after_quiet notFoundGet) in Heq; [|repeat constructor|exact Hev].
    destruct Heq as (before2 & -> & Heq).
    exact (settled_absent _ _ _ _ _ _ _ _ Hs _ _ _ Heq Hev).
Qed.

Lemma turns_absent req k8ssandra cassandra (i : nat) seeds templates tr o :
  turns req k8ssandra cassandra i seeds templates tr o ->
  absent_ends tr o (fun o => exists s, o = Returns (Next s))
    (fun err => Returns (Return ctrl.zero (Some err))).
Proof.
  induction 1 as [i seeds|i seeds template templates tr seeds' tr' o Ht Hts IH
                 |i seeds template templates tr res err Ht
                 |i seeds template templates tr msg Ht].
  - absent_none.
  - intros before ev after Heq Hev.
    apply (split_after_quiet notFoundGet) in Heq;
      [|exact (absent_quiet _ _ _ _ (turn_absent _ _ _ _ _ _ _ _ Ht)
                 (ex_intro _ seeds' eq_refl))|exact Hev].
    destruct Heq as (before2 & -> & Heq).
    exact (IH _ _ _ Heq Hev).
  - exact (turn_absent _ _ _ _ _ _ _ _ Ht).
  - exact (turn_absent _ _ _ _ _ _ _ _ Ht).
Qed.

(** X13.  A fetch that answers that there is no such datacenter is handled
    in one of two ways, and both end the pass.  In the loop of [Reconcile]
    the next call creates the datacenter under the key that was fetched,
    through the same client, and is the last call.  In seed propagation the
    fetch itself is the last call and the pass returns its error with
    [ctrl.Result{}]: an earlier datacenter that has disappeared is not
    created again in that pass. *)
Theorem absent_datacenter_ends_the_pass req w o w' tr before c key err after :
  Reconcile req w = (o, w', tr) ->
  tr = before ++ EvGet c key (Err err) :: after ->
  errors.IsNotFound err = true ->
  (exists obj r, after = [EvCreate c obj r] /\ keyOf obj = key)
  \/ (after = [] /\ o = Returns (ctrl.zero, Some err)).
Proof.
  intros Hrun Heq Hnf. apply Reconcile_pass in Hrun.
  destruct Hrun as [e He|e He|k8ssandra HC|k8ssandra cassandra tr' o' HC Hts].
  - destruct before as [|? [|? ?]]; discriminate Heq.
  - destruct before as [|? [|? ?]]; discriminate Heq.
  - destruct before as [|? [|? ?]]; discriminate Heq.
  - apply (split_after_quiet notFoundGet
             [EvReconcilerGet (ctrl.NamespacedName req) (Ok k8ssandra)])
      in Heq; [|repeat constructor|exact Hnf].
    destruct Heq as (before2 & -> & Heq).
    destruct (turns_absent _ _ _ _ _ _ _ _ Hts _ _ _ Heq Hnf) as (_ & [H|[H1 H2]]).
    + left. destruct H as (c0 & obj & r & -> & err0 & Hget).
      injection Hget as -> -> _. exists obj, r. split; reflexivity.
    + right. split; [exact H1|]. rewrite (H2 c key err eq_refl). reflexivity.
Qed.

(** ** The cluster resource *)

Lemma propagated_no_cluster_fetch k8ssandra seeds templates tr o :
  propagated k8ssandra seeds templates tr o ->
  List.filter isReconcilerGet tr = [].
Proof.
  induction 1 as [|template templates c' dc tr o H IH| | | |]; try reflexivity.
  rewrite List.filter_app, IH. reflexivity.
Qed.

Lemma settled_no_cluster_fetch k8ssandra cassandra (i : nat) seeds c actual tr o :
  settled k8ssandra cassandra i seeds c actual tr o ->
  List.filter isReconcilerGet tr = [].
Proof.
  intros [Hready|err Hready|items tr' o' Hready Hp]; try reflexivity.
  simpl. exact (propagated_no_cluster_fetch _ _ _ _ _ Hp).
Qed.

Lemma turn_no_cluster_fetch req k8ssandra cassandra (i : nat) template seeds tr o :
  turn req k8ssandra cassandra i template seeds tr o ->
  List.filter isReconcilerGet tr = [].
Proof.
  intros [err| |c err Hnf|c err Hnf|c err err' Hnf|c stored err Hm
         |c stored actual tr' o' Hm Hs|c actual tr' o' Hm Hs]; try reflexivity;
    rewrite List.filter_app, (settled_no_cluster_fetch _ _ _ _ _ _ _ _ Hs);
    reflexivity.
Qed.

Lemma turns_no_cluster_fetch req k8ssandra cassandra (i : nat) seeds templates tr o :
  turns req k8ssandra cassandra i seeds templates tr o ->
  List.filter isReconcilerGet tr = [].
Proof.
  induction 1 as [i seeds|i seeds template templates tr seeds' tr' o Ht Hts IH
                 |i seeds template templates tr res err Ht
                 |i seeds template templates tr msg Ht]; try reflexivity;
    try exact (turn_no_cluster_fetch _ _ _ _ _ _ _ _ Ht).
  rewrite List.filter_app, IH, (turn_no_cluster_fetch _ _ _ _ _ _ _ _ Ht).
  reflexivity.
Qed.

(** X14.  A pass reads the cluster resource once, as its first call, under
    the key of the request, and works from that copy to the end: the
    resource is not fetched again, whatever the pass goes on to do. *)
Theorem cluster_is_fetched_once req w o w' tr :
  Reconcile req w = (o, w', tr) ->
  exists later,
    tr = EvReconcilerGet (ctrl.NamespacedName req)
           (fst (reconciler_Get (ctrl.NamespacedName req) w)) :: later
    /\ List.filter isReconcilerGet later = [].
Proof.
  intros Hrun. pose proof (Reconcile_pass _ _ _ _ _ Hrun) as Hp.
  assert (exists r later, tr = EvReconcilerGet (ctrl.NamespacedName req) r :: later
                          /\ List.filter isReconcilerGet later = []) as (r & later & -> & H).
  { destruct Hp as [e He|e He|k8ssandra HC|k8ssandra cassandra tr' o' HC Hts].
    - eexists _, []. split; reflexivity.
    - eexists _, []. split; reflexivity.
    - eexists _, []. split; reflexivity.
    - eexists _, tr'. split; [reflexivity|].
      exact (turns_no_cluster_fetch _ _ _ _ _ _ _ _ Hts). }
  exists later. split; [|exact H].
  unfold Reconcile in Hrun. unfold bind at 1 in Hrun.
  unfold call_reconciler_Get in Hrun.
  destruct (reconciler_Get (ctrl.NamespacedName req) w) as [r0 w1].
  cbv beta iota zeta in Hrun.
  match type of Hrun with
  | context [match ?x with pair _ _ => _ end] => destruct x as [[o2 w2] tr2]
  end.
  injection Hrun as _ _ <- _. reflexivity.
Qed.

(** ** The functions of seed propagation *)

(** X15.  [getDatacenterForTemplate] reads [Datacenters[idx]] before any
    call: without a Cassandra specification, with a negative index or with
    one past the end it panics and has called nothing.  With an index in
    range its first call asks the client cache for the context of the
    template at that index, under the key of the cluster resource. *)
Theorem getDatacenterForTemplate_bounds k8ssandra (idx : Z) w :
  match api.Cassandra (api.Spec k8ssandra) with
  | None =>
      exists msg, getDatacenterForTemplate k8ssandra idx w = (Panics msg, w, [])
  | Some cassandra =>
      if (0 <=? idx) && (idx <? Z.of_nat (length (api.Datacenters cassandra)))
      then
        exists dcTemplate later,
          api.Datacenters cassandra !! Z.to_nat idx = Some dcTemplate
          /\ snd (getDatacenterForTemplate k8ssandra idx w)
             = EvGetClient (k8ssandraKeyOf k8ssandra)
                 (api.K8sContextsSecret (api.Spec k8ssandra))
                 (api.K8sContext dcTemplate)
                 (fst (ClientCache_GetClient (k8ssandraKeyOf k8ssandra)
                         (api.K8sContextsSecret (api.Spec k8ssandra))
                         (api.K8sContext dcTemplate) w))
               :: later
      else
        exists msg, getDatacenterForTemplate k8ssandra idx w = (Panics msg, w, [])
  end.
Proof.
  unfold getDatacenterForTemplate.
  destruct (api.Cassandra (api.Spec k8ssandra)) as [cassandra|].
  2:{ eexists. reflexivity. }
  unfold index.
  destruct (0 <=? idx) eqn:E0; destruct (idx <? 0) eqn:E1;
    try (apply Z.leb_le in E0); try (apply Z.leb_gt in E0);
    try (apply Z.ltb_lt in E1); try (apply Z.ltb_ge in E1); try lia; cbn [andb].
  - destruct (idx <? Z.of_nat (length (api.Datacenters cassandra))) eqn:E2.
    + apply Z.ltb_lt in E2.
      destruct (api.Datacenters cassandra !! Z.to_nat idx) as [dcTemplate|] eqn:Ht.
      2:{ apply lookup_ge_None in Ht. lia. }
      fold (k8ssandraKeyOf k8ssandra).
      exists dcTemplate. unfold bind, call_GetClient.
      destruct (ClientCache_GetClient (k8ssandraKeyOf k8ssandra)
                  (api.K8sContextsSecret (api.Spec k8ssandra))
                  (api.K8sContext dcTemplate) w) as [[[c|]|err] w1];
        cbv beta iota zeta.
      * unfold call_Get.
        destruct (client_Get c _ w1) as [[dc|err] w2]; cbv beta iota zeta;
          eexists; (split; [reflexivity|]); reflexivity.
      * eexists. split; reflexivity.
      * eexists. split; reflexivity.
    + apply Z.ltb_ge in E2.
      destruct (api.Datacenters cassandra !! Z.to_nat idx) as [dcTemplate|] eqn:Ht.
      * apply lookup_lt_Some in Ht. lia.
      * eexists. reflexivity.
  - eexists. reflexivity.
Qed.

(** Case analysis on the answer of the next call in a run [H]. *)
Ltac answer H :=
  match type of H with
  | context [ClientCache_GetClient ?k ?s ?x ?w] =>
      destruct (ClientCache_GetClient k s x w) as [[[?c|]|?err] ?w] eqn:?
  | context [client_Get ?c ?k ?w] =>
      destruct (client_Get c k w) as [[?dc|?err] ?w] eqn:?
  | context [client_Patch ?c ?o ?p ?w] =>
      destruct (client_Patch c o p w) as [[?err|] ?w] eqn:?
  end;
  cbv beta iota zeta in H; cbn [app] in H.

Lemma updateAdditionalSeeds_from_calls k8ssandra (seeds : slice.t) :
  forall (n : nat) (i : Z) w o w' tr,
    updateAdditionalSeeds_from n k8ssandra seeds i w = (o, w', tr) ->
    (length tr <= 3 * n)%nat
    /\ (o = Returns None ->
        length tr = (3 * n)%nat /\ length (patches tr) = n
        /\ List.filter rejectedPatch tr = []).
Proof.
  induction n as [|n IH]; intros i w o w' tr Hrun.
  - simpl in Hrun. injection Hrun as <- <- <-. simpl. split; [lia|].
    intros _. split; [reflexivity|]. split; reflexivity.
  - cbn [updateAdditionalSeeds_from] in Hrun.
    unfold getDatacenterForTemplate in Hrun.
    destruct (api.Cassandra (api.Spec k8ssandra)) as [cassandra|].
    2:{ unfold bind, panic in Hrun. injection Hrun as <- <- <-.
        split; [simpl; lia|discriminate]. }
    destruct (index (api.Datacenters cassandra) i) as [dcTemplate|].
    2:{ unfold bind, panic in Hrun. injection Hrun as <- <- <-.
        split; [simpl; lia|discriminate]. }
    unfold updateAdditionalSeedsForDatacenter in Hrun.
    unfold bind, call_GetClient, call_Get, call_Patch, ret, panic in Hrun.
    answer Hrun; [answer Hrun; [answer Hrun|]| |];
      try (injection Hrun as <- <- <-; split; [simpl; lia|discriminate]).
    destruct (updateAdditionalSeeds_from n k8ssandra seeds (i + 1) w2)
      as [[o3 w3] tr3] eqn:Hrec.
    injection Hrun as <- <- <-.
    destruct (IH _ _ _ _ _ Hrec) as [H1 H2].
    split; [simpl; lia|].
    intros Ho. destruct (H2 Ho) as (H3 & H4 & H5).
    split; [simpl; lia|]. split; [simpl; lia|]. simpl. exact H5.
Qed.

(** X16.  [updateAdditionalSeeds] makes at most three calls for each index
    of its range.  It returns nil only when it has fetched and patched the
    datacenter of every index from [start] to [end - 1], one patch each and
    none refused; in particular an index outside of the list of datacenters
    is not skipped (the function panics there).  With an empty range it
    returns nil and calls nothing. *)
Theorem updateAdditionalSeeds_covers_the_range k8ssandra (seeds : slice.t)
  (start end_ : Z) w o w' tr :
  updateAdditionalSeeds k8ssandra seeds start end_ w = (o, w', tr) ->
  (length tr <= 3 * Z.to_nat (end_ - start))%nat
  /\ (o = Returns None ->
      length tr = (3 * Z.to_nat (end_ - start))%nat
      /\ length (patches tr) = Z.to_nat (end_ - start)
      /\ List.filter rejectedPatch tr = [])
  /\ (end_ <= start -> o = Returns None /\ w' = w /\ tr = []).
Proof.
  intros Hrun. unfold updateAdditionalSeeds in Hrun.
  destruct (updateAdditionalSeeds_from_calls _ _ _ _ _ _ _ _ Hrun) as [H1 H2].
  split; [exact H1|]. split; [exact H2|].
  intros Hle. replace (Z.to_nat (end_ - start)) with 0%nat in Hrun by lia.
  simpl in Hrun. injection Hrun as <- <- <-.
  split; [reflexivity|]. split; reflexivity.
Qed.

(** X17.  The loop of [Reconcile] and seed propagation address the
    datacenter of a template under the same key when the template names a
    namespace, or when the cluster resource that was fetched lives in the
    namespace of the request; otherwise the loop uses the namespace of the
    request and seed propagation the one of the cluster resource, and the
    keys differ.  The name is the one of the template in both. *)
Theorem loop_and_propagation_keys req k8ssandra cassandra template (seeds : slice.t) :
  (keyOf (desiredDatacenter req cassandra template seeds)
   = getDatacenterKey template (k8ssandraKeyOf k8ssandra)
   <-> (api.Namespace (api.Meta template) <> ""%string
        \/ types.Namespace (ctrl.NamespacedName req)
           = metav1.Namespace (api.ObjectMeta k8ssandra)))
  /\ types.Name (keyOf (desiredDatacenter req cassandra template seeds))
     = api.Name (api.Meta template)
  /\ types.Name (getDatacenterKey template (k8ssandraKeyOf k8ssandra))
     = api.Name (api.Meta template).
Proof.
  unfold keyOf, desiredDatacenter, newDatacenter, getDatacenterKey, k8ssandraKeyOf.
  simpl.
  destruct (api.Namespace (api.Meta template)) as [|a s] eqn:E; simpl.
  - split; [|split; reflexivity]. split.
    + intros H. right. injection H as H. exact H.
    + intros [H|H]; [destruct (H eq_refl)|]. rewrite H. reflexivity.
  - split; [|split; reflexivity]. split; [|reflexivity].
    intros _. left. discriminate.
Qed.

End edge_properties.

(** * Runs

    The theorems above, at the worlds of [fake]. *)

Module runs.
Import fake.

Lemma reaches_first (w : World) (k : api.K8ssandraCluster)
  (cassandra : api.CassandraClusterTemplateSpec) :
  reconciler_Get (ctrl.NamespacedName req) w = (Ok k, w) ->
  api.Cassandra (api.Spec k) = Some cassandra ->
  reaches req w k cassandra [] None w (fetched k).
Proof.
  intros HG HC. apply (reaches_intro _ _ _ _ _ _ _ _ w [] HG HC); reflexivity.
Defined.

Lemma world0_reaches_dc1 :
  reaches req world0 k8ssandra2 cassandra2 [] None world0 (fetched k8ssandra2).
Proof. apply reaches_first; vm_compute; reflexivity. Defined.

Lemma world0_creates_dc1 :
  created req k8ssandra2 cassandra2 dc1 None world0 "east"%string world1 creation1.
Proof.
  apply (created_intro _ _ _ _ _ _ _ _ _ world0 notFound world0);
    vm_compute; reflexivity.
Defined.

Lemma absent_datacenter_is_created_run :
  reaches req world0 k8ssandra2 cassandra2 [] None world0 (fetched k8ssandra2)
  /\ api.Datacenters cassandra2 = [] ++ dc1 :: [dc2]
  /\ created req k8ssandra2 cassandra2 dc1 None world0 "east"%string world1 creation1
  /\ Reconcile req world0
     = (Returns ({| ctrl.Requeue := false; ctrl.RequeueAfter := 15000000000 |}, None),
        world1, fetched k8ssandra2 ++ creation1)
  /\ metav1.Annotations (cassdcapi.ObjectMeta desired1) !! resourceHashAnnotation
     = Some "B+7e3yDP3lDWjv+UYprI8gqqS353AGa1JCIYK64VR1I="%string
  /\ cassdcapi.Size (cassdcapi.Spec desired1) = 3.
Proof.
  split; [exact world0_reaches_dc1|]. split; [reflexivity|].
  split; [exact world0_creates_dc1|].
  destruct (absent_datacenter_is_created req world0 k8ssandra2 cassandra2 [] dc1
              [dc2] None world0 (fetched k8ssandra2) "east"%string world1 creation1
              world0_reaches_dc1 eq_refl world0_creates_dc1)
    as (H1 & _ & _ & _ & H5 & _).
  split; [exact H1|]. split; [vm_compute; reflexivity|exact H5].
Defined.

(** C10 at [world7]. *)
Lemma Reconcile_without_cassandra_run :
  reconciler_Get (ctrl.NamespacedName req) world7 = (Ok bare, world7)
  /\ api.Cassandra (api.Spec bare) = None
  /\ Reconcile req world7
     = (Returns ({| ctrl.Requeue := false; ctrl.RequeueAfter := 0 |}, None), world7,
        [EvReconcilerGet (ctrl.NamespacedName req) (Ok bare)]).
Proof.
  assert (reconciler_Get (ctrl.NamespacedName req) world7 = (Ok bare, world7)) as H1
    by (vm_compute; reflexivity).
  split; [exact H1|]. split; [reflexivity|].
  exact (Reconcile_without_cassandra req world7 bare world7 H1 eq_refl).
Defined.

Lemma world1_reaches_dc1 :
  reaches req world1 k8ssandra2 cassandra2 [] None world1 (fetched k8ssandra2).
Proof. apply reaches_first; vm_compute; reflexivity. Defined.

Lemma world1_finds_dc1 :
  found req k8ssandra2 cassandra2 dc1 None world1 "east"%string (stored key1 world1)
    world1 (fetch1 world1).
Proof.
  apply (found_current _ _ _ _ _ _ _ _ _ _ world1); vm_compute; reflexivity.
Defined.

(** C7 at [world1], where [dc1] is not ready, and [world0], where it is
    absent. *)
Lemma not_ready_delay_equals_create_delay_run :
  reaches req world1 k8ssandra2 cassandra2 [] None world1 (fetched k8ssandra2)
  /\ found req k8ssandra2 cassandra2 dc1 None world1 "east"%string
       (stored key1 world1) world1 (fetch1 world1)
  /\ DatacenterReady (stored key1 world1) = false
  /\ reaches req world0 k8ssandra2 cassandra2 [] None world0 (fetched k8ssandra2)
  /\ created req k8ssandra2 cassandra2 dc1 None world0 "east"%string world1 creation1
  /\ exists notReady afterCreate : ctrl.Result,
       Reconcile req world1
       = (Returns (notReady, None), world1, fetched k8ssandra2 ++ fetch1 world1)
       /\ Reconcile req world0
          = (Returns (afterCreate, None), world1, fetched k8ssandra2 ++ creation1)
       /\ 0 < ctrl.RequeueAfter notReady
       /\ ctrl.RequeueAfter notReady = 15 * time.Second
       /\ ctrl.RequeueAfter notReady = ctrl.RequeueAfter afterCreate.
Proof.
  assert (DatacenterReady (stored key1 world1) = false) as Hready
    by (vm_compute; reflexivity).
  split; [exact world1_reaches_dc1|]. split; [exact world1_finds_dc1|].
  split; [exact Hready|]. split; [exact world0_reaches_dc1|].
  split; [exact world0_creates_dc1|].
  exact (not_ready_delay_equals_create_delay
           req world1 k8ssandra2 cassandra2 [] dc1 [dc2] None world1
           (fetched k8ssandra2) "east"%string (stored key1 world1) world1
           (fetch1 world1)
           req world0 k8ssandra2 cassandra2 [] dc1 [dc2] None world0
           (fetched k8ssandra2) "east"%string world1 creation1
           world1_reaches_dc1 eq_refl world1_finds_dc1 Hready
           world0_reaches_dc1 eq_refl world0_creates_dc1).
Defined.

(** C7 as the claim has it fails: after the creation of [dc1] in [world0]
    and while [dc1] is not ready in [world1], the pass returns the same delay;
    the second is not longer than the first. *)
Lemma not_ready_delay_is_not_longer :
  exists notReady afterCreate : ctrl.Result,
    returned world1 = Returns (notReady, None)
    /\ trace world1 = fetched k8ssandra2 ++ fetch1 world1
    /\ DatacenterReady (stored key1 world1) = false
    /\ returned world0 = Returns (afterCreate, None)
    /\ trace world0 = fetched k8ssandra2 ++ creation1
    /\ ~ (ctrl.RequeueAfter afterCreate < ctrl.RequeueAfter notReady).
Proof.
  exists {| ctrl.Requeue := false; ctrl.RequeueAfter := 15000000000 |},
         {| ctrl.Requeue := false; ctrl.RequeueAfter := 15000000000 |}.
  split; [vm_compute; reflexivity|]. split; [vm_compute; reflexivity|].
  split; [vm_compute; reflexivity|]. split; [vm_compute; reflexivity|].
  split; [vm_compute; reflexivity|]. simpl. lia.
Qed.

(** C8 at [world2], for the four pods of [dc1]. *)
Lemma resolveSeedEndpoints_keeps_first_pods_run :
  client_List "east"%string
    {[ DatacenterLabel := metav1.Name (cassdcapi.ObjectMeta (stored key1 world2)) ]}
    world2 = (Ok pods1, world2)
  /\ exists (endpoints : list string) (kept rest : list corev1.Pod),
       resolveSeedEndpoints (stored key1 world2) "east"%string world2
       = (Returns (Ok (Some endpoints)), world2,
          [EvList "east"%string
             {[ DatacenterLabel
                := metav1.Name (cassdcapi.ObjectMeta (stored key1 world2)) ]}
             (Ok pods1)])
       /\ pods1 = kept ++ rest
       /\ endpoints = map (fun pod => corev1.PodIP (corev1.Status pod)) kept
       /\ (length endpoints <= 3)%nat
       /\ ((3 <= length pods1)%nat -> length endpoints = 3%nat)
       /\ ((length pods1 <= 3)%nat -> rest = []).
Proof.
  assert (client_List "east"%string
            {[ DatacenterLabel
               := metav1.Name (cassdcapi.ObjectMeta (stored key1 world2)) ]}
            world2 = (Ok pods1, world2)) as HL by (vm_compute; reflexivity).
  split; [exact HL|].
  exact (resolveSeedEndpoints_keeps_first_pods (stored key1 world2) "east"%string
           world2 pods1 world2 HL).
Defined.

(** C9 at [world2]: the third pod of [dc1] has no address, and the third
    endpoint is the empty string. *)
Lemma resolveSeedEndpoints_takes_pod_ips_run :
  client_List "east"%string (seedSelector (stored key1 world2)) world2
  = (Ok pods1, world2)
  /\ fst (fst (resolveSeedEndpoints (stored key1 world2) "east"%string world2))
     = Returns (Ok (Some ["10.0.0.1"; "10.0.0.2"; ""]%string))
  /\ collectEndpoints pods1 [] !! 2%nat = Some ""%string.
Proof.
  assert (client_List "east"%string (seedSelector (stored key1 world2)) world2
          = (Ok pods1, world2)) as HL by (vm_compute; reflexivity).
  split; [exact HL|].
  destruct (resolveSeedEndpoints_takes_pod_ips (stored key1 world2) "east"%string
              world2 pods1 world2 HL) as [H1 H2].
  split; [exact H1|].
  apply (H2 2%nat (pod "dc1" "")); [simpl; lia|reflexivity|reflexivity].
Defined.

Lemma world2_reaches_dc1 :
  reaches req world2 k8ssandra2 cassandra2 [] None world2 (fetched k8ssandra2).
Proof. apply reaches_first; vm_compute; reflexivity. Defined.

(** C1 at [world2]: [dc1] carries the desired fingerprint, and its turn
    neither creates nor updates. *)
Lemma update_only_when_fingerprint_differs_run :
  reaches req world2 k8ssandra2 cassandra2 [] None world2 (fetched k8ssandra2)
  /\ ClientCache_GetClient (ctrl.NamespacedName req) "contexts" "east" world2
     = (Ok (Some "east"%string), world2)
  /\ client_Get "east"%string (keyOf desired1) world2 = (Ok (stored key1 world2), world2)
  /\ metav1.Annotations (cassdcapi.ObjectMeta (stored key1 world2))
       !! resourceHashAnnotation
     = Some (deepHashString (newDatacenter "k8ssandra" "demo" dc1 None))
  /\ exists turnCalls later : list (Event string),
       trace world2 = fetched k8ssandra2 ++ turnCalls ++ later
       /\ createsAndUpdates turnCalls = [].
Proof.
  assert (ClientCache_GetClient (ctrl.NamespacedName req) "contexts" "east" world2
          = (Ok (Some "east"%string), world2)) as HC by (vm_compute; reflexivity).
  assert (client_Get "east"%string (keyOf desired1) world2
          = (Ok (stored key1 world2), world2)) as HG by (vm_compute; reflexivity).
  assert (metav1.Annotations (cassdcapi.ObjectMeta (stored key1 world2))
            !! resourceHashAnnotation
          = Some (deepHashString (newDatacenter "k8ssandra" "demo" dc1 None))) as Hm
    by (vm_compute; reflexivity).
  split; [exact world2_reaches_dc1|]. split; [exact HC|]. split; [exact HG|].
  split; [exact Hm|].
  destruct (update_only_when_fingerprint_differs req world2 k8ssandra2 cassandra2 []
              dc1 [dc2] None world2 (fetched k8ssandra2) "east"%string world2
              (stored key1 world2) world2 world2_reaches_dc1 eq_refl HC HG)
    as (turnCalls & later & H1 & _ & H3).
  exists turnCalls, later. split; [exact H1|].
  rewrite H3. destruct (decide _) as [_|Hn]; [reflexivity|].
  destruct (Hn Hm).
Defined.

(** C1 as the claim has it fails at [world4]: [dc1] carries the fingerprint
    of its desired datacenter, and the pass still writes to it through its
    client, with the patch that hands it the seeds found when [dc2] is
    ready.  The pass creates and updates nothing. *)
Lemma current_datacenter_is_still_patched :
  metav1.Annotations (cassdcapi.ObjectMeta (stored key1 world4))
    !! resourceHashAnnotation
  = Some (deepHashString (newDatacenter "k8ssandra" "demo" dc1 None))
  /\ createsAndUpdates (trace world4) = []
  /\ List.filter (writesTo "east"%string (keyOf desired1)) (trace world4) <> [].
Proof.
  split; [vm_compute; reflexivity|]. split; [vm_compute; reflexivity|].
  intros H.
  assert (length (List.filter (writesTo "east"%string (keyOf desired1))
                    (trace world4)) = 1%nat) as Hlen by (vm_compute; reflexivity).
  rewrite H in Hlen. discriminate Hlen.
Qed.

Lemma world6_reaches_dc1 :
  reaches req world6 k8ssandra6 cassandra6 [] None world6 (fetched k8ssandra6).
Proof. apply reaches_first; vm_compute; reflexivity. Defined.

(** C2 at [world6]: the stored [dc1] has resource version 2 and a UID, and
    the update that the pass sends has neither; the API server refuses it,
    and the pass returns its error. *)
Lemma stale_datacenter_update_drops_fetched_metadata_run :
  reaches req world6 k8ssandra6 cassandra6 [] None world6 (fetched k8ssandra6)
  /\ ClientCache_GetClient (ctrl.NamespacedName req) "contexts" "east" world6
     = (Ok (Some "east"%string), world6)
  /\ client_Get "east"%string (keyOf desired6) world6 = (Ok (stored key1 world6), world6)
  /\ metav1.Annotations (cassdcapi.ObjectMeta (stored key1 world6))
       !! resourceHashAnnotation
     <> Some (deepHashString (newDatacenter "k8ssandra" "demo" dc1' None))
  /\ metav1.ResourceVersion (cassdcapi.ObjectMeta (stored key1 world6)) = "2"%string
  /\ metav1.UID (cassdcapi.ObjectMeta (stored key1 world6)) = "uid-1"%string
  /\ (exists (r : result cassdcapi.CassandraDatacenter) (later : list (Event string)),
        trace world6
        = fetched k8ssandra6
          ++ [ EvGetClient (ctrl.NamespacedName req) "contexts" "east"
                 (Ok (Some "east"%string));
               EvGet "east"%string (keyOf desired6) (Ok (stored key1 world6));
               EvUpdate "east"%string desired6 r ] ++ later
        /\ metav1.ResourceVersion (cassdcapi.ObjectMeta desired6) = ""%string
        /\ metav1.UID (cassdcapi.ObjectMeta desired6) = ""%string)
  /\ returned world6 = Returns (ctrl.zero, Some invalid).
Proof.
  assert (ClientCache_GetClient (ctrl.NamespacedName req) "contexts" "east" world6
          = (Ok (Some "east"%string), world6)) as HC by (vm_compute; reflexivity).
  assert (client_Get "east"%string (keyOf desired6) world6
          = (Ok (stored key1 world6), world6)) as HG by (vm_compute; reflexivity).
  assert (metav1.Annotations (cassdcapi.ObjectMeta (stored key1 world6))
            !! resourceHashAnnotation
          <> Some (deepHashString (newDatacenter "k8ssandra" "demo" dc1' None))) as Hm.
  { intros H. vm_compute in H. discriminate H. }
  split; [exact world6_reaches_dc1|]. split; [exact HC|]. split; [exact HG|].
  split; [exact Hm|]. split; [vm_compute; reflexivity|].
  split; [vm_compute; reflexivity|]. split; [|vm_compute; reflexivity].
  destruct (stale_datacenter_update_drops_fetched_metadata req world6 k8ssandra6
              cassandra6 [] dc1' [dc2] None world6 (fetched k8ssandra6) "east"%string
              world6 (stored key1 world6) world6 world6_reaches_dc1 eq_refl HC HG Hm)
    as (r & later & H1 & _ & H3 & H4 & _).
  exists r, later. split; [exact H1|]. split; [exact H3|exact H4].
Defined.

Lemma world2_reaches_dc2 :
  reaches req world2 k8ssandra2 cassandra2 [dc1] seeds1 world2
    (fetched k8ssandra2 ++ turn1 world2).
Proof.
  apply (reaches_intro _ _ _ _ _ _ _ _ world2 (turn1 world2));
    vm_compute; reflexivity.
Defined.

(** C3 at [world2]: the pass reaches [dc2] with the seeds discovered from
    [dc1], in the one [List] call made so far, and creates [dc2] with
    them. *)
Lemma desired_seeds_come_from_earlier_datacenters_run :
  reaches req world2 k8ssandra2 cassandra2 [dc1] seeds1 world2
    (fetched k8ssandra2 ++ turn1 world2)
  /\ api.Datacenters cassandra2 = [dc1] ++ dc2 :: []
  /\ (exists sources : list Discovery,
        Forall2 (discoveredFor req k8ssandra2 cassandra2) [dc1] sources
        /\ List.filter isList (fetched k8ssandra2 ++ turn1 world2)
           = map listCall sources
        /\ slice.elems seeds1
           = concat (map (fun d : Discovery => collectEndpoints (snd d) []) sources)
        /\ Forall (fun seed =>
                     exists d pod,
                       In d sources /\ In pod (take 3 (snd d))
                       /\ seed = corev1.PodIP (corev1.Status pod))
             (slice.elems seeds1))
  /\ List.filter isList (fetched k8ssandra2 ++ turn1 world2)
     = [EvList "east"%string (seedSelector (stored key1 world2)) (Ok pods1)]
  /\ discoveries (fetched k8ssandra2 ++ turn1 world2)
     = [["10.0.0.1"; "10.0.0.2"; ""]%string]
  /\ slice.elems seeds1 = concat (discoveries (fetched k8ssandra2 ++ turn1 world2))
  /\ cassdcapi.AdditionalSeeds (cassdcapi.Spec desired2) = seeds1
  /\ createsAndUpdates (trace world2) = [EvCreate "west"%string desired2 None].
Proof.
  split; [exact world2_reaches_dc2|]. split; [reflexivity|].
  destruct (desired_seeds_come_from_earlier_datacenters req world2 k8ssandra2
              cassandra2 [dc1] dc2 [] seeds1 world2 (fetched k8ssandra2 ++ turn1 world2)
              world2_reaches_dc2 eq_refl) as (_ & H2 & _ & H4 & H5 & _).
  split; [exact H2|]. split; [vm_compute; reflexivity|].
  split; [vm_compute; reflexivity|]. split; [exact H4|]. split; [exact H5|].
  vm_compute; reflexivity.
Defined.

Lemma world3_reaches_dc2 :
  reaches req twins.world3 twins.k8ssandra3 twins.cassandra3 [dc1] twins.seeds0
    twins.world3 (fetched twins.k8ssandra3 ++ twins.turn0).
Proof.
  apply (reaches_intro _ _ _ _ _ _ _ _ twins.world3 twins.turn0);
    vm_compute; reflexivity.
Qed.

(** C3 as the claim has it fails at [twins.world3].  The datacenters at
    positions 0 and 2 have one name and one remote cluster, and each has a
    pod.  The pass reaches position 1 holding the addresses of both pods,
    since the [List] call for position 0 selects by the name alone, and it
    creates the datacenter of position 1 with them: with a seed that comes
    from the datacenter at position 2, and from no pod of the datacenters at
    positions 0 and 1. *)
Lemma seed_of_a_later_datacenter_is_used :
  api.Datacenters twins.cassandra3 = [dc1] ++ dc2 :: [twins.dc3]
  /\ reaches req twins.world3 twins.k8ssandra3 twins.cassandra3 [dc1] twins.seeds0
       twins.world3 (fetched twins.k8ssandra3 ++ twins.turn0)
  /\ cassdcapi.AdditionalSeeds (cassdcapi.Spec twins.desired)
     = Some ["10.0.0.1"; "10.2.0.1"]%string
  /\ createsAndUpdates (trace twins.world3)
     = [EvCreate "west"%string twins.desired None]
  /\ cassdcapi.AdditionalSeeds
       (cassdcapi.Spec (stored (mkKey "west" "k8ssandra" "dc2") (after twins.world3)))
     = Some ["10.0.0.1"; "10.2.0.1"]%string
  /\ List.filter (twins.memberOf twins.dc3) (pods twins.world3)
     = [("east"%string, twins.podIn "other" "dc1" "10.2.0.1")]
  /\ map (fun cp => corev1.PodIP (corev1.Status (snd cp)))
       (List.filter (twins.memberOf dc1) (pods twins.world3))
     = ["10.0.0.1"%string]
  /\ List.filter (twins.memberOf dc2) (pods twins.world3) = [].
Proof.
  split; [reflexivity|]. split; [exact world3_reaches_dc2|].
  split; [reflexivity|]. split; [vm_compute; reflexivity|].
  split; [vm_compute; reflexivity|]. split; [vm_compute; reflexivity|].
  split; vm_compute; reflexivity.
Qed.




(** C5 at [world5]: the patch is refused with a conflict, it is the last
    call, the pass returns the conflict, and [dc1] stays as the other writer
    left it, at resource version 6 and without additional seeds. *)
Lemma rejected_patch_ends_the_pass_run :
  Reconcile req world5 = (returned world5, after world5, trace world5)
  /\ trace world5
     = removelast (trace world5)
       ++ EvPatch "east"%string patched5 patch5 (Some conflict) :: []
  /\ returned world5 = Returns (ctrl.zero, Some conflict)
  /\ errors.IsConflict conflict = true
  /\ client.OptimisticLock patch5 = true
  /\ metav1.ResourceVersion (cassdcapi.ObjectMeta patched5) = "5"%string
  /\ metav1.ResourceVersion (cassdcapi.ObjectMeta (stored key1 (after world5)))
     = "6"%string
  /\ cassdcapi.AdditionalSeeds (cassdcapi.Spec (stored key1 (after world5))) = None.
Proof.
  assert (Reconcile req world5 = (returned world5, after world5, trace world5)) as H1.
  { unfold returned, after, trace.
    destruct (Reconcile req world5) as [[o w] tr]. reflexivity. }
  assert (trace world5
          = removelast (trace world5)
            ++ EvPatch "east"%string patched5 patch5 (Some conflict) :: []) as H2
    by (vm_compute; reflexivity).
  split; [exact H1|]. split; [exact H2|].
  destruct (rejected_patch_ends_the_pass req world5 (returned world5) (after world5)
              (trace world5) (removelast (trace world5)) "east"%string patched5
              patch5 conflict [] H1 H2) as (_ & H4 & H5 & _ & _).
  split; [exact H4|]. split; [reflexivity|]. split; [exact H5|].
  split; [vm_compute; reflexivity|]. split; vm_compute; reflexivity.
Defined.

End runs.

(** * More runs

    The theorems on errors, bounds and edge cases, at the worlds of [fake]
    and [flaky]. *)

Module edge_runs.
Import fake scenes.

Lemma run_of (w : World) : Reconcile req w = (returned w, after w, trace w).
Proof.
  unfold returned, after, trace.
  destruct (Reconcile req w) as [[o w'] tr]. reflexivity.
Qed.

(** X1 at [world0], asked for a cluster resource that is not there. *)
Lemma cluster_fetch_failure_run :
  reconciler_Get (ctrl.NamespacedName gone) world0 = (Err notFound, world0)
  /\ Reconcile gone world0
     = (Returns (ctrl.zero, None), world0,
        [EvReconcilerGet (ctrl.NamespacedName gone) (Err notFound)]).
Proof.
  assert (reconciler_Get (ctrl.NamespacedName gone) world0 = (Err notFound, world0))
    as H by (vm_compute; reflexivity).
  split; [exact H|].
  exact (cluster_fetch_failure gone world0 notFound world0 H).
Defined.

(** X2 at [world6]: the update is refused, it is the last call, and the
    pass returns its error. *)
Lemma failed_call_ends_the_pass_run :
  Reconcile req world6 = (returned world6, after world6, trace world6)
  /\ trace world6 = removelast (trace world6) ++ update6 :: []
  /\ failure update6 = Some invalid
  /\ returned world6 = Returns (ctrl.zero, Some invalid).
Proof.
  assert (trace world6 = removelast (trace world6) ++ update6 :: []) as H2
    by (vm_compute; reflexivity).
  split; [exact (run_of world6)|]. split; [exact H2|]. split; [reflexivity|].
  destruct (failed_call_ends_the_pass req world6 (returned world6) (after world6)
              (trace world6) (removelast (trace world6)) update6 [] invalid
              (run_of world6) H2 eq_refl) as [_ H].
  exact H.
Defined.

(** X3 at [world0]: the creation of [dc1] is the last call. *)
Lemma create_is_the_last_call_run :
  Reconcile req world0 = (returned world0, after world0, trace world0)
  /\ trace world0
     = removelast (trace world0) ++ EvCreate "east"%string desired1 None :: []
  /\ length (creates (trace world0)) = 1%nat
  /\ returned world0 = Returns (requeueAfter (15 * time.Second), None).
Proof.
  assert (trace world0
          = removelast (trace world0) ++ EvCreate "east"%string desired1 None :: [])
    as H2 by (vm_compute; reflexivity).
  split; [exact (run_of world0)|]. split; [exact H2|].
  destruct (create_is_the_last_call req world0 (returned world0) (after world0)
              (trace world0) (removelast (trace world0)) "east"%string desired1
              None [] (run_of world0) H2) as (_ & H3 & H4).
  split; [exact H3|exact H4].
Defined.

(** X4 at [world0]. *)
Lemma Reconcile_results_run :
  Reconcile req world0
  = (Returns (requeueAfter (15 * time.Second), None), after world0, trace world0)
  /\ ctrl.Requeue (requeueAfter (15 * time.Second)) = false
  /\ (requeueAfter (15 * time.Second) = ctrl.zero
      \/ requeueAfter (15 * time.Second) = requeueAfter (15 * time.Second)).
Proof.
  assert (Reconcile req world0
          = (Returns (requeueAfter (15 * time.Second), None), after world0,
             trace world0)) as H by (vm_compute; reflexivity).
  split; [exact H|].
  exact (Reconcile_results req world0 (requeueAfter (15 * time.Second)) None
           (after world0) (trace world0) H).
Defined.

(** X5 at [flaky.world8]: the cache hands out a nil client in seed
    propagation, and the pass panics. *)
Lemma pass_panics_on_nil_client_only_run :
  flaky.run flaky.world8
  = (Panics "invalid memory address or nil pointer dereference",
     snd (fst (flaky.run flaky.world8)), snd (flaky.run flaky.world8))
  /\ exists k8ssandra cassandra before earlier c labels items,
       snd (flaky.run flaky.world8)
       = EvReconcilerGet (ctrl.NamespacedName req) (Ok k8ssandra)
         :: before
         ++ [EvGetClient (k8ssandraKeyOf k8ssandra)
               (api.K8sContextsSecret (api.Spec k8ssandra))
               (api.K8sContext earlier) (Ok None)]
       /\ api.Cassandra (api.Spec k8ssandra) = Some cassandra
       /\ In earlier (api.Datacenters cassandra)
       /\ In (EvList c labels (Ok items)) before.
Proof.
  assert (flaky.run flaky.world8
          = (Panics "invalid memory address or nil pointer dereference",
             snd (fst (flaky.run flaky.world8)), snd (flaky.run flaky.world8)))
    as H by (vm_compute; reflexivity).
  split; [exact H|].
  exact (pass_panics_on_nil_client_only (R := flaky.remote) req flaky.world8 _ _ _ H).
Defined.

(** X6 at [flaky.world9]: the cache hands out a nil client in the loop, and
    the pass returns an error. *)
Lemma nil_client_ends_the_pass_run :
  flaky.run flaky.world9
  = (Returns (ctrl.zero, Some (errors.Errorf "remoteClient cannot be nil")),
     flaky.world9,
     fetched k8ssandra2
     ++ EvGetClient (ctrl.NamespacedName req) "contexts" "east" (Ok None) :: [])
  /\ @nil (Event string) = []
  /\ (Returns (ctrl.zero, Some (errors.Errorf "remoteClient cannot be nil"))
      = Returns (ctrl.zero, Some (errors.Errorf "remoteClient cannot be nil"))
      \/ exists msg,
           Returns (ctrl.zero, Some (errors.Errorf "remoteClient cannot be nil"))
           = Panics msg).
Proof.
  assert (flaky.run flaky.world9
          = (Returns (ctrl.zero, Some (errors.Errorf "remoteClient cannot be nil")),
             flaky.world9,
             fetched k8ssandra2
             ++ EvGetClient (ctrl.NamespacedName req) "contexts" "east" (Ok None)
                :: [])) as H by (vm_compute; reflexivity).
  split; [exact H|].
  exact (nil_client_ends_the_pass (R := flaky.remote) req flaky.world9 _ _ _
           (fetched k8ssandra2) (ctrl.NamespacedName req) "contexts" "east" [] H
           eq_refl).
Defined.

Lemma world4_cluster :
  reconciler_Get (ctrl.NamespacedName req) world4 = (Ok k8ssandra2, world4).
Proof. vm_compute; reflexivity. Qed.

(** X7 at [world4]: two datacenters, one patch. *)
Lemma patches_of_a_pass_run :
  Reconcile req world4 = (returned world4, after world4, trace world4)
  /\ reconciler_Get (ctrl.NamespacedName req) world4 = (Ok k8ssandra2, world4)
  /\ api.Cassandra (api.Spec k8ssandra2) = Some cassandra2
  /\ length (patches (trace world4)) = 1%nat
  /\ (2 * length (patches (trace world4))
      <= length (api.Datacenters cassandra2)
         * (length (api.Datacenters cassandra2) - 1))%nat.
Proof.
  split; [exact (run_of world4)|]. split; [exact world4_cluster|].
  split; [reflexivity|]. split; [vm_compute; reflexivity|].
  destruct (patches_of_a_pass req world4 k8ssandra2 world4 cassandra2
              (returned world4) (after world4) (trace world4) (run_of world4)
              world4_cluster eq_refl) as [H _].
  exact H.
Defined.

(** X8 at [world4]: both datacenters are ready, and the pass finishes. *)
Lemma finished_pass_run :
  Reconcile req world4 = (Returns (ctrl.zero, None), after world4, trace world4)
  /\ reconciler_Get (ctrl.NamespacedName req) world4 = (Ok k8ssandra2, world4)
  /\ api.Cassandra (api.Spec k8ssandra2) = Some cassandra2
  /\ length (discoveries (trace world4)) = length (api.Datacenters cassandra2)
  /\ creates (trace world4) = []
  /\ (2 * length (patches (trace world4))
      = length (api.Datacenters cassandra2)
        * (length (api.Datacenters cassandra2) - 1))%nat
  /\ List.filter rejectedPatch (trace world4) = [].
Proof.
  assert (Reconcile req world4
          = (Returns (ctrl.zero, None), after world4, trace world4)) as H
    by (vm_compute; reflexivity).
  split; [exact H|]. split; [exact world4_cluster|]. split; [reflexivity|].
  exact (finished_pass req world4 k8ssandra2 world4 cassandra2 (after world4)
           (trace world4) H world4_cluster eq_refl).
Defined.

Lemma world2_at_dc2 :
  reaches req world2 k8ssandra2 cassandra2 [dc1] seeds1 world2
    (fetched k8ssandra2 ++ turn1 world2).
Proof.
  apply (reaches_intro _ _ _ _ _ _ _ _ world2 (turn1 world2));
    vm_compute; reflexivity.
Qed.

(** X9 at [world2]: [dc1] has four pods, and three seeds are kept. *)
Lemma collected_seeds_are_bounded_run :
  reaches req world2 k8ssandra2 cassandra2 [dc1] seeds1 world2
    (fetched k8ssandra2 ++ turn1 world2)
  /\ api.Datacenters cassandra2 = [dc1] ++ [dc2]
  /\ (length (slice.elems seeds1) <= 3 * length [dc1])%nat
  /\ (seeds1 = None \/ slice.elems seeds1 <> []).
Proof.
  split; [exact world2_at_dc2|]. split; [reflexivity|].
  exact (collected_seeds_are_bounded req world2 k8ssandra2 cassandra2 [dc1] [dc2]
           seeds1 world2 (fetched k8ssandra2 ++ turn1 world2) world2_at_dc2 eq_refl).
Defined.

Lemma world4_patch : trace world4 = removelast (trace world4) ++ patch4 :: [].
Proof. vm_compute; reflexivity. Qed.

(** X10 at [world4]: [dc1] gets the seeds of both datacenters, its own
    among them. *)
Lemma patch_appends_discovered_seeds_run :
  Reconcile req world4 = (returned world4, after world4, trace world4)
  /\ trace world4 = removelast (trace world4) ++ patch4 :: []
  /\ concat (discoveries (removelast (trace world4)))
     = ["10.0.0.1"; "10.0.0.2"; ""; "10.1.0.1"]%string
  /\ slice.elems (cassdcapi.AdditionalSeeds
                    (cassdcapi.Spec (seeded (stored key1 world4) seeds2)))
     = slice.elems (cassdcapi.AdditionalSeeds
                      (cassdcapi.Spec
                         (client.from
                            (client.MergeFromWithOptions (stored key1 world4) true))))
       ++ concat (discoveries (removelast (trace world4)))
  /\ slice.isNil (cassdcapi.AdditionalSeeds
                    (cassdcapi.Spec (seeded (stored key1 world4) seeds2))) = false.
Proof.
  split; [exact (run_of world4)|]. split; [exact world4_patch|].
  split; [vm_compute; reflexivity|].
  exact (patch_appends_discovered_seeds req world4 (returned world4) (after world4)
           (trace world4) (removelast (trace world4)) "east"%string
           (seeded (stored key1 world4) seeds2)
           (client.MergeFromWithOptions (stored key1 world4) true) None []
           (run_of world4) world4_patch).
Defined.

Lemma world10_patch : trace world10 = removelast (trace world10) ++ patch10 :: [].
Proof. vm_compute; reflexivity. Qed.

(** X18 at [world10], the world after the pass over [world4]: [dc1] already
    has the four seeds, and the next pass sends them twice. *)
Lemma patch_repeats_known_seeds_run :
  Reconcile req world10 = (returned world10, after world10, trace world10)
  /\ trace world10 = removelast (trace world10) ++ patch10 :: []
  /\ slice.elems (cassdcapi.AdditionalSeeds (cassdcapi.Spec (stored key1 world10)))
     = ["10.0.0.1"; "10.0.0.2"; ""; "10.1.0.1"]%string
  /\ concat (discoveries (removelast (trace world10)))
     = ["10.0.0.1"; "10.0.0.2"; ""; "10.1.0.1"]%string
  /\ ~ NoDup (slice.elems
                (cassdcapi.AdditionalSeeds
                   (cassdcapi.Spec (seeded (stored key1 world10) seeds2))))
  /\ length (slice.elems
               (cassdcapi.AdditionalSeeds
                  (cassdcapi.Spec (seeded (stored key1 world10) seeds2)))) = 8%nat.
Proof.
  assert (slice.elems (cassdcapi.AdditionalSeeds
                         (cassdcapi.Spec (stored key1 world10)))
          = ["10.0.0.1"; "10.0.0.2"; ""; "10.1.0.1"]%string) as H3
    by (vm_compute; reflexivity).
  assert (concat (discoveries (removelast (trace world10)))
          = ["10.0.0.1"; "10.0.0.2"; ""; "10.1.0.1"]%string) as H4
    by (vm_compute; reflexivity).
  split; [exact (run_of world10)|]. split; [exact world10_patch|].
  split; [exact H3|]. split; [exact H4|].
  split; [|vm_compute; reflexivity].
  apply (patch_repeats_known_seeds req world10 (returned world10) (after world10)
           (trace world10) (removelast (trace world10)) "east"%string
           (seeded (stored key1 world10) seeds2)
           (client.MergeFromWithOptions (stored key1 world10) true) None []
           "10.0.0.1"%string (run_of world10) world10_patch).
  - change (In "10.0.0.1"%string
              (slice.elems (cassdcapi.AdditionalSeeds
                              (cassdcapi.Spec (stored key1 world10))))).
    rewrite H3. left. reflexivity.
  - rewrite H4. left. reflexivity.
Defined.

(** X11 at [world4]: the patch of [dc1] goes through the client of [east],
    resolved again in seed propagation after the one of [west]. *)
Lemma remote_calls_use_the_latest_client_run :
  Reconcile req world4 = (returned world4, after world4, trace world4)
  /\ trace world4 = removelast (trace world4) ++ patch4 :: []
  /\ clientOf patch4 = Some "east"%string
  /\ latest None (removelast (trace world4)) = Some "east"%string.
Proof.
  split; [exact (run_of world4)|]. split; [exact world4_patch|].
  split; [reflexivity|].
  exact (remote_calls_use_the_latest_client req world4 (returned world4)
           (after world4) (trace world4) (removelast (trace world4)) patch4 []
           "east"%string (run_of world4) world4_patch eq_refl).
Defined.

Lemma world0_create :
  trace world0
  = removelast (trace world0) ++ EvCreate "east"%string desired1 None :: [].
Proof. vm_compute; reflexivity. Qed.

(** X12 at [world0]: the creation of [dc1] follows the fetch that did not
    find it. *)
Lemma writes_follow_a_fetch_run :
  Reconcile req world0 = (returned world0, after world0, trace world0)
  /\ trace world0
     = removelast (trace world0) ++ EvCreate "east"%string desired1 None :: []
  /\ exists err,
       last (removelast (trace world0))
       = Some (EvGet "east"%string (keyOf desired1) (Err err))
       /\ errors.IsNotFound err = true.
Proof.
  split; [exact (run_of world0)|]. split; [exact world0_create|].
  exact (writes_follow_a_fetch req world0 (returned world0) (after world0)
           (trace world0) (removelast (trace world0))
           (EvCreate "east"%string desired1 None) [] (run_of world0) world0_create).
Defined.

(** X13 at [world0]: [dc1] is not there, and is created. *)
Lemma absent_datacenter_ends_the_pass_run :
  Reconcile req world0 = (returned world0, after world0, trace world0)
  /\ trace world0
     = (fetched k8ssandra2 ++ [east])
       ++ EvGet "east"%string (keyOf desired1) (Err notFound)
          :: [EvCreate "east"%string desired1 None]
  /\ errors.IsNotFound notFound = true
  /\ ((exists obj r,
         [EvCreate "east"%string desired1 None] = [EvCreate "east"%string obj r]
         /\ keyOf obj = keyOf desired1)
      \/ ([EvCreate "east"%string desired1 None] = []
          /\ returned world0 = Returns (ctrl.zero, Some notFound))).
Proof.
  assert (trace world0
          = (fetched k8ssandra2 ++ [east])
            ++ EvGet "east"%string (keyOf desired1) (Err notFound)
               :: [EvCreate "east"%string desired1 None]) as H2
    by (vm_compute; reflexivity).
  split; [exact (run_of world0)|]. split; [exact H2|]. split; [reflexivity|].
  exact (absent_datacenter_ends_the_pass req world0 (returned world0) (after world0)
           (trace world0) (fetched k8ssandra2 ++ [east]) "east"%string
           (keyOf desired1) notFound [EvCreate "east"%string desired1 None]
           (run_of world0) H2 eq_refl).
Defined.

(** X14 at [world0]. *)
Lemma cluster_is_fetched_once_run :
  Reconcile req world0 = (returned world0, after world0, trace world0)
  /\ exists later,
       trace world0
       = EvReconcilerGet (ctrl.NamespacedName req)
           (fst (reconciler_Get (ctrl.NamespacedName req) world0)) :: later
       /\ List.filter isReconcilerGet later = [].
Proof.
  split; [exact (run_of world0)|].
  exact (cluster_is_fetched_once req world0 (returned world0) (after world0)
           (trace world0) (run_of world0)).
Defined.

Lemma propagation4_run :
  updateAdditionalSeeds k8ssandra2 seeds2 0 1 world4
  = (fst (fst propagation4), snd (fst propagation4), snd propagation4).
Proof.
  unfold propagation4.
  destruct (updateAdditionalSeeds k8ssandra2 seeds2 0 1 world4) as [[o w] tr].
  reflexivity.
Qed.

(** X16 at [world4]: the range is position 0, and [dc1] is patched. *)
Lemma updateAdditionalSeeds_covers_the_range_run :
  updateAdditionalSeeds k8ssandra2 seeds2 0 1 world4
  = (fst (fst propagation4), snd (fst propagation4), snd propagation4)
  /\ fst (fst propagation4) = Returns None
  /\ length (snd propagation4) = (3 * Z.to_nat (1 - 0))%nat
  /\ length (patches (snd propagation4)) = Z.to_nat (1 - 0)
  /\ List.filter rejectedPatch (snd propagation4) = [].
Proof.
  assert (fst (fst propagation4) = Returns None) as Ho by (vm_compute; reflexivity).
  split; [exact propagation4_run|]. split; [exact Ho|].
  destruct (updateAdditionalSeeds_covers_the_range k8ssandra2 seeds2 0 1 world4
              (fst (fst propagation4)) (snd (fst propagation4)) (snd propagation4)
              propagation4_run) as (_ & H & _).
  exact (H Ho).
Defined.

End edge_runs.
